(** * DocuDots: heading and title classification pipeline

    A shallow embedding of the classification code of DocuDots:
    - [Main]: the script-style analyzer, [src/main.py]
      (class [PDFStructureAnalyzer]);
    - [Core]: the module-style analyzer, [docudots_module/core.py]
      (class [PDFAnalyzer]) with [docudots_module/config.py];
    - [Multilingual]: the two text normalizers,
      [src/utils/multilingual.py] and [docudots_module/multilingual.py].

    Modelling conventions.
    - A Python [str] is a list of Unicode code points ([list N]); [len] is
      [length].  Case mapping and case tests ([lower], [isupper],
      [istitle]) and [isdigit] are modelled on the ASCII letters and
      digits; every other code point is uncased and not a digit.
    - A Python [float] is an exact rational ([Q]); float comparison is
      comparison of rationals and [/] raises [ZeroDivisionError] on a
      zero divisor.
    - A Python [int] is [Z]; list lengths and indices are [nat].
    - A raised exception is the [Raise] branch of [result].
    - A list of dictionaries that is mutated in place is a store: a list
      indexed by position, read with [!!] and written with [<[i:=x]>]. *)

From Stdlib Require Import ZArith NArith QArith Qround Qminmax Lqa List Bool Ascii String Lia Permutation Sorted.
From stdpp Require Import base list.
Import ListNotations.

Local Open Scope Z_scope.

(** ** Python exceptions as values *)

Inductive exn := ZeroDivisionError | KeyError.

Inductive result (A : Type) :=
| Ok (a : A)
| Raise (e : exn).
Arguments Ok {A} a.
Arguments Raise {A} e.

#[global] Instance result_ret : MRet result := fun A a => Ok a.
#[global] Instance result_bind : MBind result := fun A B k m =>
  match m with
  | Ok a => k a
  | Raise e => Raise e
  end.

(** A [for] loop whose body may raise: the first exception ends the loop. *)
Fixpoint for_each {A B} (f : A -> result B) (l : list A) : result (list B) :=
  match l with
  | [] => Ok []
  | a :: l' => b ← f a; bs ← for_each f l'; Ok (b :: bs)
  end.

Definition is_Ok {A} (r : result A) : Prop :=
  match r with Ok _ => True | Raise _ => False end.

(** ** Floats as rationals *)

Definition Qlt_bool (a b : Q) : bool := negb (Qle_bool b a).

(** [a / b] *)
Definition truediv (a b : Q) : result Q :=
  if Qeq_bool b 0 then Raise ZeroDivisionError else Ok (a / b)%Q.

Definition Qmin_py (a b : Q) : Q := if Qlt_bool b a then b else a.
Definition Qmax_py (a b : Q) : Q := if Qlt_bool a b then b else a.

(** [round(q, 2)]: to the nearest hundredth, halves to the even one. *)
Definition round2 (q : Q) : Q :=
  let s := (q * 100)%Q in
  let f := Qfloor s in
  let r := (s - inject_Z f)%Q in
  let n := if Qlt_bool r (1 # 2) then f
           else if Qlt_bool (1 # 2) r then f + 1
           else if Z.even f then f else f + 1 in
  (inject_Z n / 100)%Q.

(** [sum(l)] *)
Definition Qsum (l : list Q) : Q := fold_left Qplus l 0%Q.

(** ** Python built-ins on sequences *)

Section Builtins.
Context {A : Type}.

(** [max(l, key=key)] on a non-empty [l]: the first maximal element. *)
Definition py_max_from {K} (lt : K -> K -> bool) (key : A -> K) (x : A) (l : list A) : A :=
  fold_left (fun best a => if lt (key best) (key a) then a else best) l x.

(** [min(l, key=key)] on a non-empty [l]: the first minimal element. *)
Definition py_min_from {K} (lt : K -> K -> bool) (key : A -> K) (x : A) (l : list A) : A :=
  fold_left (fun best a => if lt (key a) (key best) then a else best) l x.

(** [list.sort(key=...)] and [sorted]: a stable sort; [le] is the order
    on keys lifted to elements.  An element is inserted after every
    element that is not greater, so equal keys keep their input order. *)
Fixpoint insert_sorted (le : A -> A -> bool) (a : A) (l : list A) : list A :=
  match l with
  | [] => [a]
  | b :: l' => if le b a then b :: insert_sorted le a l' else a :: l
  end.

Definition py_sort (le : A -> A -> bool) (l : list A) : list A :=
  fold_left (fun acc a => insert_sorted le a acc) l [].

(** [l[:n]] for an [int] bound: a negative bound counts from the end. *)
Definition slice_to (n : Z) (l : list A) : list A :=
  if 0 <=? n then firstn (Z.to_nat n) l
  else firstn (length l - Z.to_nat (- n)) l.
End Builtins.

(** ** Python strings *)

Abbreviation str := (list N).

(** A string literal, code point by code point. *)
Definition lit (s : string) : str := map N_of_ascii (list_ascii_of_string s).

Local Open Scope N_scope.

Definition between (lo hi c : N) : bool := (lo <=? c) && (c <=? hi).

(** [str.isspace] on one code point, which is also what [\s] matches. *)
Definition is_space (c : N) : bool :=
  between 9 13 c || between 28 32 c || (c =? 133) || (c =? 160)
  || (c =? 5760) || between 8192 8202 c || (c =? 8232) || (c =? 8233)
  || (c =? 8239) || (c =? 8287) || (c =? 12288).

Definition is_upper_cp (c : N) : bool := between 65 90 c.
Definition is_lower_cp (c : N) : bool := between 97 122 c.
Definition is_alpha_cp (c : N) : bool := is_upper_cp c || is_lower_cp c.
Definition is_digit_cp (c : N) : bool := between 48 57 c.

Definition lower_cp (c : N) : N := if is_upper_cp c then c + 32 else c.

(** [s.lower()] *)
Definition lower (s : str) : str := map lower_cp s.

(** [s.isupper()]: some cased character, and no lowercase one. *)
Definition isupper (s : str) : bool :=
  existsb is_upper_cp s && negb (existsb is_lower_cp s).

(** [s.istitle()]: uppercase only after uncased characters, lowercase only
    after cased ones, and at least one cased character. *)
Fixpoint istitle_from (previous_is_cased cased : bool) (s : str) : bool :=
  match s with
  | [] => cased
  | c :: s' =>
      if is_upper_cp c then
        if previous_is_cased then false else istitle_from true true s'
      else if is_lower_cp c then
        if previous_is_cased then istitle_from true true s' else false
      else istitle_from false cased s'
  end.
Definition istitle (s : str) : bool := istitle_from false false s.

(** [s.isdigit()] *)
Definition isdigit (s : str) : bool :=
  match s with [] => false | _ => forallb is_digit_cp s end.

Fixpoint lstrip (s : str) : str :=
  match s with
  | c :: s' => if is_space c then lstrip s' else s
  | [] => []
  end.
Definition rstrip (s : str) : str := rev (lstrip (rev s)).

(** [s.strip()] *)
Definition strip (s : str) : str := rstrip (lstrip s).

(** [s.split()]: the maximal runs of non-space characters. *)
Fixpoint split_from (cur : str) (s : str) : list str :=
  match s with
  | [] => match cur with [] => [] | _ => [rev cur] end
  | c :: s' =>
      if is_space c then
        match cur with
        | [] => split_from [] s'
        | _ => rev cur :: split_from [] s'
        end
      else split_from (c :: cur) s'
  end.
Definition split (s : str) : list str := split_from [] s.

(** [s.split(sep)[0]] for a one-character separator. *)
Fixpoint before_first (sep : N) (s : str) : str :=
  match s with
  | [] => []
  | c :: s' => if c =? sep then [] else c :: before_first sep s'
  end.

(** [s.replace(c, '')] for a one-character [c]. *)
Definition remove_char (c : N) (s : str) : str :=
  List.filter (fun d => negb (d =? c)) s.

(** [s.startswith(p)] *)
Fixpoint startswith (p s : str) : bool :=
  match p, s with
  | [], _ => true
  | _ :: _, [] => false
  | a :: p', b :: s' => (a =? b) && startswith p' s'
  end.

(** [s.endswith(p)] *)
Definition endswith (p s : str) : bool := startswith (rev p) (rev s).

(** [p in s] *)
Fixpoint contains (p s : str) : bool :=
  startswith p s ||
  match s with
  | [] => false
  | _ :: s' => contains p s'
  end.

Definition str_eqb (a b : str) : bool :=
  (length a =? length b)%nat && startswith a b.

(** *** The regular expressions of the level classifier

    Every pattern is anchored at the start and its character classes are
    pairwise disjoint, so the greedy reading below is the only way it can
    match. *)

Fixpoint skip_while (p : N -> bool) (s : str) : str :=
  match s with
  | c :: s' => if p c then skip_while p s' else s
  | [] => []
  end.

(** One or more characters of class [p], then the rest. *)
Definition some_of (p : N -> bool) (s : str) : option str :=
  match s with
  | c :: s' => if p c then Some (skip_while p s') else None
  | [] => None
  end.

Definition opt_char (c : N) (s : str) : str :=
  match s with
  | d :: s' => if d =? c then s' else s
  | [] => []
  end.

(** [\s+] at the head of [s] *)
Definition some_space (s : str) : bool :=
  match s with c :: _ => is_space c | [] => false end.

Definition dot : N := 46.

(** [re.match(r'^[0-9]+\.?\s+', s)] *)
Definition re_numbered (s : str) : bool :=
  match some_of is_digit_cp s with
  | Some r => some_space (opt_char dot r)
  | None => false
  end.

(** [re.match(r'^[0-9]+\.[0-9]+\.?\s+', s)] *)
Definition re_numbered2 (s : str) : bool :=
  match some_of is_digit_cp s with
  | Some (c :: r) =>
      if c =? dot then
        match some_of is_digit_cp r with
        | Some r' => some_space (opt_char dot r')
        | None => false
        end
      else false
  | _ => false
  end.

(** [re.match(r'^[a-zA-Z][\)\.]\s+', s)] *)
Definition re_lettered (s : str) : bool :=
  match s with
  | a :: b :: r => is_alpha_cp a && ((b =? 41) || (b =? dot)) && some_space r
  | _ => false
  end.

(** [[ivxlc]] under [re.I]: either case, and the two dotted and dotless
    letters U+0130 and U+0131 that the flag equates with [i]. *)
Definition is_roman_cp (c : N) : bool :=
  existsb (N.eqb (lower_cp c)) (lit "ivxlc") || (c =? 304) || (c =? 305).

(** [re.match(r'^[ivxlc]+\.?\s+', s, re.I)] *)
Definition re_roman (s : str) : bool :=
  match some_of is_roman_cp s with
  | Some r => some_space (opt_char dot r)
  | None => false
  end.

Local Close Scope N_scope.

(** [collections.Counter(l)]: the counts, keyed in order of first
    occurrence ([eqb] is equality of keys). *)
Fixpoint counter_incr {K} (eqb : K -> K -> bool) (k : K) (c : list (K * nat)) : list (K * nat) :=
  match c with
  | [] => [(k, 1%nat)]
  | (k', n) :: c' =>
      if eqb k' k then (k', S n) :: c' else (k', n) :: counter_incr eqb k c'
  end.

Definition Counter {K} (eqb : K -> K -> bool) (l : list K) : list (K * nat) :=
  fold_left (fun c k => counter_incr eqb k c) l [].

(** [heapq.nlargest(n, l, key)]: for [n == 1] the first maximal element,
    otherwise the first [n] of [sorted(l, key=key, reverse=True)]. *)
Definition nlargest {A} (n : nat) (key : A -> nat) (l : list A) : list A :=
  match n, l with
  | 1%nat, x :: l' => [py_max_from Nat.ltb key x l']
  | _, _ => firstn n (py_sort (fun a b => Nat.leb (key b) (key a)) l)
  end.

(** [Counter.most_common(n)] *)
Definition most_common {K} (n : nat) (c : list (K * nat)) : list (K * nat) :=
  nlargest n snd c.

(** The heading levels ["H1"], ["H2"], ["H3"]. *)
Inductive heading_level := H1 | H2 | H3.

#[global] Instance level_eq_dec : EqDecision heading_level.
Proof. solve_decision. Defined.

Definition level_eqb (a b : heading_level) : bool := bool_decide (a = b).

(** ** The script-style analyzer ([src/main.py]) *)

Module Main.

Module Position.
Record t := mk { x : Q; y : Q; width : Q; height : Q }.
End Position.

(** A text block as [_extract_text_blocks] builds it. *)
Module Block.
Record t := mk {
  text : str;
  font_size : Q;
  font_name : str;
  is_bold : bool;
  page_number : Z;
  position : Position.t;
  bbox : list Q
}.
End Block.

Module Stats.
Record t := mk {
  average : Q;
  median : Q;
  min : Q;
  max : Q;
  most_common : Q
}.
End Stats.

(** The dictionary returned by [_analyze_font_styles].  On empty input
    ["font_size_stats"] is the empty dictionary ([None] here) and the
    keys ["total_unique_sizes"] and ["size_distribution"] are absent
    (zero and empty here; nothing reads them). *)
Module FontAnalysis.
Record t := mk {
  body_font_size : Q;
  body_font_name : str;
  common_font_sizes : list Q;
  font_size_stats : option Stats.t;
  total_unique_sizes : nat;
  size_distribution : list (Q * nat)
}.
End FontAnalysis.

Definition default_font_name : str := lit "default".

Definition _analyze_font_styles (text_blocks : list Block.t) : FontAnalysis.t :=
  match text_blocks with
  | [] =>
      FontAnalysis.mk 12 default_font_name [] None 0 []
  | _ =>
      let font_sizes := map Block.font_size text_blocks in
      let font_names := map Block.font_name text_blocks in
      let font_size_counts := Counter Qeq_bool font_sizes in
      let font_name_counts := Counter str_eqb font_names in
      let most_common_size :=
        match most_common 1 font_size_counts with
        | (size, _) :: _ => size
        | [] => 12%Q
        end in
      let most_common_font :=
        match most_common 1 font_name_counts with
        | (name, _) :: _ => name
        | [] => default_font_name
        end in
      let avg_font_size := (Qsum font_sizes / inject_Z (Z.of_nat (length font_sizes)))%Q in
      let median_font_size :=
        nth (length font_sizes / 2) (py_sort Qle_bool font_sizes) 0%Q in
      let common_sizes := map fst (most_common 5 font_size_counts) in
      let smallest := match font_sizes with s :: l => py_min_from Qlt_bool id s l | [] => 0%Q end in
      let largest := match font_sizes with s :: l => py_max_from Qlt_bool id s l | [] => 0%Q end in
      FontAnalysis.mk
        most_common_size
        most_common_font
        common_sizes
        (Some (Stats.mk (round2 avg_font_size) (round2 median_font_size)
                 smallest largest most_common_size))
        (length font_size_counts)
        (most_common 10 font_size_counts)
  end.

(** A heading candidate: a copy of the block with ["heading_score"] added. *)
Module Candidate.
Record t := mk {
  block : Block.t;
  heading_score : Q
}.
End Candidate.

Definition noise_patterns : list str :=
  [lit "figure"; lit "table"; lit "page"; lit "www."; lit "http"; lit "@";
   lit "copyright"; [169%N]; lit "et al."; lit "ibid"].

Definition sentence_endings : list str := [lit "."; lit "!"; lit "?"].

(** The order of the sort key [(page, y)]. *)
Definition key_le (k1 k2 : Z * Q) : bool :=
  (fst k1 <? fst k2) || ((fst k1 =? fst k2) && Qle_bool (snd k1) (snd k2)).

(** [is_potential_heading] *)
Definition is_potential_heading (body_font_size avg_font_size font_size : Q) (is_bold : bool) : bool :=
  let size_threshold :=
    Qmax_py (body_font_size * (11 # 10)) (avg_font_size * (105 # 100)) in
  Qlt_bool size_threshold font_size
  || (is_bold && Qle_bool (body_font_size * (9 # 10)) font_size)
  || Qlt_bool (avg_font_size * (13 # 10)) font_size.

(** The heading likelihood score of a block with stripped text [text],
    once [size_ratio] is known. *)
Definition heading_score_of (size_ratio : Q) (block : Block.t) (text : str) : Q :=
  let is_bold := Block.is_bold block in
  let word_count := length (split text) in
  let has_sentence_ending := existsb (fun e => endswith e text) sentence_endings in
  let is_all_caps := isupper text && (3 <? length text)%nat in
  let starts_with_number := isdigit (remove_char 32 (before_first dot text)) in
  let heading_score := 0%Q in
  let heading_score := (heading_score + Qmin_py 40 ((size_ratio - 1) * 20))%Q in
  let heading_score := if is_bold then (heading_score + 20)%Q else heading_score in
  let heading_score :=
    if (word_count <=? 8)%nat
    then (heading_score + (20 - inject_Z (Z.of_nat word_count) * 2))%Q
    else heading_score in
  let heading_score :=
    if Qlt_bool (Position.y (Block.position block)) 200
    then (heading_score + 10)%Q else heading_score in
  let heading_score :=
    if negb has_sentence_ending then (heading_score + 5)%Q else heading_score in
  let heading_score :=
    if is_all_caps && (length text <? 50)%nat
    then (heading_score + 10)%Q else heading_score in
  let heading_score :=
    if starts_with_number then (heading_score + 8)%Q else heading_score in
  heading_score.

Definition length_ok (text : str) : bool :=
  negb ((length text <? 3)%nat || (200 <? length text)%nat).

Definition has_noise (text : str) : bool :=
  existsb (fun pattern => contains pattern (lower text)) noise_patterns.

(** The body of the loop of [_filter_heading_candidates]: [Some c] when a
    candidate is appended, [None] when the block is skipped. *)
Definition filter_block (body_font_size avg_font_size : Q) (block : Block.t)
  : result (option Candidate.t) :=
  let text := strip (Block.text block) in
  let font_size := Block.font_size block in
  let is_bold := Block.is_bold block in
  if negb (length_ok text) then Ok None
  else if has_noise text then Ok None
  else if is_potential_heading body_font_size avg_font_size font_size is_bold then
    size_ratio ← truediv font_size body_font_size;
    let heading_score := heading_score_of size_ratio block text in
    if Qle_bool 25 heading_score
    then Ok (Some (Candidate.mk block (round2 heading_score)))
    else Ok None
  else Ok None.

Definition candidate_key (c : Candidate.t) : Z * Q :=
  (Block.page_number (Candidate.block c),
   Position.y (Block.position (Candidate.block c))).

Definition _filter_heading_candidates
  (text_blocks : list Block.t) (font_analysis : FontAnalysis.t)
  : result (list Candidate.t) :=
  let body_font_size := FontAnalysis.body_font_size font_analysis in
  match FontAnalysis.font_size_stats font_analysis with
  | None => Raise KeyError
  | Some stats =>
      let avg_font_size := Stats.average stats in
      appended ← for_each (filter_block body_font_size avg_font_size) text_blocks;
      let heading_candidates := omap id appended in
      Ok (py_sort (fun a b => key_le (candidate_key a) (candidate_key b))
            heading_candidates)
  end.

Module Scores.
Record t := mk { h1 : Z; h2 : Z; h3 : Z; final : Z }.
End Scores.

(** A classified heading.  The dictionaries built by
    [_classify_heading_levels] are mutable: [_refine_heading_hierarchy]
    assigns to ["level"] in place. *)
Module Heading.
Record t := mk {
  level : heading_level;
  text : str;
  page : Z;
  position : Position.t;
  font_size : Q;
  is_bold : bool;
  heading_score : Q;
  size_ratio : Q;
  classification_scores : Scores.t
}.

(** [heading["level"] = l] *)
Definition set_level (l : heading_level) (h : t) : t :=
  mk l (text h) (page h) (position h) (font_size h) (is_bold h)
     (heading_score h) (size_ratio h) (classification_scores h).
End Heading.

Definition h1_patterns : list str :=
  map lit
    ["abstract"; "introduction"; "conclusion"; "summary"; "overview";
     "background"; "methodology"; "results"; "discussion"; "references";
     "about"; "experience"; "education"; "skills"; "projects"; "contact";
     "objective"; "profile"; "qualifications"; "achievements"; "awards"]%string.

Definition h2_patterns : list str :=
  map lit
    ["work experience"; "employment history"; "professional experience";
     "technical skills"; "core competencies"; "key skills"; "expertise";
     "certifications"; "publications"; "research"; "languages";
     "extracurricular"; "activities"; "volunteering"; "interests";
     "tools"; "technologies"; "software"; "platforms"]%string.

Definition h3_patterns : list str :=
  map lit
    ["programming languages"; "frameworks"; "databases"; "operating systems";
     "web technologies"; "mobile development"; "cloud platforms";
     "project management"; "soft skills"; "leadership"; "communication"]%string.

Definition title_indicators : list str :=
  map lit
    ["university"; "college"; "institute"; "company"; "corporation";
     "ltd"; "inc"; "llc"; "technologies"; "systems"; "solutions"]%string.

(** The three running scores [(h1_score, h2_score, h3_score)]. *)
Definition tally : Type := Z * Z * Z.

Definition add (d1 d2 d3 : Z) (s : tally) : tally :=
  let '(a, b, c) := s in (a + d1, b + d2, c + d3).

(** [for pattern in patterns: if pattern in text_lower: ... += ...] *)
Definition add_matches (d1 d2 d3 : Z) (patterns : list str) (text_lower : str) (s : tally) : tally :=
  fold_left (fun s pattern => if contains pattern text_lower then add d1 d2 d3 s else s)
    patterns s.

(** The scores of one candidate, from the text patterns down to the
    institution keywords. *)
Definition level_scores (text : str) (is_bold : bool) (position_y size_ratio : Q) : tally :=
  let s : tally := (0, 0, 0) in
  let text_lower := lower text in
  let text_length := length text in
  let word_count := length (split text) in
  let s := add_matches 25 0 0 h1_patterns text_lower s in
  let s := add_matches 0 20 0 h2_patterns text_lower s in
  let s := add_matches 0 0 15 h3_patterns text_lower s in
  let s :=
    if Qlt_bool position_y 150 then add 20 0 0 s
    else if Qlt_bool position_y 300 then add 10 15 0 s
    else if Qlt_bool position_y 500 then add 0 10 5 s
    else add 0 0 10 s in
  let s :=
    if (word_count =? 1)%nat then add 15 10 0 s
    else if (word_count <=? 3)%nat then add 10 15 5 s
    else if (word_count <=? 6)%nat then add 0 10 10 s
    else add 0 0 5 s in
  let s :=
    if Qle_bool 2 size_ratio then add 20 0 0 s
    else if Qle_bool (16 # 10) size_ratio then add 15 10 0 s
    else if Qle_bool (13 # 10) size_ratio then add 5 15 5 s
    else if Qle_bool (11 # 10) size_ratio then add 0 10 10 s
    else add 0 0 15 s in
  let s := if is_bold then add 15 15 10 s else s in
  let s := if isupper text && (2 <? text_length)%nat then add 20 10 0 s else s in
  let s :=
    if re_numbered text then add 15 20 0 s
    else if re_numbered2 text then add 0 25 10 s
    else if re_lettered text then add 0 15 20 s
    else if re_roman text then add 0 10 15 s
    else s in
  let s :=
    if contains (lit ":") text && negb (endswith (lit ":") text) then add 0 10 15 s
    else if endswith (lit ":") text then add 10 20 0 s
    else s in
  let s :=
    if existsb (fun indicator => contains indicator text_lower) title_indicators
    then add 0 15 10 s else s in
  s.

(** The fallback "if scores are too low or tied". *)
Definition fallback_level (size_ratio : Q) (is_bold : bool) (word_count : nat) : heading_level :=
  if Qle_bool (15 # 10) size_ratio || (is_bold && (word_count <=? 2)%nat) then H1
  else if Qle_bool (12 # 10) size_ratio || (is_bold && (word_count <=? 4)%nat) then H2
  else H3.

(** The final classification. *)
Definition final_level (h1_score h2_score h3_score : Z)
  (size_ratio : Q) (is_bold : bool) (word_count : nat) : heading_level :=
  let max_score := Z.max (Z.max h1_score h2_score) h3_score in
  if (max_score =? h1_score) && (25 <=? h1_score) then H1
  else if (max_score =? h2_score) && (20 <=? h2_score) then H2
  else if (max_score =? h3_score) && (15 <=? h3_score) then H3
  else fallback_level size_ratio is_bold word_count.

(** The body of the loop of [_classify_heading_levels]. *)
Definition classify_block (body_font_size : Q) (c : Candidate.t) : result Heading.t :=
  let block := Candidate.block c in
  let text := strip (Block.text block) in
  let font_size := Block.font_size block in
  let is_bold := Block.is_bold block in
  let position_y := Position.y (Block.position block) in
  let heading_score := Candidate.heading_score c in
  let word_count := length (split text) in
  size_ratio ← truediv font_size body_font_size;
  let '(h1_score, h2_score, h3_score) := level_scores text is_bold position_y size_ratio in
  let max_score := Z.max (Z.max h1_score h2_score) h3_score in
  let level := final_level h1_score h2_score h3_score size_ratio is_bold word_count in
  Ok (Heading.mk level text (Block.page_number block) (Block.position block)
        font_size is_bold heading_score (round2 size_ratio)
        (Scores.mk h1_score h2_score h3_score max_score)).

(** *** The hierarchy refiner

    [headings] is a list of references to mutable dictionaries.  The store
    holds the dictionaries, one per position of [headings] (the classifier
    builds a fresh dictionary for every heading, so no two positions
    share one); [refined_headings] collects references, and the returned
    list is read through the store as the loop leaves it. *)

Definition refine_step (n : nat) (st : list Heading.t * list nat) (i : nat)
  : list Heading.t * list nat :=
  let '(headings, refined_headings) := st in
  match headings !! i with
  | None => st
  | Some heading =>
      let current_level := Heading.level heading in
      let prev_heading := if (0 <? i)%nat then headings !! (i - 1)%nat else None in
      let next_heading := if (i <? n - 1)%nat then headings !! (i + 1)%nat else None in
      let headings :=
        match prev_heading, next_heading with
        | Some prev, Some next =>
            let prev_level := Heading.level prev in
            let next_level := Heading.level next in
            let scores := Heading.classification_scores heading in
            if level_eqb current_level H1 && level_eqb prev_level H3
               && level_eqb next_level H3 then
              if 15 <=? Scores.h2 scores
              then <[i := Heading.set_level H2 heading]> headings
              else headings
            else if level_eqb current_level H3 && level_eqb prev_level H2
                    && level_eqb next_level H2 then
              if Scores.h3 scores <=? Scores.h2 scores
              then <[i := Heading.set_level H2 heading]> headings
              else headings
            else headings
        | _, _ => headings
        end in
      (headings, refined_headings ++ [i])
  end.

Definition _refine_heading_hierarchy (headings : list Heading.t) : list Heading.t :=
  if (length headings <=? 1)%nat then headings
  else
    let '(store, refined_headings) :=
      fold_left (refine_step (length headings)) (seq 0 (length headings)) (headings, []) in
    omap (fun r => store !! r) refined_headings.

Definition heading_key (h : Heading.t) : Z * Q :=
  (Heading.page h, Position.y (Heading.position h)).

Definition _classify_heading_levels
  (heading_candidates : list Candidate.t) (font_analysis : FontAnalysis.t)
  : result (list Heading.t) :=
  match heading_candidates with
  | [] => Ok []
  | _ =>
      let body_font_size := FontAnalysis.body_font_size font_analysis in
      classified_headings ← for_each (classify_block body_font_size) heading_candidates;
      let classified_headings :=
        py_sort (fun a b => key_le (heading_key a) (heading_key b)) classified_headings in
      Ok (_refine_heading_hierarchy classified_headings)
  end.

(** *** The title selector *)

Definition untitled : str := lit "Untitled Document".

(** The patterns of "obvious non-titles". *)
Definition non_title_patterns : list str :=
  [lit "page"; lit "figure"; lit "table"; lit "abstract"; lit "introduction";
   lit "www."; lit "http"; lit "@"; lit "copyright"; [169%N]].

Definition title_length_ok (text : str) : bool :=
  negb ((length text <? 5)%nat || (150 <? length text)%nat).

Definition title_score (block : Block.t) (text : str) : Q :=
  let font_size := Block.font_size block in
  let is_bold := Block.is_bold block in
  let page_num := Block.page_number block in
  let y_position := Position.y (Block.position block) in
  let title_score := 0%Q in
  let title_score := (title_score + Qmin_py 40 (font_size * 2))%Q in
  let title_score := if is_bold then (title_score + 20)%Q else title_score in
  let title_score :=
    if page_num =? 1 then (title_score + 20)%Q
    else if page_num =? 2 then (title_score + 10)%Q
    else title_score in
  let title_score :=
    if Qlt_bool y_position 200 then (title_score + 15)%Q
    else if Qlt_bool y_position 400 then (title_score + 10)%Q
    else title_score in
  let word_count := Z.of_nat (length (split text)) in
  let title_score :=
    if (2 <=? word_count) && (word_count <=? 12)
    then (title_score + inject_Z (15 - Z.abs (word_count - 6)))%Q
    else title_score in
  let title_score :=
    if negb (endswith (lit ".") text)
       && negb (startswith (lit "Fig") text || startswith (lit "Table") text)
    then (title_score + 10)%Q else title_score in
  title_score.

(** The body of the scoring loop, over the state [(best_title, best_score)];
    [patterns] is the list of rejected substrings. *)
Definition title_step (patterns : list str) (st : str * Q) (block : Block.t) : str * Q :=
  let '(best_title, best_score) := st in
  let text := strip (Block.text block) in
  if negb (title_length_ok text) then st
  else if existsb (fun pattern => contains pattern (lower text)) patterns then st
  else
    let title_score := title_score block text in
    if Qlt_bool best_score title_score then (text, title_score) else st.

Definition largest_text_blocks (title_candidates : list Block.t) : list Block.t :=
  match map Block.font_size title_candidates with
  | [] => []
  | s :: sizes =>
      let max_font_size := py_max_from Qlt_bool id s sizes in
      List.filter (fun block => Qle_bool (max_font_size * (95 # 100)) (Block.font_size block))
        title_candidates
  end.

Definition identify_title_with (patterns : list str) (text_blocks : list Block.t) : str :=
  match text_blocks with
  | [] => untitled
  | _ =>
      let title_candidates :=
        List.filter (fun block => Block.page_number block <=? 2) text_blocks in
      match title_candidates with
      | [] => untitled
      | _ =>
          let largest := largest_text_blocks title_candidates in
          let '(best_title, best_score) :=
            fold_left (title_step patterns) largest ([], 0%Q) in
          let best_title :=
            match best_title, largest with
            | [], first :: _ => strip (Block.text first)
            | _, _ => best_title
            end in
          match best_title with
          | [] => untitled
          | _ => best_title
          end
      end
  end.

Definition _identify_document_title : list Block.t -> str :=
  identify_title_with non_title_patterns.

(** *** The outline *)

(** An entry of ["headings"]: level, text, page and the [(x, y)] position. *)
Module Entry.
Record t := mk {
  level : heading_level;
  text : str;
  page : Z;
  position : Q * Q
}.
End Entry.

Module Metadata.
Record t := mk {
  font_analysis : FontAnalysis.t;
  total_candidates : nat;
  final_heading_count : nat
}.
End Metadata.

Module Outline.
Record t := mk {
  title : str;
  headings : list Entry.t;
  analysis_metadata : option Metadata.t
}.
End Outline.

Definition final_heading (heading : Heading.t) : Entry.t :=
  Entry.mk (Heading.level heading) (Heading.text heading) (Heading.page heading)
    (Position.x (Heading.position heading), Position.y (Heading.position heading)).

Definition _extract_headings_from_blocks (text_blocks : list Block.t) : result Outline.t :=
  match text_blocks with
  | [] => Ok (Outline.mk [] [] None)
  | _ =>
      let font_analysis := _analyze_font_styles text_blocks in
      heading_candidates ← _filter_heading_candidates text_blocks font_analysis;
      classified_headings ← _classify_heading_levels heading_candidates font_analysis;
      let document_title := _identify_document_title text_blocks in
      let final_headings := map final_heading (firstn 20 classified_headings) in
      Ok (Outline.mk document_title final_headings
            (Some (Metadata.mk font_analysis (length heading_candidates)
                     (length final_headings))))
  end.

Definition error_title : str := lit "Error - Could not process document".

(** [analyze_pdf_structure] from step 4 on: the ["structural_outline"] of
    the result; any exception is caught and an error result returned
    ([_create_error_result]). *)
Definition structural_outline (text_blocks : list Block.t) : Outline.t :=
  match _extract_headings_from_blocks text_blocks with
  | Ok outline => outline
  | Raise _ => Outline.mk error_title [] None
  end.

(** [_create_final_json_output]: the written JSON, ["title"] and ["outline"]. *)
Definition _create_final_json_output (title : str) (headings : list Entry.t)
  : str * list (heading_level * str * Z) :=
  (title, map (fun heading => (Entry.level heading, Entry.text heading, Entry.page heading))
            headings).

(** *** Reading the document *)

(** The dictionaries of [page.get_text("dict")]: a page has blocks, a text
    block has lines (an image block has no ["lines"]), a line has spans.
    A span has its text; its font, size, flags and bounding box are read
    with [get] and a default. *)
Module Span.
Record t := mk {
  text : str;
  font : option str;
  size : option Q;
  flags : option Z;
  bbox : option (list Q)
}.
End Span.

Module Line.
Record t := mk { spans : list Span.t }.
End Line.

Module PageBlock.
Record t := mk { lines : option (list Line.t) }.
End PageBlock.

Module Page.
Record t := mk { blocks : list PageBlock.t }.
End Page.

(** The body of the innermost loop of [_extract_text_blocks] on page
    [page_num] (from 0): [Some None] when the span is skipped,
    [Some (Some b)] when [b] is appended, and [None] when an exception is
    raised: [bbox[i]] on a bounding box with fewer than four
    coordinates. *)
Definition text_block_of (page_num : nat) (span : Span.t) : option (option Block.t) :=
  let text_content := strip (Span.text span) in
  match text_content with
  | [] => Some None
  | _ =>
      let font_name := default [] (Span.font span) in
      let font_size := default 0%Q (Span.size span) in
      let font_flags := default 0 (Span.flags span) in
      let is_bold := negb (Z.land font_flags 16 =? 0) in
      let bbox := default [0%Q; 0%Q; 0%Q; 0%Q] (Span.bbox span) in
      x0 ← bbox !! 0%nat;
      y0 ← bbox !! 1%nat;
      x1 ← bbox !! 2%nat;
      y1 ← bbox !! 3%nat;
      Some (Some (Block.mk text_content (round2 font_size) font_name is_bold
                    (Z.of_nat page_num + 1)
                    (Position.mk (round2 x0) (round2 y0)
                       (round2 (x1 - x0)) (round2 (y1 - y0)))
                    (map round2 bbox)))
  end.

(** The loops over the spans of a line, the lines of a block and the
    blocks of a page. *)
Definition line_text_blocks (page_num : nat) (line : Line.t) : option (list Block.t) :=
  appended ← mapM (text_block_of page_num) (Line.spans line);
  Some (omap id appended).

Definition block_text_blocks (page_num : nat) (block : PageBlock.t) : option (list Block.t) :=
  match PageBlock.lines block with
  | None => Some []
  | Some lines =>
      per_line ← mapM (line_text_blocks page_num) lines;
      Some (concat per_line)
  end.

Definition page_text_blocks (page_num : nat) (page : Page.t) : option (list Block.t) :=
  per_block ← mapM (block_text_blocks page_num) (Page.blocks page);
  Some (concat per_block).

(** [_extract_text_blocks]: the blocks appended page after page; on an
    exception the blocks gathered so far are dropped and [[]] is
    returned. *)
Definition _extract_text_blocks (doc : list Page.t) : list Block.t :=
  match mapM (fun '(page_num, page) => page_text_blocks page_num page) (imap pair doc) with
  | Some per_page => concat per_page
  | None => []
  end.

(** [_extract_document_title]: [metadata_title] is
    [doc.metadata.get('title')], absent when the document has no metadata
    or no title.  The loop over the spans of the first page keeps
    [(largest_text, largest_size)]. *)
Definition largest_text_step (st : str * Q) (span : Span.t) : str * Q :=
  let '(largest_text, largest_size) := st in
  let text := strip (Span.text span) in
  let size := default 0%Q (Span.size span) in
  if Qlt_bool largest_size size && (5 <? length text)%nat && (length text <? 100)%nat
  then (text, size)
  else st.

Definition first_page_title (doc : list Page.t) : str :=
  match doc with
  | [] => untitled
  | first_page :: _ =>
      let '(largest_text, _) :=
        fold_left
          (fun st block =>
             match PageBlock.lines block with
             | None => st
             | Some lines =>
                 fold_left
                   (fun st line => fold_left largest_text_step (Line.spans line) st)
                   lines st
             end)
          (Page.blocks first_page) ([], 0%Q) in
      match largest_text with
      | [] => untitled
      | _ => largest_text
      end
  end.

Definition _extract_document_title (metadata_title : option str) (doc : list Page.t) : str :=
  match metadata_title with
  | Some title =>
      match title, strip title with
      | _ :: _, _ :: _ => strip title
      | _, _ => first_page_title doc
      end
  | None => first_page_title doc
  end.

(** *** The analysis of a file and the batch *)

(** The result of [analyze_pdf_structure], without the file name, the
    timestamp (always [None]) and the text of the error message:
    ["document_info"] gives [total_pages] and [title], [error] tells that
    the result comes from [_create_error_result], and
    ["text_blocks_summary"] gives [total_blocks] and [sample_blocks]. *)
Module Analysis.
Record t := mk {
  total_pages : nat;
  title : str;
  structural_outline : Outline.t;
  error : bool;
  total_blocks : nat;
  sample_blocks : list Block.t
}.
End Analysis.

Definition _create_error_result : Analysis.t :=
  Analysis.mk 0 error_title (Outline.mk error_title [] None) true 0 [].

(** [analyze_pdf_structure] on a file that [fitz.open] opens as [doc]
    ([Some doc]) or on which it raises ([None]). *)
Definition analyze_pdf_structure (opened : option (list Page.t)) : Analysis.t :=
  match opened with
  | None => _create_error_result
  | Some doc =>
      let text_blocks := _extract_text_blocks doc in
      match _extract_headings_from_blocks text_blocks with
      | Raise _ => _create_error_result
      | Ok structural_outline =>
          let final_title := Outline.title structural_outline in
          Analysis.mk (length doc) final_title structural_outline false
            (length text_blocks) (firstn 5 text_blocks)
      end
  end.

(** A file of the input directory: what [fitz.open] makes of it, and
    whether the JSON file of its result can be written. *)
Module File.
Record t := mk {
  opened : option (list Page.t);
  writable : bool
}.
End File.

(** [save_result]: the JSON written, or [None] when writing raises and
    [False] is returned. *)
Definition save_result (result : Analysis.t) (writable : bool)
  : option (str * list (heading_level * str * Z)) :=
  let structural_outline := Analysis.structural_outline result in
  let title := Outline.title structural_outline in
  let headings := Outline.headings structural_outline in
  let final_json_output := _create_final_json_output title headings in
  if writable then Some final_json_output else None.

(** [round(q, 1)]. *)
Definition round1 (q : Q) : Q :=
  let s := (q * 10)%Q in
  let f := Qfloor s in
  let r := (s - inject_Z f)%Q in
  let n := if Qlt_bool r (1 # 2) then f
           else if Qlt_bool (1 # 2) r then f + 1
           else if Z.even f then f else f + 1 in
  (inject_Z n / 10)%Q.

Module Summary.
Record t := mk {
  total_files : nat;
  processed : nat;
  errors : nat;
  success_rate : option Q
}.
End Summary.

(** The loop of [process_all_pdfs] over the state
    [(processed_count, error_count)], with the JSON files written. *)
Definition process_step
  (st : nat * nat * list (str * list (heading_level * str * Z))) (pdf_file : File.t)
  : nat * nat * list (str * list (heading_level * str * Z)) :=
  let '(processed_count, error_count, written) := st in
  let result := analyze_pdf_structure (File.opened pdf_file) in
  match save_result result (File.writable pdf_file) with
  | Some json => (S processed_count, error_count, written ++ [json])
  | None => (processed_count, S error_count, written)
  end.

Definition process_all_pdfs (pdf_files : list File.t)
  : Summary.t * list (str * list (heading_level * str * Z)) :=
  match pdf_files with
  | [] => (Summary.mk 0 0 0 None, [])
  | _ =>
      let '(processed_count, error_count, written) :=
        fold_left process_step pdf_files (0%nat, 0%nat, []) in
      (Summary.mk (length pdf_files) processed_count error_count
         (Some (round1 (inject_Z (Z.of_nat processed_count)
                        / inject_Z (Z.of_nat (length pdf_files)) * 100))),
       written)
  end.

(** The exit status of [main]. *)
Definition main (pdf_files : list File.t) : Z :=
  let summary := fst (process_all_pdfs pdf_files) in
  if (0 <? Summary.errors summary)%nat then 1 else 0.

End Main.

(** ** The module-style analyzer ([docudots_module/core.py]) *)

Module Core.

(** [Config]: the options the analyzer reads.  Every option comes from an
    environment variable, so it can be any integer. *)
Module Config.
Record t := mk {
  MAX_HEADINGS_PER_DOCUMENT : Z;
  HEADING_SCORE_THRESHOLD : Z
}.
(** The values with no environment variable set. *)
Definition default : t := mk 50 25.
End Config.

(** A text block as [_analyze_pdf_structure] builds it; pages count from 0. *)
Module Block.
Record t := mk {
  text : str;
  page : Z;
  font_size : Q;
  font_flags : Z;
  bbox : list Q
}.
End Block.

Module Candidate.
Record t := mk {
  level : heading_level;
  text : str;
  page : Z;
  font_size : Q;
  size_ratio : Q;
  is_bold : bool
}.
End Candidate.

Definition untitled : str := lit "Untitled Document".

(** [size_counts]: a dictionary, keyed in insertion order. *)
Definition size_counts (font_sizes : list Q) : list (Q * nat) :=
  fold_left (fun counts size => counter_incr Qeq_bool size counts) font_sizes [].

(** [max(size_counts, key=size_counts.get)] *)
Definition body_text_size (font_sizes : list Q) : Q :=
  match size_counts font_sizes with
  | [] => 0%Q
  | item :: items => fst (py_max_from Nat.ltb snd item items)
  end.

(** The body of the candidate loop. *)
Definition heading_of (title : str) (body_text_size : Q) (block : Block.t)
  : result (option Candidate.t) :=
  if str_eqb (Block.text block) title then Ok None
  else
    size_ratio ← truediv (Block.font_size block) body_text_size;
    let is_bold := negb (Z.land (Block.font_flags block) (2 ^ 4) =? 0) in
    let text := strip (Block.text block) in
    let is_short := (length (split text) <=? 8)%nat in
    let is_capitalized := isupper text || istitle text in
    let heading l :=
      Ok (Some (Candidate.mk l text (Block.page block) (Block.font_size block)
                  size_ratio is_bold)) in
    if Qle_bool (15 # 10) size_ratio || (Qle_bool (12 # 10) size_ratio && is_bold)
    then heading H1
    else if Qle_bool (115 # 100) size_ratio
            || (Qle_bool (105 # 100) size_ratio && is_bold)
            || (is_capitalized && is_short)
    then heading H2
    else if is_bold && is_short && Qle_bool (95 # 100) size_ratio
    then heading H3
    else Ok None.

(** The order of the sort key [(page, -font_size)]. *)
Definition key_le (k1 k2 : Z * Q) : bool :=
  (fst k1 <? fst k2) || ((fst k1 =? fst k2) && Qle_bool (snd k1) (snd k2)).

Definition candidate_key (c : Candidate.t) : Z * Q :=
  (Candidate.page c, (- Candidate.font_size c)%Q).

Definition _identify_headings (config : Config.t) (blocks : list Block.t)
  : result (str * list (heading_level * str * Z)) :=
  match blocks with
  | [] => Ok (untitled, [])
  | _ =>
      let font_sizes := map Block.font_size blocks in
      let body_text_size := body_text_size font_sizes in
      let first_page_blocks := List.filter (fun b => Block.page b =? 0) blocks in
      let title :=
        match first_page_blocks with
        | b :: bs => Block.text (py_max_from Qlt_bool Block.font_size b bs)
        | [] => untitled
        end in
      appended ← for_each (heading_of title body_text_size) blocks;
      let heading_candidates := omap id appended in
      let heading_candidates :=
        py_sort (fun a b => key_le (candidate_key a) (candidate_key b)) heading_candidates in
      let max_headings := Config.MAX_HEADINGS_PER_DOCUMENT config in
      let final_headings := slice_to max_headings heading_candidates in
      Ok (title,
          map (fun heading =>
                 (Candidate.level heading, Candidate.text heading, Candidate.page heading))
            final_headings)
  end.

(** *** The batch ([analyze_multiple_pdfs])

    [analyze_pdf] returns a result or raises; so does [_save_json_output]
    when an output directory is given.  [name] is [Path(pdf_path).name],
    the key of the file in ["results"]. *)

(** [d[k] = v] on a dictionary, keyed in insertion order. *)
Fixpoint dict_set {V} (k : str) (v : V) (d : list (str * V)) : list (str * V) :=
  match d with
  | [] => [(k, v)]
  | (k', v') :: d' =>
      if str_eqb k' k then (k', v) :: d' else (k', v') :: dict_set k v d'
  end.

Module BatchResult.
Record t {R X : Type} := mk {
  total_files : nat;
  processed : nat;
  errors : nat;
  success_rate : Q;
  results : list (str * R);
  error_details : list (str * X)
}.
Arguments t : clear implicits.
Arguments mk {R X}.
End BatchResult.

Section Batch.
Context {P R X : Type}.
Variable name : P -> str.
Variable analyze_pdf : P -> R + X.
Variable output_dir : bool.
Variable _save_json_output : P -> R -> option X.

(** The body of the loop, on the dictionary [results]. *)
Definition batch_step (results : BatchResult.t R X) (pdf_path : P) : BatchResult.t R X :=
  let failed (e : X) :=
    BatchResult.mk
      (BatchResult.total_files results)
      (BatchResult.processed results)
      (BatchResult.errors results + 1)
      (BatchResult.success_rate results)
      (BatchResult.results results)
      (BatchResult.error_details results ++ [(name pdf_path, e)]) in
  match analyze_pdf pdf_path with
  | inr e => failed e
  | inl result =>
      match (if output_dir then _save_json_output pdf_path result else None) with
      | Some e => failed e
      | None =>
          BatchResult.mk
            (BatchResult.total_files results)
            (BatchResult.processed results + 1)
            (BatchResult.errors results)
            (BatchResult.success_rate results)
            (dict_set (name pdf_path) result (BatchResult.results results))
            (BatchResult.error_details results)
      end
  end.

Definition analyze_multiple_pdfs (pdf_paths : list P) : result (BatchResult.t R X) :=
  let results := BatchResult.mk (length pdf_paths) 0 0 0%Q [] [] in
  let results := fold_left batch_step pdf_paths results in
  rate ← truediv (inject_Z (Z.of_nat (BatchResult.processed results)))
                 (inject_Z (Z.of_nat (BatchResult.total_files results)));
  Ok (BatchResult.mk
        (BatchResult.total_files results)
        (BatchResult.processed results)
        (BatchResult.errors results)
        (rate * 100)%Q
        (BatchResult.results results)
        (BatchResult.error_details results)).
End Batch.

End Core.

(** ** The text normalizers *)

(** The script names the detectors return. *)
Inductive script_name :=
| latin | cyrillic | arabic | chinese | japanese_hiragana | japanese_katakana
| korean | thai | devanagari | hebrew | japanese | hindi | unknown.

#[global] Instance script_name_eq_dec : EqDecision script_name.
Proof. solve_decision. Defined.

(** [re.sub(r'\s+', ' ', s)]: every maximal run of spaces becomes one
    [' ']; [in_run] tells that the previous character was a space. *)
Fixpoint collapse_from (in_run : bool) (s : str) : str :=
  match s with
  | [] => []
  | c :: s' =>
      if is_space c
      then if in_run then collapse_from true s' else 32%N :: collapse_from true s'
      else c :: collapse_from false s'
  end.
Definition collapse_spaces (s : str) : str := collapse_from false s.

(** The class [[\u064B-\u065F\u0670\u06D6-\u06ED]]. *)
Definition is_arabic_diacritic (c : N) : bool :=
  (between 1611 1631 c || (c =? 1648) || between 1750 1773 c)%N.

(** [src/utils/multilingual.py], class [MultilingualSupport]. *)
Module MultilingualSupport.

Definition script_patterns : list (script_name * (N -> bool)) :=
  [(latin, is_alpha_cp);
   (cyrillic, between 1024 1279);
   (arabic, between 1536 1791);
   (chinese, between 19968 40959);
   (japanese_hiragana, between 12352 12447);
   (japanese_katakana, between 12448 12543);
   (korean, between 44032 55215);
   (thai, between 3584 3711);
   (devanagari, between 2304 2431)]%N.

Definition detect_script (text : str) : script_name :=
  match text with
  | [] => unknown
  | _ =>
      let script_counts :=
        omap (fun '(script, pattern) =>
                let matches := length (List.filter pattern text) in
                if (0 <? matches)%nat then Some (script, matches) else None)
          script_patterns in
      match script_counts with
      | [] => unknown
      | item :: items => fst (py_max_from Nat.ltb snd item items)
      end
  end.

Section Unicode.
(** [unicodedata.normalize('NFC', _)] *)
Variable NFC : str -> str.

(** The text as it stands when the script is detected. *)
Definition prepared (text : str) : str :=
  strip (collapse_spaces (NFC text)).

Definition normalize_text (text : str) : str :=
  match text with
  | [] => []
  | _ =>
      let text := NFC text in
      let text := collapse_spaces text in
      let text := strip text in
      if bool_decide (detect_script text = arabic)
      then List.filter (fun c => negb (is_arabic_diacritic c)) text
      else text
  end.
End Unicode.

End MultilingualSupport.

(** [docudots_module/multilingual.py], class [MultilingualProcessor]. *)
Module MultilingualProcessor.

(** Every pattern is searched with [re.IGNORECASE].  [[A-Za-z]] then also
    matches the four letters that case-fold into it: U+0130, U+0131,
    U+017F and U+212A.  The other classes are taken as their ranges: their
    scripts have no case, or case pairs that stay inside the range. *)
Definition is_latin_ignorecase (c : N) : bool :=
  (is_alpha_cp c || (c =? 304) || (c =? 305) || (c =? 383) || (c =? 8490))%N.

Definition script_patterns : list (script_name * (N -> bool)) :=
  [(latin, is_latin_ignorecase);
   (cyrillic, between 1024 1279);
   (arabic, between 1536 1791);
   (chinese, between 19968 40959);
   (japanese_hiragana, between 12352 12447);
   (japanese_katakana, between 12448 12543);
   (korean, between 44032 55215);
   (devanagari, between 2304 2431);
   (thai, between 3584 3711);
   (hebrew, between 1424 1535)]%N.

Definition script_to_language (s : script_name) : script_name :=
  match s with
  | japanese_hiragana | japanese_katakana => japanese
  | devanagari => hindi
  | s => s
  end.

Definition detect_script (text : str) : script_name :=
  match text with
  | [] => unknown
  | _ =>
      let text_length := length text in
      let script_scores :=
        map (fun '(script_name, pattern) =>
               let matches := length (List.filter pattern text) in
               (script_name,
                (inject_Z (Z.of_nat matches) / inject_Z (Z.of_nat text_length))%Q))
          script_patterns in
      match script_scores with
      | [] => unknown
      | item :: items =>
          script_to_language (fst (py_max_from Qlt_bool snd item items))
      end
  end.

(** [_normalize_width] *)
Definition _normalize_width (text : str) : str :=
  map (fun code => if between 65281 65374 code then (code - 65248)%N else code) text.

Section Unicode.
(** [unicodedata.normalize('NFKC', _)], [unicodedata.normalize('NFD', _)]
    and the test [unicodedata.category(c) == 'Mn']. *)
Variable NFKC NFD : str -> str.
Variable is_Mn : N -> bool.

Definition _remove_diacritics (text : str) : str :=
  List.filter (fun char => negb (is_Mn char)) (NFD text).

(** The text as it stands when the script is detected. *)
Definition prepared (text : str) : str :=
  strip (collapse_spaces (NFKC text)).

Definition normalize_text (text : str) : str :=
  match text with
  | [] => text
  | _ =>
      let normalized := NFKC text in
      let normalized := strip (collapse_spaces normalized) in
      let script := detect_script normalized in
      if bool_decide (script = arabic) || bool_decide (script = hebrew)
      then _remove_diacritics normalized
      else if bool_decide (script = chinese) || bool_decide (script = japanese)
      then _normalize_width normalized
      else normalized
  end.
End Unicode.

End MultilingualProcessor.

(** ** Retrying ([docudots_module/retry.py]) *)

Module Retry.

(** What a call of the wrapped function does, and what a call of the
    wrapper does: [raise last_exception] is a [TypeError] when no
    exception was caught, [time.sleep] raises [ValueError] on a negative
    wait, and the circuit breaker raises [CircuitBreakerOpenError]
    without calling the function. *)
Inductive outcome (A E : Type) :=
| Returns (a : A)
| Throws (e : E).
Arguments Returns {A E}.
Arguments Throws {A E}.

Inductive wrapped (A E : Type) :=
| Returned (a : A)
| Raised (e : E)
| TypeError
| ValueError
| CircuitBreakerOpenError.
Arguments Returned {A E}.
Arguments Raised {A E}.
Arguments TypeError {A E}.
Arguments ValueError {A E}.
Arguments CircuitBreakerOpenError {A E}.

(** The run of a wrapper: its outcome, the waits passed to [time.sleep]
    in order, and the number of calls of the wrapped function. *)
Module Run.
Record t {A E : Type} := mk {
  result : wrapped A E;
  sleeps : list Q;
  calls : nat
}.
Arguments t : clear implicits.
Arguments mk {A E}.
End Run.

Section WithRetry.
Context {A E : Type}.
Variable max_attempts : Z.
Variable delay backoff : Q.
(** [isinstance(e, exceptions)] *)
Variable exceptions : E -> bool.
(** The outcome of the call of the wrapped function in each attempt. *)
Variable func : nat -> outcome A E.

Definition raise_last (last_exception : option E) : wrapped A E :=
  match last_exception with
  | Some e => Raised e
  | None => TypeError
  end.

(** The loop [for attempt in range(max_attempts)] on the attempts still
    to make, with [last_exception] and the waits so far. *)
Fixpoint attempts (todo : list nat) (last_exception : option E) (sleeps : list Q) (calls : nat)
  : Run.t A E :=
  match todo with
  | [] => Run.mk (raise_last last_exception) sleeps calls
  | attempt :: todo' =>
      match func attempt with
      | Returns r => Run.mk (Returned r) sleeps (S calls)
      | Throws e =>
          if exceptions e then
            let last_exception := Some e in
            if Z.of_nat attempt =? max_attempts - 1
            then Run.mk (raise_last last_exception) sleeps (S calls)
            else
              let wait_time := (delay * backoff ^ Z.of_nat attempt)%Q in
              if Qlt_bool wait_time 0 then Run.mk ValueError sleeps (S calls)
              else attempts todo' last_exception (sleeps ++ [wait_time]) (S calls)
          else Run.mk (Raised e) sleeps (S calls)
      end
  end.

Definition with_retry : Run.t A E :=
  attempts (seq 0 (Z.to_nat max_attempts)) None [] 0.
End WithRetry.

(** [CircuitBreaker] *)
Inductive breaker_state := CLOSED | OPEN | HALF_OPEN.

Module CircuitBreaker.
Record t := mk {
  failure_threshold : Z;
  timeout : Q;
  failure_count : Z;
  last_failure_time : option Q;
  state : breaker_state
}.

(** [__init__] *)
Definition init (failure_threshold : Z) (timeout : Q) : t :=
  mk failure_threshold timeout 0 None CLOSED.

(** [_should_attempt_reset], at the time [now]. *)
Definition _should_attempt_reset (self : t) (now : Q) : bool :=
  match last_failure_time self with
  | None => true
  | Some last => Qle_bool (timeout self) (now - last)
  end.

Definition _on_success (self : t) : t :=
  let state :=
    match state self with
    | HALF_OPEN => CLOSED
    | s => s
    end in
  mk (failure_threshold self) (timeout self) 0 (last_failure_time self) state.

(** [_on_failure], at the time [now]. *)
Definition _on_failure (self : t) (now : Q) : t :=
  let failure_count := failure_count self + 1 in
  let state := if failure_threshold self <=? failure_count then OPEN else state self in
  mk (failure_threshold self) (timeout self) failure_count (Some now) state.

(** A call of the wrapper at the time [now]; [func] is what the wrapped
    function does if it is called, and [failed_at] the time at which its
    failure is recorded. *)
Definition call {A E} (self : t) (now failed_at : Q) (func : outcome A E)
  : t * wrapped A E :=
  let attempt (self : t) :=
    match func with
    | Returns r => (_on_success self, Returned r)
    | Throws e => (_on_failure self failed_at, Raised e)
    end in
  match state self with
  | OPEN =>
      if _should_attempt_reset self now
      then attempt (mk (failure_threshold self) (timeout self) (failure_count self)
                      (last_failure_time self) HALF_OPEN)
      else (self, CircuitBreakerOpenError)
  | _ => attempt self
  end.
End CircuitBreaker.

End Retry.

(** ** The output schema ([src/utils/json_formatter.py]) *)

Module JsonFormatter.

(** [validate_output_schema] on a result of [analyze_pdf_structure].  The
    schema asks for the keys and the types that the result has by its
    construction (strings, integers, a level among ["H1"], ["H2"] and
    ["H3"]); what is left to test are its two bounds: [total_pages] at
    least 0 and the page of every heading at least 1. *)
Definition validate_output_schema (data : Main.Analysis.t) : bool :=
  (0 <=? Z.of_nat (Main.Analysis.total_pages data))
  && forallb (fun heading => 1 <=? Main.Entry.page heading)
       (Main.Outline.headings (Main.Analysis.structural_outline data)).

End JsonFormatter.

(** * Properties *)

(** ** Vocabulary of the statements *)

Import Main.

(** What the refiner makes of [heading] when it reads [prev] and [next] as
    its neighbours. *)
Definition visit (prev next : option Heading.t) (heading : Heading.t) : Heading.t :=
  match prev, next with
  | Some p, Some n =>
      let scores := Heading.classification_scores heading in
      if level_eqb (Heading.level heading) H1 && level_eqb (Heading.level p) H3
         && level_eqb (Heading.level n) H3 then
        if 15 <=? Scores.h2 scores then Heading.set_level H2 heading else heading
      else if level_eqb (Heading.level heading) H3 && level_eqb (Heading.level p) H2
              && level_eqb (Heading.level n) H2 then
        if Scores.h3 scores <=? Scores.h2 scores then Heading.set_level H2 heading else heading
      else heading
  | _, _ => heading
  end.

(** The neighbours of position [i] in a list of [n] headings:
    [headings[i-1] if i > 0 else None] and
    [headings[i+1] if i < len(headings)-1 else None]. *)
Definition prev_of (n : nat) (l : list Heading.t) (i : nat) : option Heading.t :=
  if (0 <? i)%nat then l !! (i - 1)%nat else None.
Definition next_of (n : nat) (l : list Heading.t) (i : nat) : option Heading.t :=
  if (i <? n - 1)%nat then l !! (i + 1)%nat else None.

(** The level of the heading at position [i]. *)
Definition level_at (l : list Heading.t) (i : nat) : option heading_level :=
  Heading.level <$> l !! i.

(** The refiner takes the heading at position [i] from H1 to H2, from
    H3 to H2, or changes its level at all. *)
Definition demoted (hs : list Heading.t) (i : nat) : Prop :=
  level_at hs i = Some H1 /\ level_at (_refine_heading_hierarchy hs) i = Some H2.
Definition promoted (hs : list Heading.t) (i : nat) : Prop :=
  level_at hs i = Some H3 /\ level_at (_refine_heading_hierarchy hs) i = Some H2.
Definition changed (hs : list Heading.t) (i : nat) : Prop :=
  level_at (_refine_heading_hierarchy hs) i <> level_at hs i.

(** The sub-scores of the heading at position [i] satisfy [P]. *)
Definition scores_at (hs : list Heading.t) (i : nat) (P : Z -> Z -> Prop) : Prop :=
  exists h, hs !! i = Some h /\
    P (Scores.h2 (Heading.classification_scores h))
      (Scores.h3 (Heading.classification_scores h)).

(** The loop of the refiner after its first [k] iterations. *)
Definition pass (n k : nat) (hs : list Heading.t) : list Heading.t * list nat :=
  fold_left (refine_step n) (seq 0 k) (hs, []).

(** [points] when the condition holds. *)
Definition factor (condition : bool) (points : Q) : Q :=
  if condition then points else 0%Q.

(** The block the filter appends for [block], if any, when the division
    by the body size is defined. *)
Definition accepted (body_font_size avg_font_size : Q) (block : Block.t) : option Candidate.t :=
  let text := strip (Block.text block) in
  let score := heading_score_of (Block.font_size block / body_font_size) block text in
  if length_ok text && negb (has_noise text)
     && is_potential_heading body_font_size avg_font_size
          (Block.font_size block) (Block.is_bold block)
     && Qle_bool 25 score
  then Some (Candidate.mk block (round2 score))
  else None.



Definition top_score (s : Scores.t) : Z :=
  Z.max (Z.max (Scores.h1 s) (Scores.h2 s)) (Scores.h3 s).







(** How often a size occurs among [sizes]. *)
Definition occurrences (s : Q) (sizes : list Q) : nat :=
  length (List.filter (Qeq_bool s) sizes).

(** [m] is the most frequent size and, of the sizes as frequent, the one
    that occurs first: every size before its first occurrence is strictly
    less frequent. *)
Definition first_mode (sizes : list Q) (m : Q) : Prop :=
  exists pre post,
    sizes = pre ++ m :: post
    /\ (forall s, In s pre -> (occurrences s sizes < occurrences m sizes)%nat)
    /\ (forall s, In s sizes -> (occurrences s sizes <= occurrences m sizes)%nat).

(** [m] is the most frequent size and, of the sizes as frequent, the
    smallest. *)
Definition smallest_mode (sizes : list Q) (m : Q) : Prop :=
  In m sizes
  /\ (forall s, In s sizes -> (occurrences s sizes <= occurrences m sizes)%nat)
  /\ (forall s, In s sizes -> occurrences s sizes = occurrences m sizes -> (m <= s)%Q).

(** The sizes of [l] that differ from [x]. *)
Definition other_than (x : Q) (l : list Q) : list Q :=
  List.filter (fun y => negb (Qeq_bool x y)) l.

(** Steps 1 to 3 of [_extract_headings_from_blocks]: the classified
    headings, in [(page, y)] order and refined. *)
Definition classified_of (text_blocks : list Block.t) : result (list Heading.t) :=
  let font_analysis := _analyze_font_styles text_blocks in
  heading_candidates ← _filter_heading_candidates text_blocks font_analysis;
  _classify_heading_levels heading_candidates font_analysis.

(** The sort key of an entry of the outline. *)
Definition entry_key (e : Entry.t) : Z * Q := (Entry.page e, snd (Entry.position e)).

(** [k1] comes no later than [k2] in reading order. *)
Definition reading_order (k1 k2 : Z * Q) : Prop :=
  fst k1 < fst k2 \/ (fst k1 = fst k2 /\ (snd k1 <= snd k2)%Q).

(** The order the classifier sorts by. *)
Definition heading_le (a b : Heading.t) : bool := key_le (heading_key a) (heading_key b).

(** ** Vocabulary of the further properties *)

(** The block passes the length, noise and potential-heading tests, so the
    filter divides its font size by the body size. *)
Definition reaches_scoring (body_font_size avg_font_size : Q) (block : Block.t) : bool :=
  let text := strip (Block.text block) in
  length_ok text && negb (has_noise text)
  && is_potential_heading body_font_size avg_font_size
       (Block.font_size block) (Block.is_bold block).

(** What a classified heading takes over from its candidate. *)
Definition carried_of_candidate (c : Candidate.t) : str * Z * Position.t * Q * bool * Q :=
  let block := Candidate.block c in
  (strip (Block.text block), Block.page_number block, Block.position block,
   Block.font_size block, Block.is_bold block, Candidate.heading_score c).
Definition carried_of_heading (h : Heading.t) : str * Z * Position.t * Q * bool * Q :=
  (Heading.text h, Heading.page h, Heading.position h,
   Heading.font_size h, Heading.is_bold h, Heading.heading_score h).

(** The three scores are non-negative multiples of 5. *)
Definition tally_ok (s : tally) : Prop :=
  let '(a, b, c) := s in
  (0 <= a /\ (5 | a)) /\ (0 <= b /\ (5 | b)) /\ (0 <= c /\ (5 | c)).

(** The written JSON of a document: [save_result] on the result of
    [analyze_pdf_structure]. *)
Definition final_json (text_blocks : list Block.t) : str * list (heading_level * str * Z) :=
  let outline := structural_outline text_blocks in
  _create_final_json_output (Outline.title outline) (Outline.headings outline).

(** The spans of a text block, of a page and of a document, in the order
    in which [_extract_text_blocks] visits them, the spans of a document
    with the index of their page. *)
Definition block_spans (block : PageBlock.t) : list Span.t :=
  match PageBlock.lines block with
  | None => []
  | Some lines => concat (map Line.spans lines)
  end.
Definition page_spans (page : Page.t) : list Span.t :=
  concat (map block_spans (Page.blocks page)).
Definition document_spans (doc : list Page.t) : list (nat * Span.t) :=
  concat (imap (fun page_num page => map (pair page_num) (page_spans page)) doc).

(** The span has text other than white space. *)
Definition visible (span : Span.t) : bool :=
  match strip (Span.text span) with
  | [] => false
  | _ => true
  end.

(** The span is visible and has a bounding box with fewer than four
    coordinates. *)
Definition unreadable (span : Span.t) : bool :=
  visible span
  && match Span.bbox span with
     | Some bbox => (length bbox <? 4)%nat
     | None => false
     end.

(** The loop [for a in l: ...] whose body appends at most one item:
    what it appends, or [None] when an iteration raises. *)
Definition appended_by {A B} (f : A -> option (option B)) (l : list A) : option (list B) :=
  appended ← mapM f l; Some (omap id appended).

(** The position a block gets from the bounding box of its span. *)
Definition span_position (span : Span.t) : Position.t :=
  let bbox := default [0%Q; 0%Q; 0%Q; 0%Q] (Span.bbox span) in
  Position.mk (round2 (nth 0 bbox 0%Q)) (round2 (nth 1 bbox 0%Q))
    (round2 (nth 2 bbox 0%Q - nth 0 bbox 0%Q)) (round2 (nth 3 bbox 0%Q - nth 1 bbox 0%Q)).

(** The text block of a visible span of page [page_num] (from 0) whose
    bounding box can be read: bold is bit 4 of the flags. *)
Definition block_of_span (item : nat * Span.t) : Block.t :=
  let '(page_num, span) := item in
  Block.mk (strip (Span.text span)) (round2 (default 0%Q (Span.size span)))
    (default [] (Span.font span)) (Z.testbit (default 0 (Span.flags span)) 4)
    (Z.of_nat page_num + 1) (span_position span)
    (map round2 (default [0%Q; 0%Q; 0%Q; 0%Q] (Span.bbox span))).

(** The JSON written for a file whose result can be saved. *)
Definition json_of (pdf_file : File.t) : str * list (heading_level * str * Z) :=
  let outline := Analysis.structural_outline (analyze_pdf_structure (File.opened pdf_file)) in
  _create_final_json_output (Outline.title outline) (Outline.headings outline).

(** The title that [Core._identify_headings] takes on non-empty input. *)
Definition core_title (blocks : list Core.Block.t) : str :=
  match List.filter (fun b => Core.Block.page b =? 0) blocks with
  | b :: bs => Core.Block.text (py_max_from Qlt_bool Core.Block.font_size b bs)
  | [] => Core.untitled
  end.


(** The circuit breaker is closed, or has counted as many failures as
    its threshold. *)
Definition breaker_ok (cb : Retry.CircuitBreaker.t) : Prop :=
  Retry.CircuitBreaker.state cb = Retry.CLOSED
  \/ Retry.CircuitBreaker.failure_threshold cb <= Retry.CircuitBreaker.failure_count cb.


(** How many characters of [text] a pattern matches. *)
Definition matches (pattern : N -> bool) (text : str) : nat :=
  length (List.filter pattern text).

(** A span that [_extract_document_title] can take as the title: its
    stripped text has more than 5 and fewer than 100 characters. *)
Definition title_sized (span : Span.t) : bool :=
  (5 <? length (strip (Span.text span)))%nat && (length (strip (Span.text span)) <? 100)%nat.
(** ** Example inputs *)

(** A span of Helvetica text at the left margin. *)
Definition span (t : string) (size : Q) (bold : bool) (page : Z) (y : Q) : Block.t :=
  Block.mk (lit t) size (lit "Helvetica") bold page (Position.mk 72 y 100 size)
    [72%Q; y; 172%Q; (y + size)%Q].

Definition body_span : Block.t :=
  span "This is ordinary body text that goes on for a while." 12 false 1 300.

(** Four words at 1.15 times the body size near the top of page 1: the
    three level scores are all 20. *)
Definition tie_block : Block.t := span "Data pipeline design notes" (138 # 10) false 1 100.
Definition tie_doc : list Block.t := [tie_block; body_span; body_span; body_span].
Definition tie_candidate : Candidate.t := Candidate.mk tie_block (round2 30).




(** Two sizes, each occurring once, the larger one first. *)
Definition tied_sizes_doc : list Block.t :=
  [span "Alpha" 14 false 1 100; span "Beta" 12 false 1 200].

(** Two headings over body text, and a configuration that allows one. *)
Definition two_headings_doc : list Block.t :=
  [span "Project Plan" 18 true 1 100; span "Budget Notes" 16 true 1 300;
   body_span; body_span; body_span].
Definition one_heading_config : Core.Config.t := Core.Config.mk 1 25.

(** A span of the module-style analyzer, with its top edge at [y]. *)
Definition core_span (t : string) (page : Z) (size : Q) (flags : Z) (y : Q) : Core.Block.t :=
  Core.Block.mk (lit t) page size flags [72%Q; y; 172%Q; (y + size)%Q].

(** On the first page, below the title: a smaller heading above a larger
    one. *)
Definition font_order_blocks : list Core.Block.t :=
  [core_span "Annual Report" 0 30 0 50;
   core_span "first section" 0 14 0 100;
   core_span "second section" 0 18 0 200;
   core_span "plain body text, nothing more." 0 10 0 300;
   core_span "more plain body text here." 0 10 0 320].

(** Latin text that carries one Arabic diacritic (fathatan, U+064B). *)
Definition marked_latin : str := lit "Cafe" ++ [1611%N] ++ lit " menu".

(** Four classified headings: an H1 between two H3 and then an H2. *)
Definition classified (l : heading_level) (h2 h3 : Z) (y : Q) : Heading.t :=
  Heading.mk l (lit "Item") 1 (Position.mk 72 y 100 12) 12 false 30 1
    (Scores.mk 0 h2 h3 (Z.max h2 h3)).
Definition cascade_input : list Heading.t :=
  [classified H3 0 20 100; classified H1 20 0 200;
   classified H3 20 20 300; classified H2 20 0 400].

(** A bold heading over two spans whose size is missing and read as 0:
    the body size is 0. *)
Definition zero_body_doc : list Block.t :=
  [span "Quarterly Results" 12 true 1 100;
   span "first paragraph of the text" 0 false 1 300;
   span "second paragraph of the text" 0 false 1 320].

(** Spans as PyMuPDF gives them.  A one-page document: an image block,
    a bold heading followed by a blank span, and three lines of body
    text; and a document whose second span has a bounding box of two
    coordinates. *)
Definition text_span (t : string) (size : Q) (flags : Z) (bbox : list Q) : Span.t :=
  Span.mk (lit t) (Some (lit "Helvetica")) (Some size) (Some flags) (Some bbox).
Definition heading_span : Span.t :=
  text_span " Project Plan " 18 16 [72%Q; 100%Q; 172%Q; 118%Q].
Definition body_line (y : Q) : Line.t :=
  Line.mk [text_span "Some body text of the page." 12 0 [72%Q; y; 172%Q; (y + 12)%Q]].
Definition readable_doc : list Page.t :=
  [Page.mk [PageBlock.mk None;
            PageBlock.mk (Some [Line.mk [heading_span; text_span "   " 12 0 []]]);
            PageBlock.mk (Some [body_line 300; body_line 320; body_line 340])]].
Definition clipped_doc : list Page.t :=
  [Page.mk [PageBlock.mk (Some [Line.mk [heading_span]]);
            PageBlock.mk (Some [Line.mk [text_span "Some body text." 12 0 [72%Q; 300%Q]]])]].

(** A function that fails in every attempt, with the number of the
    attempt. *)
Definition always_failing (attempt : nat) : Retry.outcome unit nat := Retry.Throws attempt.


(** ** The hierarchy refiner *)

Lemma set_level_same (h : Heading.t) : Heading.set_level (Heading.level h) h = h.
Proof. by destruct h. Qed.

Lemma refine_step_visit n (st : list Heading.t) r i h :
  st !! i = Some h ->
  refine_step n (st, r) i = (<[i := visit (prev_of n st i) (next_of n st i) h]> st, r ++ [i]).
Proof.
  intros Hi. unfold refine_step, visit, prev_of, next_of. rewrite Hi.
  f_equal.
  destruct (if (0 <? i)%nat then st !! (i - 1)%nat else None) as [p|];
    destruct (if (i <? n - 1)%nat then st !! (i + 1)%nat else None) as [nx|];
    repeat (case_match; try done); by rewrite list_insert_id.
Qed.

Lemma pass_invariant n hs k :
  (k <= length hs)%nat ->
  exists st,
    pass n k hs = (st, seq 0 k) /\ length st = length hs /\
    (forall j, (k <= j)%nat -> st !! j = hs !! j) /\
    (forall j h, (j < k)%nat -> hs !! j = Some h ->
       st !! j = Some (visit (prev_of n st j) (next_of n hs j) h)).
Proof.
  induction k as [|k IH]; intros Hk.
  - exists hs. repeat split; auto. intros; lia.
  - destruct IH as (st & Hp & Hlen & Hge & Hlt); [lia|].
    destruct (lookup_lt_is_Some_2 hs k) as [h Hh]; [lia|].
    assert (Hsk : st !! k = Some h) by (rewrite Hge; auto).
    exists (<[k := visit (prev_of n st k) (next_of n st k) h]> st).
    unfold pass in *. rewrite seq_S, fold_left_app, Hp. cbn [fold_left Nat.add].
    rewrite (refine_step_visit _ _ _ _ _ Hsk).
    split; [done|]. split; [by rewrite length_insert|]. split.
    + intros j Hj. rewrite list_lookup_insert_ne by lia. apply Hge. lia.
    + intros j hj Hj Hhj.
      assert (Hprev : forall j', (j' <= k)%nat ->
                prev_of n (<[k := visit (prev_of n st k) (next_of n st k) h]> st) j'
                = prev_of n st j').
      { intros j' Hj'. unfold prev_of. destruct (0 <? j')%nat eqn:E; [|done].
        apply Nat.ltb_lt in E. rewrite list_lookup_insert_ne by lia. done. }
      rewrite Hprev by lia.
      destruct (decide (j = k)) as [->|Hne].
      * rewrite list_lookup_insert_eq by lia.
        assert (hj = h) by congruence. subst hj.
        do 2 f_equal. unfold next_of. case_match; [|done]. apply Hge. lia.
      * rewrite list_lookup_insert_ne by lia. apply Hlt; [lia|done].
Qed.

Lemma omap_lookup_from {A} (f : nat -> option A) (l : list A) k :
  (forall i x, l !! i = Some x -> f (k + i)%nat = Some x) ->
  omap f (seq k (length l)) = l.
Proof.
  revert k. induction l as [|x l IH]; intros k Hf; [done|].
  simpl. rewrite <- (Nat.add_0_r k) at 1. rewrite (Hf 0%nat x) by done.
  f_equal. apply IH. intros i y Hy.
  replace (S k + i)%nat with (k + S i)%nat by lia. by apply Hf.
Qed.

Lemma refine_length hs : length (_refine_heading_hierarchy hs) = length hs.
Proof.
  unfold _refine_heading_hierarchy. case_match; [done|].
  destruct (pass_invariant (length hs) hs (length hs)) as (st & Hp & Hlen & _); [lia|].
  unfold pass in Hp. rewrite Hp. rewrite <- Hlen at 1.
  rewrite (omap_lookup_from _ st 0); auto.
Qed.

(** The refined heading at a position, from the classified heading there,
    the refined heading before it and the classified heading after it. *)
Lemma refine_lookup hs i h :
  hs !! i = Some h ->
  _refine_heading_hierarchy hs !! i
  = Some (visit (prev_of (length hs) (_refine_heading_hierarchy hs) i)
                (next_of (length hs) hs i) h).
Proof.
  intros Hi. unfold _refine_heading_hierarchy.
  destruct (length hs <=? 1)%nat eqn:E.
  - apply Nat.leb_le in E. rewrite Hi. f_equal.
    apply lookup_lt_Some in Hi.
    unfold visit, prev_of. replace i with 0%nat by lia. done.
  - destruct (pass_invariant (length hs) hs (length hs)) as (st & Hp & Hlen & _ & Hlt); [lia|].
    unfold pass in Hp. rewrite Hp.
    assert (Hst : omap (fun r => st !! r) (seq 0 (length hs)) = st).
    { rewrite <- Hlen. apply (omap_lookup_from _ st 0). auto. }
    rewrite Hst. apply Hlt; [|done]. by apply lookup_lt_Some in Hi.
Qed.

Lemma visit_cases prev next h :
  visit prev next h = h \/ visit prev next h = Heading.set_level H2 h.
Proof. unfold visit. repeat case_match; auto. Qed.

Lemma level_eqb_true a b : level_eqb a b = true <-> a = b.
Proof. unfold level_eqb. apply bool_decide_eq_true. Qed.

(** The level after a visit, rule by rule. *)
Lemma visit_level prev next h :
  Heading.level (visit prev next h) =
    match prev, next with
    | Some p, Some n =>
        match Heading.level h, Heading.level p, Heading.level n with
        | H1, H3, H3 =>
            if 15 <=? Scores.h2 (Heading.classification_scores h) then H2 else H1
        | H3, H2, H2 =>
            if Scores.h3 (Heading.classification_scores h)
               <=? Scores.h2 (Heading.classification_scores h) then H2 else H3
        | l, _, _ => l
        end
    | _, _ => Heading.level h
    end.
Proof.
  unfold visit. destruct prev as [p|], next as [n|]; try done.
  destruct h as [l ? ? ? ? ? ? ? sc], p as [lp ? ? ? ? ? ? ? ?], n as [ln ? ? ? ? ? ? ? ?].
  cbn [Heading.level Heading.classification_scores].
  destruct l, lp, ln; cbn; repeat case_match; done.
Qed.

Lemma level_at_refine hs i h :
  hs !! i = Some h ->
  level_at (_refine_heading_hierarchy hs) i
  = Some (Heading.level (visit (prev_of (length hs) (_refine_heading_hierarchy hs) i)
                               (next_of (length hs) hs i) h)).
Proof. intros Hi. unfold level_at. by rewrite (refine_lookup _ _ _ Hi). Qed.

Lemma level_at_Some (l : list Heading.t) i lv :
  level_at l i = Some lv <-> exists h, l !! i = Some h /\ Heading.level h = lv.
Proof.
  unfold level_at. destruct (l !! i) as [h|]; cbn.
  - split; [intros [= <-]; eauto | intros (h' & [= <-] & <-); done].
  - split; [done | intros (h' & [=] & _)].
Qed.

Lemma prev_of_level n (l : list Heading.t) i lv :
  (exists p, prev_of n l i = Some p /\ Heading.level p = lv)
  <-> (0 < i)%nat /\ level_at l (i - 1) = Some lv.
Proof.
  unfold prev_of. rewrite level_at_Some. destruct (0 <? i)%nat eqn:E.
  - apply Nat.ltb_lt in E.
    split; [intros H; split; [lia | exact H] | intros [_ H]; exact H].
  - apply Nat.ltb_ge in E. split; [intros (? & [=] & _) | lia].
Qed.

Lemma next_of_level (l : list Heading.t) i lv :
  (exists p, next_of (length l) l i = Some p /\ Heading.level p = lv)
  <-> level_at l (i + 1) = Some lv.
Proof.
  unfold next_of. rewrite level_at_Some. destruct (i <? length l - 1)%nat eqn:E.
  - reflexivity.
  - apply Nat.ltb_ge in E. split; [intros (? & [=] & _)|].
    intros (p & Hp & _). apply lookup_lt_Some in Hp. lia.
Qed.

Lemma demoted_iff hs i :
  demoted hs i <->
  level_at hs i = Some H1 /\ (0 < i)%nat
  /\ level_at (_refine_heading_hierarchy hs) (i - 1) = Some H3
  /\ level_at hs (i + 1) = Some H3
  /\ scores_at hs i (fun h2 _ => 15 <= h2).
Proof.
  unfold demoted, scores_at.
  split.
  - intros [H1' H2']. apply level_at_Some in H1' as (h & Hh & Hl).
    rewrite (level_at_refine _ _ _ Hh), visit_level, Hl in H2'.
    destruct (prev_of _ _ i) as [p|] eqn:Ep; [|done].
    destruct (next_of _ _ i) as [n|] eqn:En; [|done].
    destruct (Heading.level p) eqn:Elp; try done.
    destruct (Heading.level n) eqn:Eln; try done.
    destruct (15 <=? _) eqn:E15; [|done]. apply Z.leb_le in E15.
    assert (Hprev : (0 < i)%nat /\ level_at (_refine_heading_hierarchy hs) (i - 1) = Some H3)
      by (apply (prev_of_level (length hs)); eauto).
    assert (Hnext : level_at hs (i + 1) = Some H3) by (apply next_of_level; eauto).
    destruct Hprev as [Hpos Hprev].
    split; [apply level_at_Some; eauto|]. repeat split; auto. exists h; auto.
  - intros (H1' & Hpos & Hprev & Hnext & (h & Hh & H15)).
    destruct (proj2 (prev_of_level (length hs) _ i H3) (conj Hpos Hprev)) as (p & Hp & Hlp).
    destruct (proj2 (next_of_level hs i H3) Hnext) as (n & Hn & Hln).
    split; [done|]. apply level_at_Some in H1' as (h' & Hh' & Hl).
    assert (h' = h) by congruence. subst h'.
    rewrite (level_at_refine _ _ _ Hh), visit_level, Hp, Hn, Hl, Hlp, Hln.
    apply Z.leb_le in H15. by rewrite H15.
Qed.

Lemma promoted_iff hs i :
  promoted hs i <->
  level_at hs i = Some H3 /\ (0 < i)%nat
  /\ level_at (_refine_heading_hierarchy hs) (i - 1) = Some H2
  /\ level_at hs (i + 1) = Some H2
  /\ scores_at hs i (fun h2 h3 => h3 <= h2).
Proof.
  unfold promoted, scores_at.
  split.
  - intros [H1' H2']. apply level_at_Some in H1' as (h & Hh & Hl).
    rewrite (level_at_refine _ _ _ Hh), visit_level, Hl in H2'.
    destruct (prev_of _ _ i) as [p|] eqn:Ep; [|done].
    destruct (next_of _ _ i) as [n|] eqn:En; [|done].
    destruct (Heading.level p) eqn:Elp; try done.
    destruct (Heading.level n) eqn:Eln; try done.
    destruct (_ <=? _) eqn:E15; [|done]. apply Z.leb_le in E15.
    assert (Hprev : (0 < i)%nat /\ level_at (_refine_heading_hierarchy hs) (i - 1) = Some H2)
      by (apply (prev_of_level (length hs)); eauto).
    assert (Hnext : level_at hs (i + 1) = Some H2) by (apply next_of_level; eauto).
    destruct Hprev as [Hpos Hprev].
    split; [apply level_at_Some; eauto|]. repeat split; auto. exists h; auto.
  - intros (H1' & Hpos & Hprev & Hnext & (h & Hh & H15)).
    destruct (proj2 (prev_of_level (length hs) _ i H2) (conj Hpos Hprev)) as (p & Hp & Hlp).
    destruct (proj2 (next_of_level hs i H2) Hnext) as (n & Hn & Hln).
    split; [done|]. apply level_at_Some in H1' as (h' & Hh' & Hl).
    assert (h' = h) by congruence. subst h'.
    rewrite (level_at_refine _ _ _ Hh), visit_level, Hp, Hn, Hl, Hlp, Hln.
    apply Z.leb_le in H15. by rewrite H15.
Qed.

Lemma changed_cases hs i : changed hs i -> demoted hs i \/ promoted hs i.
Proof.
  unfold changed, demoted, promoted. intros Hc.
  destruct (hs !! i) as [h|] eqn:Hh.
  - rewrite (level_at_refine _ _ _ Hh) in *.
    assert (Hl : level_at hs i = Some (Heading.level h)) by (unfold level_at; by rewrite Hh).
    rewrite Hl in *. rewrite visit_level in *.
    repeat case_match; try done; auto.
  - exfalso. apply Hc. unfold level_at. rewrite Hh.
    rewrite (lookup_ge_None_2 (_refine_heading_hierarchy hs) i); [done|].
    rewrite refine_length. by apply lookup_ge_None.
Qed.

Lemma changed_level hs i :
  changed hs i -> level_at (_refine_heading_hierarchy hs) i = Some H2.
Proof. intros [[_ ?]|[_ ?]]%changed_cases; done. Qed.

Lemma changed_not_H2 hs i : changed hs i -> level_at hs i <> Some H2.
Proof. intros [[E _]|[E _]]%changed_cases; rewrite E; done. Qed.

Lemma unchanged_dec hs i :
  changed hs i \/ level_at (_refine_heading_hierarchy hs) i = level_at hs i.
Proof.
  unfold changed.
  destruct (decide (level_at (_refine_heading_hierarchy hs) i = level_at hs i)); auto.
Qed.

(** C5. In the single forward pass of the hierarchy refiner, where the
    previous neighbour is read as the pass left it and the next neighbour
    as classified, a heading is demoted from H1 to H2 exactly when it has
    both neighbours, both are H3 and its h2 sub-score is at least 15; it
    is promoted from H3 to H2 exactly when it has both neighbours, both
    are H2 and its h2 sub-score is at least its h3 sub-score; no level
    changes otherwise.  The previous neighbour of a demoted heading was
    classified H3; that of a promoted heading was classified H2 or is a
    heading the pass has just demoted (one hop), and after two consecutive
    corrections the next heading is never corrected. *)
Theorem refine_single_pass (hs : list Heading.t) (i : nat) :
  (demoted hs i <->
     level_at hs i = Some H1 /\ (0 < i)%nat
     /\ level_at (_refine_heading_hierarchy hs) (i - 1) = Some H3
     /\ level_at hs (i + 1) = Some H3
     /\ scores_at hs i (fun h2 _ => 15 <= h2))
  /\ (promoted hs i <->
     level_at hs i = Some H3 /\ (0 < i)%nat
     /\ level_at (_refine_heading_hierarchy hs) (i - 1) = Some H2
     /\ level_at hs (i + 1) = Some H2
     /\ scores_at hs i (fun h2 h3 => h3 <= h2))
  /\ (changed hs i -> demoted hs i \/ promoted hs i)
  /\ (demoted hs i -> level_at hs (i - 1) = Some H3)
  /\ (promoted hs i -> level_at hs (i - 1) = Some H2 \/ demoted hs (i - 1))
  /\ (changed hs i -> changed hs (i + 1) -> ~ changed hs (i + 2)).
Proof.
  split; [apply demoted_iff|]. split; [apply promoted_iff|].
  split; [apply changed_cases|]. split; [|split].
  - intros (_ & _ & Hp & _)%demoted_iff.
    destruct (unchanged_dec hs (i - 1)) as [Hc|He]; [|congruence].
    apply changed_level in Hc. congruence.
  - intros (Hi & Hpos & Hp & _)%promoted_iff.
    destruct (unchanged_dec hs (i - 1)) as [Hc|He]; [|left; congruence].
    right. destruct (changed_cases _ _ Hc) as [Hd|Hpr]; [done|].
    apply promoted_iff in Hpr as (_ & _ & _ & Hn & _).
    replace (i - 1 + 1)%nat with i in Hn by lia. congruence.
  - intros Hc Hc1 Hc2.
    destruct (changed_cases _ _ Hc1) as [Hd|Hpr].
    + apply demoted_iff in Hd as (_ & _ & Hp & _).
      replace (i + 1 - 1)%nat with i in Hp by lia.
      apply changed_level in Hc. congruence.
    + apply promoted_iff in Hpr as (_ & _ & _ & Hn & _).
      replace (i + 1 + 1)%nat with (i + 2)%nat in Hn by lia.
      by apply changed_not_H2 in Hc2.
Qed.

(** C10. The hierarchy refiner returns as many headings as it is given,
    position by position the same heading: either untouched or with its
    level set to H2, and with the same text, page, position and
    classification scores (and font size, boldness, heading score and
    size ratio). *)
Theorem refine_frame (hs : list Heading.t) :
  length (_refine_heading_hierarchy hs) = length hs
  /\ forall i h, hs !! i = Some h ->
       exists h', _refine_heading_hierarchy hs !! i = Some h'
         /\ (h' = h \/ (h' = Heading.set_level H2 h /\ Heading.level h <> H2))
         /\ Heading.text h' = Heading.text h
         /\ Heading.page h' = Heading.page h
         /\ Heading.position h' = Heading.position h
         /\ Heading.classification_scores h' = Heading.classification_scores h
         /\ Heading.font_size h' = Heading.font_size h
         /\ Heading.is_bold h' = Heading.is_bold h
         /\ Heading.heading_score h' = Heading.heading_score h
         /\ Heading.size_ratio h' = Heading.size_ratio h.
Proof.
  split; [apply refine_length|]. intros i h Hi.
  eexists. split; [apply (refine_lookup _ _ _ Hi)|].
  destruct (visit_cases (prev_of (length hs) (_refine_heading_hierarchy hs) i)
              (next_of (length hs) hs i) h) as [->| ->].
  - repeat split; auto.
  - split; [|by destruct h].
    destruct (decide (Heading.level h = H2)) as [E|E]; [|by right].
    left. rewrite <- E. apply set_level_same.
Qed.

(** ** Sorting *)

Section Sorting.
Context {A : Type} (le : A -> A -> bool).
Hypothesis le_total : forall a b, le a b = false -> le b a = true.
Hypothesis le_trans : forall a b c, le a b = true -> le b c = true -> le a c = true.

Let R (a b : A) : Prop := le a b = true.

Lemma insert_sorted_perm a l : Permutation (insert_sorted le a l) (a :: l).
Proof.
  induction l as [|b l IH]; cbn; [done|].
  destruct (le b a); [|done].
  rewrite IH. apply perm_swap.
Qed.

Lemma py_sort_from_perm l acc :
  Permutation (fold_left (fun acc a => insert_sorted le a acc) l acc) (l ++ acc).
Proof.
  revert acc. induction l as [|a l IH]; intros acc; cbn; [done|].
  rewrite IH, insert_sorted_perm. by rewrite Permutation_middle.
Qed.

Lemma py_sort_perm l : Permutation (py_sort le l) l.
Proof. unfold py_sort. rewrite py_sort_from_perm. by rewrite app_nil_r. Qed.

Lemma py_sort_In x l : In x (py_sort le l) <-> In x l.
Proof.
  split; apply Permutation_in; [apply py_sort_perm | symmetry; apply py_sort_perm].
Qed.

Lemma py_sort_length l : length (py_sort le l) = length l.
Proof. apply Permutation_length, py_sort_perm. Qed.

Lemma insert_sorted_sorted a l :
  StronglySorted R l -> StronglySorted R (insert_sorted le a l).
Proof using le_total le_trans.
  induction 1 as [|b l Hs IH Hb]; cbn.
  - repeat constructor.
  - destruct (le b a) eqn:E.
    + constructor; [done|].
      apply List.Forall_forall. intros x Hx.
      apply (Permutation_in _ (insert_sorted_perm a l)) in Hx.
      destruct Hx as [<-|Hx]; [done|].
      rewrite List.Forall_forall in Hb. by apply Hb.
    + constructor; [by constructor|].
      apply le_total in E. constructor; [done|].
      eapply List.Forall_impl; [|exact Hb]. intros x Hx. by eapply le_trans.
Qed.

Lemma py_sort_sorted l : StronglySorted R (py_sort le l).
Proof using le_total le_trans.
  unfold py_sort.
  assert (H : forall acc, StronglySorted R acc ->
            StronglySorted R (fold_left (fun acc a => insert_sorted le a acc) l acc)).
  { induction l as [|a l IH]; intros acc Hacc; cbn; [done|].
    by apply IH, insert_sorted_sorted. }
  apply H. constructor.
Qed.
End Sorting.

Lemma StronglySorted_app_inv {A} (R : A -> A -> Prop) l1 l2 :
  StronglySorted R (l1 ++ l2) ->
  StronglySorted R l1 /\ forall x y, In x l1 -> In y l2 -> R x y.
Proof.
  induction l1 as [|a l1 IH]; cbn; intros Hs.
  - split; [constructor | intros ? ? []].
  - apply StronglySorted_inv in Hs as [Hs Ha]. destruct (IH Hs) as [Hs1 Hx].
    split.
    + constructor; [done|]. apply List.Forall_app in Ha. tauto.
    + intros x y [<-|Hx'] Hy; [|by apply Hx].
      rewrite List.Forall_forall in Ha. apply Ha. apply in_or_app. by right.
Qed.

Lemma StronglySorted_map {A B} (f : A -> B) (R : B -> B -> Prop) l :
  StronglySorted R (map f l) <-> StronglySorted (fun a b => R (f a) (f b)) l.
Proof.
  induction l as [|a l IH]; cbn.
  - split; constructor.
  - split; intros [Hs Ha]%StronglySorted_inv; constructor; try tauto.
    + exact (proj1 (List.Forall_map f (R (f a)) l) Ha).
    + exact (proj2 (List.Forall_map f (R (f a)) l) Ha).
Qed.

Lemma StronglySorted_weaken {A} (R R' : A -> A -> Prop) l :
  (forall a b, R a b -> R' a b) -> StronglySorted R l -> StronglySorted R' l.
Proof.
  intros HR. induction 1 as [|a l Hs IH Ha]; constructor; [done|].
  eapply List.Forall_impl; [|exact Ha]. intros b. apply HR.
Qed.

Lemma StronglySorted_lookup {A} (R : A -> A -> Prop) (l : list A) i j a b :
  StronglySorted R l -> (i < j)%nat -> l !! i = Some a -> l !! j = Some b -> R a b.
Proof.
  intros Hs. revert i j. induction Hs as [|x l Hs IH Hx]; intros i j Hij Hi Hj; [done|].
  destruct j as [|j]; [lia|]. destruct i as [|i]; cbn in *.
  - injection Hi as ->. rewrite List.Forall_forall in Hx. apply Hx.
    apply list_elem_of_In. by eapply list_elem_of_lookup_2.
  - apply (IH i j); [lia|done|done].
Qed.

Lemma key_le_spec (k1 k2 : Z * Q) :
  Main.key_le k1 k2 = true <->
  fst k1 < fst k2 \/ (fst k1 = fst k2 /\ (snd k1 <= snd k2)%Q).
Proof.
  unfold Main.key_le.
  rewrite orb_true_iff, andb_true_iff, Z.ltb_lt, Z.eqb_eq, Qle_bool_iff. tauto.
Qed.

Lemma key_le_total k1 k2 : Main.key_le k1 k2 = false -> Main.key_le k2 k1 = true.
Proof.
  intros H. apply key_le_spec.
  destruct (Z.lt_trichotomy (fst k1) (fst k2)) as [Hlt|[Heq|Hgt]]; [|right|by left].
  - exfalso. apply not_true_iff_false in H. apply H, key_le_spec. by left.
  - split; [done|]. destruct (Qlt_le_dec (snd k2) (snd k1)) as [Hq|Hq].
    + by apply Qlt_le_weak.
    + exfalso. apply not_true_iff_false in H. apply H, key_le_spec. by right.
Qed.

Lemma key_le_trans k1 k2 k3 :
  Main.key_le k1 k2 = true -> Main.key_le k2 k3 = true -> Main.key_le k1 k3 = true.
Proof.
  rewrite !key_le_spec. intros [H1|[H1 H1']] [H2|[H2 H2']]; try (left; lia).
  right. split; [lia|]. by eapply Qle_trans.
Qed.

(** ** The candidate filter *)

Lemma for_each_pure {A B} (f : A -> result B) (g : A -> B) l :
  (forall a, In a l -> f a = Ok (g a)) -> for_each f l = Ok (map g l).
Proof.
  induction l as [|a l IH]; intros Hf; cbn; [done|].
  rewrite (Hf a) by (by left). cbn.
  rewrite IH by (intros; apply Hf; by right). done.
Qed.

Lemma truediv_defined a b : ~ (b == 0)%Q -> truediv a b = Ok (a / b)%Q.
Proof.
  intros Hb. unfold truediv. destruct (Qeq_bool b 0) eqn:E; [|done].
  apply Qeq_bool_iff in E. done.
Qed.

Lemma filter_block_accepted body avg block :
  ~ (body == 0)%Q -> filter_block body avg block = Ok (accepted body avg block).
Proof.
  intros Hb. unfold filter_block, accepted.
  rewrite (truediv_defined _ _ Hb). unfold mbind, result_bind.
  destruct (length_ok (strip (Block.text block))); cbn [negb andb]; [|done].
  destruct (has_noise (strip (Block.text block))); cbn [negb andb]; [done|].
  destruct (is_potential_heading body avg (Block.font_size block) (Block.is_bold block));
    cbn [negb andb]; [|done].
  by destruct (Qle_bool 25 _).
Qed.

Lemma In_omap_id {A} (c : A) (l : list (option A)) :
  In c (omap id l) <-> In (Some c) l.
Proof.
  rewrite <- !list_elem_of_In, list_elem_of_omap. unfold id. split.
  - intros (x & Hx & ->). done.
  - intros Hx. eauto.
Qed.

Lemma length_ok_spec text :
  length_ok text = true <-> (3 <= length text <= 200)%nat.
Proof.
  unfold length_ok. rewrite negb_true_iff, orb_false_iff, !Nat.ltb_ge. tauto.
Qed.

Lemma heading_score_of_factors size_ratio block text :
  (heading_score_of size_ratio block text ==
     Qmin_py 40 ((size_ratio - 1) * 20)
     + factor (Block.is_bold block) 20
     + factor (length (split text) <=? 8)%nat
         (20 - inject_Z (Z.of_nat (length (split text))) * 2)
     + factor (Qlt_bool (Position.y (Block.position block)) 200) 10
     + factor (negb (existsb (fun e => endswith e text) sentence_endings)) 5
     + factor (isupper text && (3 <? length text)%nat && (length text <? 50)%nat) 10
     + factor (isdigit (remove_char 32 (before_first dot text))) 8)%Q.
Proof.
  unfold heading_score_of, factor.
  destruct (Block.is_bold block), (length (split text) <=? 8)%nat,
    (Qlt_bool (Position.y (Block.position block)) 200),
    (existsb (fun e => endswith e text) sentence_endings),
    (isupper text), (3 <? length text)%nat, (length text <? 50)%nat,
    (isdigit (remove_char 32 (before_first dot text))); cbn [negb andb]; ring.
Qed.


(** ** The level classifier *)




(** ** The font profiler *)

Lemma Qeq_bool_sym_false a b : Qeq_bool a b = false -> Qeq_bool b a = false.
Proof.
  intros H. apply not_true_iff_false. intros E. apply Qeq_bool_iff in E.
  apply not_true_iff_false in H. apply H. apply Qeq_bool_iff. by symmetry.
Qed.

Lemma Qeq_bool_trans_false a b c :
  Qeq_bool a b = true -> Qeq_bool a c = false -> Qeq_bool b c = false.
Proof.
  intros Hab Hac. apply not_true_iff_false. intros Hbc.
  apply not_true_iff_false in Hac. apply Hac.
  apply Qeq_bool_iff in Hab, Hbc. apply Qeq_bool_iff. by rewrite Hab.
Qed.

Lemma occurrences_eq a b l : (a == b)%Q -> occurrences a l = occurrences b l.
Proof.
  intros Hab. unfold occurrences. f_equal. apply filter_ext. intros c.
  destruct (Qeq_bool b c) eqn:E.
  - apply Qeq_bool_iff in E. apply Qeq_bool_iff. by rewrite Hab.
  - apply not_true_iff_false. intros E'. apply not_true_iff_false in E. apply E.
    apply Qeq_bool_iff in E'. apply Qeq_bool_iff. by rewrite <- Hab.
Qed.

Lemma counter_incr_no_match (x y : Q) c :
  (forall k n, In (k, n) c -> Qeq_bool k x = false) ->
  Qeq_bool y x = false ->
  forall k n, In (k, n) (counter_incr Qeq_bool y c) -> Qeq_bool k x = false.
Proof.
  induction c as [|[k' n'] c IH]; intros Hc Hy k n; cbn.
  - intros [[= <- <-]|[]]. done.
  - destruct (Qeq_bool k' y).
    + intros [[= <- <-]|Hin]; [apply (Hc k' n'); by left | apply (Hc k n); by right].
    + intros [[= <- <-]|Hin]; [apply (Hc k' n'); by left|].
      apply (IH (fun k n H => Hc k n (or_intror H)) Hy k n Hin).
Qed.

Lemma Counter_from_head x a c l :
  (forall k n, In (k, n) c -> Qeq_bool k x = false) ->
  fold_left (fun c k => counter_incr Qeq_bool k c) l ((x, a) :: c)
  = (x, (a + occurrences x l)%nat)
      :: fold_left (fun c k => counter_incr Qeq_bool k c) (other_than x l) c.
Proof.
  revert a c. induction l as [|y l IH]; intros a c Hc.
  - cbn. by rewrite Nat.add_0_r.
  - cbn [fold_left counter_incr]. unfold occurrences, other_than.
    cbn [List.filter]. destruct (Qeq_bool x y) eqn:E; cbn [negb length fold_left].
    + rewrite IH by done. unfold occurrences. do 2 f_equal. lia.
    + rewrite IH; [done|]. apply counter_incr_no_match; [done|].
      by apply Qeq_bool_sym_false.
Qed.

Lemma Counter_cons x l :
  Counter Qeq_bool (x :: l)
  = (x, S (occurrences x l)) :: Counter Qeq_bool (other_than x l).
Proof. unfold Counter. cbn [fold_left counter_incr]. by rewrite Counter_from_head. Qed.

Lemma occurrences_cons_same x l : occurrences x (x :: l) = S (occurrences x l).
Proof.
  unfold occurrences. cbn. replace (Qeq_bool x x) with true; [done|].
  symmetry. apply Qeq_bool_iff. reflexivity.
Qed.

Lemma occurrences_other_than k x l :
  Qeq_bool x k = false -> occurrences k (other_than x l) = occurrences k l.
Proof.
  intros Hxk. unfold occurrences, other_than.
  induction l as [|y l IH]; [done|]. cbn.
  destruct (Qeq_bool x y) eqn:Exy; cbn.
  - rewrite (Qeq_bool_sym_false _ _ (Qeq_bool_trans_false x y k Exy Hxk)). done.
  - destruct (Qeq_bool k y); cbn; by rewrite IH.
Qed.

Lemma filter_split {A} (p : A -> bool) l a k b :
  List.filter p l = a ++ k :: b ->
  exists pre post, l = pre ++ k :: post /\ List.filter p pre = a /\ p k = true.
Proof.
  revert a. induction l as [|y l IH]; intros a; cbn.
  - by destruct a.
  - destruct (p y) eqn:E.
    + destruct a as [|y' a]; cbn; intros [= <- Hl].
      * exists [], l. cbn. by rewrite E.
      * destruct (IH _ Hl) as (pre & post & -> & <- & Hk).
        exists (y :: pre), post. cbn. by rewrite E.
    + intros Hl. destruct (IH _ Hl) as (pre & post & -> & <- & Hk).
      exists (y :: pre), post. cbn. by rewrite E.
Qed.

Lemma other_than_length x l : (length (other_than x l) <= length l)%nat.
Proof. apply filter_length_le. Qed.

(** The counter, entry by entry: the count is the number of occurrences,
    and every size before the first occurrence of the key has an earlier
    entry. *)
Lemma Counter_spec l :
  (forall c1 k n c2, Counter Qeq_bool l = c1 ++ (k, n) :: c2 ->
     n = occurrences k l
     /\ exists pre post, l = pre ++ k :: post
          /\ forall s, In s pre -> exists k' n', In (k', n') c1 /\ (k' == s)%Q)
  /\ (forall s, In s l -> exists k n, In (k, n) (Counter Qeq_bool l) /\ (k == s)%Q).
Proof.
  remember (length l) as m eqn:Hm. revert l Hm.
  induction m as [m IH] using lt_wf_ind. intros [|x l] Hm.
  - split; [intros [|] ? ? ? [=] | intros ? []].
  - cbn in Hm. rewrite Counter_cons.
    destruct (IH (length (other_than x l))
                (ltac:(pose proof (other_than_length x l); lia))
                (other_than x l) eq_refl) as [IH1 IH2].
    split.
    + intros [|[kx nx] c1] k n c2; cbn [app]; intros [= Hk Hn Hrest].
      * subst. split; [by rewrite occurrences_cons_same|].
        exists [], l. split; [done | intros ? []].
      * subst kx nx. destruct (IH1 _ _ _ _ Hrest) as (-> & pre & post & Hl & Hpre).
        apply filter_split in Hl as (pre' & post' & -> & <- & Hkx).
        apply negb_true_iff in Hkx.
        split.
        { rewrite occurrences_other_than by done.
          unfold occurrences. cbn. by rewrite (Qeq_bool_sym_false _ _ Hkx). }
        exists (x :: pre'), post'. split; [done|].
        intros s [<-|Hs]; [exists x, (S (occurrences x (pre' ++ k :: post'))); split; [by left | reflexivity]|].
        destruct (Qeq_bool x s) eqn:Exs.
        { apply Qeq_bool_iff in Exs. exists x, (S (occurrences x (pre' ++ k :: post'))).
          split; [by left | done]. }
        destruct (Hpre s) as (k' & n' & Hin & Hks).
        { apply filter_In. split; [done|]. by rewrite Exs. }
        exists k', n'. split; [by right | done].
    + intros s [<-|Hs].
      * exists x, (S (occurrences x l)). split; [by left | reflexivity].
      * destruct (Qeq_bool x s) eqn:Exs.
        { apply Qeq_bool_iff in Exs. exists x, (S (occurrences x l)). split; [by left | done]. }
        destruct (IH2 s) as (k & n & Hin & Hks).
        { apply filter_In. split; [done|]. by rewrite Exs. }
        exists k, n. split; [by right | done].
Qed.

(** [max] with a key returns the first maximal element. *)
Lemma py_max_from_cases {A} (key : A -> nat) (l : list A) (b r : A) :
  py_max_from Nat.ltb key b l = r ->
  (r = b /\ forall y, In y l -> (key y <= key b)%nat)
  \/ exists l1 l2, l = l1 ++ r :: l2
       /\ (key b < key r)%nat
       /\ (forall y, In y l1 -> (key y < key r)%nat)
       /\ (forall y, In y l2 -> (key y <= key r)%nat).
Proof.
  unfold py_max_from. revert b. induction l as [|a l IH]; intros b; cbn [fold_left].
  - intros <-. left. split; [done | intros ? []].
  - destruct (key b <? key a)%nat eqn:E; intros Hr.
    + apply Nat.ltb_lt in E. right.
      destruct (IH _ Hr) as [[-> Hle]|(l1 & l2 & -> & Hlt & H1 & H2)].
      * exists [], l. split; [done|]. split; [done|]. split; [intros ? [] | done].
      * exists (a :: l1), l2. split; [done|]. split; [lia|]. split; [|done].
        intros y [<-|Hy]; [done | by apply H1].
    + apply Nat.ltb_ge in E.
      destruct (IH _ Hr) as [[-> Hle]|(l1 & l2 & -> & Hlt & H1 & H2)].
      * left. split; [done|]. intros y [<-|Hy]; [done | by apply Hle].
      * right. exists (a :: l1), l2. split; [done|]. split; [done|]. split; [|done].
        intros y [<-|Hy]; [lia | by apply H1].
Qed.

Lemma py_max_from_first {A} (key : A -> nat) (l : list A) (b r : A) :
  py_max_from Nat.ltb key b l = r ->
  exists l1 l2, b :: l = l1 ++ r :: l2
    /\ (forall y, In y l1 -> (key y < key r)%nat)
    /\ (forall y, In y l2 -> (key y <= key r)%nat).
Proof.
  intros [[-> Hle]|(l1 & l2 & -> & Hlt & H1 & H2)]%py_max_from_cases.
  - exists [], l. split; [done|]. split; [intros ? [] | done].
  - exists (b :: l1), l2. split; [done|]. split; [|done].
    intros y [<-|Hy]; [done | by apply H1].
Qed.

Lemma Counter_first_mode (x : Q) (l : list Q) item items :
  Counter Qeq_bool (x :: l) = item :: items ->
  first_mode (x :: l) (fst (py_max_from Nat.ltb snd item items)).
Proof.
  intros Hc.
  destruct (py_max_from Nat.ltb snd item items) as [k n] eqn:Er.
  destruct (py_max_from_first snd items item _ Er) as (c1 & c2 & Hsplit & Hlt & Hle).
  cbn [fst snd] in *.
  rewrite <- Hc in Hsplit.
  destruct (Counter_spec (x :: l)) as [Hspec Hall].
  destruct (Hspec _ _ _ _ Hsplit) as (Hn & pre & post & Hl & Hpre).
  assert (Hcount : forall k' n', In (k', n') (Counter Qeq_bool (x :: l)) ->
            n' = occurrences k' (x :: l)).
  { intros k' n' Hin. apply in_split in Hin as (d1 & d2 & Hd).
    by destruct (Hspec _ _ _ _ Hd). }
  exists pre, post. split; [done|]. split.
  - intros s Hs. destruct (Hpre s Hs) as (k' & n' & Hin & Hks).
    rewrite <- (occurrences_eq _ _ _ Hks), <- Hn.
    rewrite <- (Hcount k' n'); [apply (Hlt _ Hin)|].
    rewrite Hsplit. apply in_or_app. by left.
  - intros s Hs. destruct (Hall s Hs) as (k' & n' & Hin & Hks).
    rewrite <- (occurrences_eq _ _ _ Hks), <- Hn, <- (Hcount k' n' Hin).
    rewrite Hsplit in Hin. apply in_app_or in Hin as [Hin|[[= -> ->]|Hin]].
    + apply Nat.lt_le_incl, (Hlt _ Hin).
    + done.
    + apply (Hle _ Hin).
Qed.

Lemma analyze_body_first_mode (b : Block.t) (bs : list Block.t) :
  first_mode (map Block.font_size (b :: bs))
    (FontAnalysis.body_font_size (_analyze_font_styles (b :: bs))).
Proof.
  unfold _analyze_font_styles. cbn [FontAnalysis.body_font_size map].
  rewrite Counter_cons. unfold most_common, nlargest.
  destruct (py_max_from Nat.ltb snd _ _) as [size n] eqn:E.
  change size with (fst (size, n)). rewrite <- E.
  apply Counter_first_mode. apply Counter_cons.
Qed.

Lemma core_body_first_mode (s : Q) (l : list Q) :
  first_mode (s :: l) (Core.body_text_size (s :: l)).
Proof.
  unfold Core.body_text_size, Core.size_counts.
  change (fold_left (fun counts size => counter_incr Qeq_bool size counts) (s :: l) [])
    with (Counter Qeq_bool (s :: l)).
  rewrite Counter_cons. apply Counter_first_mode. apply Counter_cons.
Qed.

(** C4 (amended).  On the empty span sequence the font profiler returns
    the default body size 12 (and raises nothing); on a non-empty one the
    body size is the most frequent font size and, when several sizes are
    as frequent, the one that occurs first in the span sequence.  The
    same holds of the body size of the module-style analyzer. *)
Theorem body_size_first_mode :
  FontAnalysis.body_font_size (_analyze_font_styles []) = 12%Q
  /\ (forall b bs,
        first_mode (map Block.font_size (b :: bs))
          (FontAnalysis.body_font_size (_analyze_font_styles (b :: bs))))
  /\ (forall (b : Core.Block.t) bs,
        first_mode (map Core.Block.font_size (b :: bs))
          (Core.body_text_size (map Core.Block.font_size (b :: bs)))).
Proof.
  split; [reflexivity|]. split; [apply analyze_body_first_mode|].
  intros b bs. apply core_body_first_mode.
Qed.

(** ** The title selector *)

Lemma Qlt_bool_iff a b : Qlt_bool a b = true <-> (a < b)%Q.
Proof.
  unfold Qlt_bool. rewrite negb_true_iff. split.
  - intros H. apply Qnot_le_lt. intros Hle. apply Qle_bool_iff in Hle. congruence.
  - intros H. apply not_true_iff_false. intros Hle. apply Qle_bool_iff in Hle.
    by apply Qlt_not_le in H.
Qed.

Lemma Qlt_bool_false a b : Qlt_bool a b = false <-> (b <= a)%Q.
Proof.
  unfold Qlt_bool. rewrite negb_false_iff. apply Qle_bool_iff.
Qed.

(** [max] on floats returns a greatest element. *)
Lemma py_max_Q (l : list Q) (s m : Q) :
  py_max_from Qlt_bool id s l = m ->
  In m (s :: l) /\ forall y, In y (s :: l) -> (y <= m)%Q.
Proof.
  unfold py_max_from, id. revert s. induction l as [|a l IH]; intros s; cbn [fold_left].
  - intros <-. split; [by left|]. intros y [<-|[]]. apply Qle_refl.
  - destruct (Qlt_bool s a) eqn:E; intros Hm.
    + apply Qlt_bool_iff in E. destruct (IH _ Hm) as [Hin Hmax]. split; [by right|].
      intros y [<-|Hy]; [|by apply Hmax].
      eapply Qle_trans; [apply Qlt_le_weak, E|]. apply Hmax. by left.
    + apply Qlt_bool_false in E. destruct (IH _ Hm) as [Hin Hmax]. split.
      * destruct Hin as [<-|Hin]; [by left | by right; right].
      * intros y [<-|[<-|Hy]].
        -- apply Hmax. by left.
        -- eapply Qle_trans; [exact E|]. apply Hmax. by left.
        -- apply Hmax. by right.
Qed.

Lemma largest_text_blocks_spec (candidates : list Block.t) (b : Block.t) :
  In b (largest_text_blocks candidates) <->
  In b candidates
  /\ forall b', In b' candidates ->
       (Block.font_size b' * (95 # 100) <= Block.font_size b)%Q.
Proof.
  unfold largest_text_blocks.
  destruct candidates as [|c cs]; [cbn; tauto|].
  cbn [map]. destruct (py_max_Q (map Block.font_size cs) (Block.font_size c) _ eq_refl)
    as [Hin Hmax].
  set (m := py_max_from Qlt_bool id (Block.font_size c) (map Block.font_size cs)) in *.
  change (Block.font_size c :: map Block.font_size cs)
    with (map Block.font_size (c :: cs)) in *.
  rewrite filter_In, Qle_bool_iff. split; intros [Hb Hsz]; (split; [done|]).
  - intros b' Hb'. eapply Qle_trans; [|exact Hsz].
    apply Qmult_le_compat_r; [|done]. apply Hmax. by apply in_map.
  - apply in_map_iff in Hin as (b' & <- & Hb'). by apply Hsz.
Qed.









(** ** The outline *)

Lemma for_each_defined {A B} (f : A -> result B) l :
  (forall a, In a l -> exists b, f a = Ok b) -> exists bs, for_each f l = Ok bs.
Proof.
  induction l as [|a l IH]; intros Hf; cbn; [eauto|].
  destruct (Hf a (or_introl eq_refl)) as [b ->].
  destruct IH as [bs ->]; [intros; apply Hf; by right|]. cbn. eauto.
Qed.

Lemma same_keys {A K} (key : A -> K) (l l' : list A) :
  length l' = length l ->
  (forall i h, l !! i = Some h -> exists h', l' !! i = Some h' /\ key h' = key h) ->
  map key l' = map key l.
Proof.
  revert l'. induction l as [|a l IH]; intros [|a' l'] Hlen Hk; try done.
  cbn. f_equal.
  - destruct (Hk 0%nat a eq_refl) as (h' & [= <-] & Hh). done.
  - apply IH; [by injection Hlen|]. intros i h Hi. apply (Hk (S i) h Hi).
Qed.

Lemma refine_keys hs :
  map heading_key (_refine_heading_hierarchy hs) = map heading_key hs.
Proof.
  apply same_keys; [apply refine_length|].
  intros i h Hi. eexists. split; [apply (refine_lookup _ _ _ Hi)|].
  by destruct (visit_cases (prev_of (length hs) (_refine_heading_hierarchy hs) i)
                 (next_of (length hs) hs i) h) as [->| ->].
Qed.

Lemma classify_sorted cands fa hs :
  _classify_heading_levels cands fa = Ok hs ->
  StronglySorted (fun a b => reading_order (heading_key a) (heading_key b)) hs.
Proof.
  unfold _classify_heading_levels. destruct cands as [|c cs]; [intros [= <-]; constructor|].
  unfold mbind, result_bind.
  destruct (for_each _ _) as [classified|e]; [|done]. intros [= <-].
  apply (StronglySorted_map heading_key reading_order). rewrite refine_keys.
  apply StronglySorted_map.
  eapply StronglySorted_weaken; [|apply (py_sort_sorted heading_le)].
  - intros a b H. by apply key_le_spec.
  - intros a b. apply key_le_total.
  - intros a b c'. apply key_le_trans.
Qed.

Lemma analyze_stats (b : Block.t) (bs : list Block.t) :
  exists stats, FontAnalysis.font_size_stats (_analyze_font_styles (b :: bs)) = Some stats.
Proof. unfold _analyze_font_styles. cbn [FontAnalysis.font_size_stats]. eauto. Qed.

Lemma analyze_body_nonzero (b : Block.t) (bs : list Block.t) :
  (forall b', In b' (b :: bs) -> ~ (Block.font_size b' == 0)%Q) ->
  ~ (FontAnalysis.body_font_size (_analyze_font_styles (b :: bs)) == 0)%Q.
Proof.
  intros Hnz. destruct (analyze_body_first_mode b bs) as (pre & post & Hsplit & _).
  assert (Hin : In (FontAnalysis.body_font_size (_analyze_font_styles (b :: bs)))
                  (map Block.font_size (b :: bs))).
  { rewrite Hsplit. apply in_or_app. right. by left. }
  apply in_map_iff in Hin as (b' & <- & Hb'). by apply Hnz.
Qed.

Lemma classify_defined cands fa :
  ~ (FontAnalysis.body_font_size fa == 0)%Q ->
  exists hs, _classify_heading_levels cands fa = Ok hs.
Proof.
  intros Hbody. unfold _classify_heading_levels. destruct cands as [|c cs]; [eauto|].
  destruct (for_each_defined (classify_block (FontAnalysis.body_font_size fa)) (c :: cs))
    as [hs ->]; [|cbn; eauto].
  intros c' _. unfold classify_block. rewrite (truediv_defined _ _ Hbody).
  unfold mbind, result_bind. destruct (level_scores _ _ _ _) as [[h1 h2] h3]. eauto.
Qed.

Lemma filter_defined text_blocks font_analysis stats :
  FontAnalysis.font_size_stats font_analysis = Some stats ->
  ~ (FontAnalysis.body_font_size font_analysis == 0)%Q ->
  exists out, _filter_heading_candidates text_blocks font_analysis = Ok out.
Proof.
  intros Hstats Hbody. unfold _filter_heading_candidates. rewrite Hstats.
  rewrite (for_each_pure _ (accepted (FontAnalysis.body_font_size font_analysis)
                              (Stats.average stats)))
    by (intros; by apply filter_block_accepted).
  unfold mbind, result_bind. eauto.
Qed.

(** The script pipeline returns an outline whenever no font size is zero. *)
Lemma extract_defined (text_blocks : list Block.t) :
  (forall b, In b text_blocks -> ~ (Block.font_size b == 0)%Q) ->
  exists outline, _extract_headings_from_blocks text_blocks = Ok outline.
Proof.
  intros Hnz. unfold _extract_headings_from_blocks.
  destruct text_blocks as [|b bs]; [eauto|].
  pose proof (analyze_body_nonzero b bs Hnz) as Hbody.
  destruct (analyze_stats b bs) as [stats Hstats].
  destruct (filter_defined (b :: bs) _ stats Hstats Hbody) as [out ->].
  unfold mbind, result_bind.
  destruct (classify_defined out _ Hbody) as [hs ->]. eauto.
Qed.

Lemma extract_classified (text_blocks : list Block.t) classified :
  classified_of text_blocks = Ok classified ->
  exists outline,
    _extract_headings_from_blocks text_blocks = Ok outline
    /\ Outline.headings outline = map final_heading (firstn 20 classified).
Proof.
  unfold classified_of, _extract_headings_from_blocks.
  destruct text_blocks as [|b bs]; [done|].
  unfold mbind, result_bind.
  destruct (_filter_heading_candidates _ _) as [cands|e]; [|done].
  intros ->. eauto.
Qed.

Lemma classified_of_sorted (text_blocks : list Block.t) classified :
  classified_of text_blocks = Ok classified ->
  StronglySorted (fun a b => reading_order (heading_key a) (heading_key b)) classified.
Proof.
  unfold classified_of, mbind, result_bind.
  destruct (_filter_heading_candidates _ _) as [cands|e]; [|done].
  apply classify_sorted.
Qed.

Lemma entry_key_final (h : Heading.t) : entry_key (final_heading h) = heading_key h.
Proof. done. Qed.

(** The outline of the script pipeline is in reading order: of two
    consecutive headings, the first is on an earlier page, or on the same
    page and no lower. *)
Lemma main_outline_sorted (text_blocks : list Block.t) (i : nat) (e1 e2 : Entry.t) :
  Outline.headings (structural_outline text_blocks) !! i = Some e1 ->
  Outline.headings (structural_outline text_blocks) !! (i + 1)%nat = Some e2 ->
  Entry.page e1 < Entry.page e2
  \/ (Entry.page e1 = Entry.page e2 /\ (snd (Entry.position e1) <= snd (Entry.position e2))%Q).
Proof.
  unfold structural_outline, _extract_headings_from_blocks.
  destruct text_blocks as [|b bs]; [done|].
  unfold mbind, result_bind.
  destruct (_filter_heading_candidates _ _) as [cands|e] eqn:Ef; [|done].
  destruct (_classify_heading_levels _ _) as [hs|e] eqn:Ec; [|done].
  cbn [Outline.headings]. intros He1 He2. apply classify_sorted in Ec.
  assert (Hs : StronglySorted reading_order
                 (map entry_key (map final_heading (firstn 20 hs)))).
  { rewrite map_map. rewrite (map_ext _ heading_key) by apply entry_key_final.
    apply StronglySorted_map.
    rewrite <- (firstn_skipn 20 hs) in Ec. by apply StronglySorted_app_inv in Ec as [? _]. }
  apply (proj1 (StronglySorted_map entry_key reading_order _)) in Hs.
  apply (StronglySorted_lookup _ _ i (i + 1)%nat e1 e2 Hs); [lia|done|done].
Qed.

(** ** The text normalizers *)

Lemma wide_not_diacritic (c : N) :
  between 65281 65374 c = true ->
  is_arabic_diacritic c = false /\ is_arabic_diacritic (c - 65248)%N = false.
Proof.
  unfold is_arabic_diacritic, between.
  rewrite andb_true_iff, !N.leb_le. intros [Hlo Hhi]. split.
  - replace (c <=? 1631)%N with false by (symmetry; apply N.leb_gt; lia).
    replace (c =? 1648)%N with false by (symmetry; apply N.eqb_neq; lia).
    replace (c <=? 1773)%N with false by (symmetry; apply N.leb_gt; lia).
    by rewrite !andb_false_r.
  - replace (1611 <=? c - 65248)%N with false by (symmetry; apply N.leb_gt; lia).
    replace (c - 65248 =? 1648)%N with false by (symmetry; apply N.eqb_neq; lia).
    replace (1750 <=? c - 65248)%N with false by (symmetry; apply N.leb_gt; lia).
    done.
Qed.

Lemma normalize_width_diacritics (text : str) :
  List.filter is_arabic_diacritic (MultilingualProcessor._normalize_width text)
  = List.filter is_arabic_diacritic text.
Proof.
  unfold MultilingualProcessor._normalize_width.
  induction text as [|c text IH]; [done|]. cbn [map List.filter]. rewrite IH.
  destruct (between 65281 65374 c) eqn:E; [|done].
  destruct (wide_not_diacritic c E) as [-> ->]. done.
Qed.

Lemma filter_no_diacritic (text : str) :
  List.filter is_arabic_diacritic
    (List.filter (fun c => negb (is_arabic_diacritic c)) text) = [].
Proof.
  induction text as [|c text IH]; [done|]. cbn.
  destruct (is_arabic_diacritic c) eqn:E; cbn; [done|]. by rewrite E.
Qed.

(** C9.  Both normalizers detect the script on the Unicode-normalized,
    space-collapsed and stripped text, and strip diacritics only after
    that and only when the script is Arabic (first normalizer) or Arabic
    or Hebrew (second normalizer).  For any other detected script,
    [unknown] included, the first returns the prepared text unchanged and
    the second keeps every Arabic diacritic of it, in order (it returns
    the prepared text unchanged unless the script is Chinese or Japanese,
    where it only narrows full-width characters). *)
Theorem normalize_text_diacritics :
  (forall NFC,
     MultilingualSupport.normalize_text NFC [] = []
     /\ forall c t,
          let text := c :: t in
          let prepared := MultilingualSupport.prepared NFC text in
          let script := MultilingualSupport.detect_script prepared in
          let normalized := MultilingualSupport.normalize_text NFC text in
          (script <> arabic -> normalized = prepared)
          /\ (script = arabic ->
                normalized = List.filter (fun c => negb (is_arabic_diacritic c)) prepared
                /\ List.filter is_arabic_diacritic normalized = [])
          /\ (normalized <> prepared -> script = arabic))
  /\ (forall NFKC NFD is_Mn,
        MultilingualProcessor.normalize_text NFKC NFD is_Mn [] = []
        /\ forall c t,
             let text := c :: t in
             let prepared := MultilingualProcessor.prepared NFKC text in
             let script := MultilingualProcessor.detect_script prepared in
             let normalized := MultilingualProcessor.normalize_text NFKC NFD is_Mn text in
             (script <> arabic -> script <> hebrew ->
                List.filter is_arabic_diacritic normalized
                = List.filter is_arabic_diacritic prepared)
             /\ (script <> arabic -> script <> hebrew ->
                 script <> chinese -> script <> japanese ->
                   normalized = prepared)
             /\ (script = arabic \/ script = hebrew ->
                   normalized = MultilingualProcessor._remove_diacritics NFD is_Mn prepared)).
Proof.
  split.
  - intros NFC. split; [done|]. intros c t text prepared script normalized.
    unfold normalized, MultilingualSupport.normalize_text, text.
    fold text. fold (MultilingualSupport.prepared NFC text). fold prepared. fold script.
    destruct (decide (script = arabic)) as [E|E].
    + rewrite bool_decide_eq_true_2 by done.
      split; [done|]. split; [|done]. intros _. split; [done|]. apply filter_no_diacritic.
    + rewrite bool_decide_eq_false_2 by done. repeat split; done.
  - intros NFKC NFD is_Mn. split; [done|]. intros c t text prepared script normalized.
    unfold normalized, MultilingualProcessor.normalize_text, text.
    fold text. fold (MultilingualProcessor.prepared NFKC text). fold prepared. fold script.
    destruct (decide (script = arabic)) as [Ea|Ea];
      [rewrite (bool_decide_eq_true_2 _ Ea) | rewrite (bool_decide_eq_false_2 _ Ea)];
    (destruct (decide (script = hebrew)) as [Eh|Eh];
      [rewrite (bool_decide_eq_true_2 _ Eh) | rewrite (bool_decide_eq_false_2 _ Eh)]);
    cbn [orb]; try (repeat split; done).
    destruct (decide (script = chinese)) as [Ec|Ec];
      [rewrite (bool_decide_eq_true_2 _ Ec) | rewrite (bool_decide_eq_false_2 _ Ec)];
    (destruct (decide (script = japanese)) as [Ej|Ej];
      [rewrite (bool_decide_eq_true_2 _ Ej) | rewrite (bool_decide_eq_false_2 _ Ej)]);
    cbn [orb]; repeat split; try done; try (intros; apply normalize_width_diacritics);
    intros [?|?]; done.
Qed.

(** The module-style analyzer keeps at most the configured number of
    headings, when that number is not negative. *)
Lemma core_outline_capped (config : Core.Config.t) (blocks : list Core.Block.t)
  (title : str) (headings : list (heading_level * str * Z)) :
  0 <= Core.Config.MAX_HEADINGS_PER_DOCUMENT config ->
  Core._identify_headings config blocks = Ok (title, headings) ->
  Z.of_nat (length headings) <= Core.Config.MAX_HEADINGS_PER_DOCUMENT config.
Proof.
  intros Hmax. unfold Core._identify_headings, mbind, result_bind.
  destruct blocks as [|b bs]; [intros [= <- <-]; cbn; lia|].
  destruct (for_each _ _) as [appended|e]; [|done]. intros [= <- <-].
  rewrite length_map. unfold slice_to.
  destruct (Z.leb_spec 0 (Core.Config.MAX_HEADINGS_PER_DOCUMENT config)); [|lia].
  pose proof (length_firstn (Z.to_nat (Core.Config.MAX_HEADINGS_PER_DOCUMENT config))
                (py_sort (fun a b => Core.key_le (Core.candidate_key a) (Core.candidate_key b))
                   (omap id appended))) as Hlen.
  rewrite Hlen. lia.
Qed.

(** C6 (amended).  The outline of the script pipeline never has more than
    20 headings, a fixed cap that no configuration changes and that lies
    within the default [max_headings_per_document] of 50; the headings
    are the first 20 classified ones in [(page, y)] order, so every
    retained heading comes no later in reading order than every dropped
    one; and the classified headings exist whenever the input is
    non-empty and no font size is zero. *)
Theorem outline_capped (text_blocks : list Block.t) :
  (length (Outline.headings (structural_outline text_blocks)) <= 20)%nat
  /\ Core.Config.MAX_HEADINGS_PER_DOCUMENT Core.Config.default = 50
  /\ (forall classified, classified_of text_blocks = Ok classified ->
        Outline.headings (structural_outline text_blocks)
        = map final_heading (firstn 20 classified)
        /\ forall kept dropped,
             In kept (firstn 20 classified) -> In dropped (skipn 20 classified) ->
             reading_order (heading_key kept) (heading_key dropped))
  /\ (text_blocks <> [] ->
      (forall b, In b text_blocks -> ~ (Block.font_size b == 0)%Q) ->
      exists classified, classified_of text_blocks = Ok classified).
Proof.
  split; [|split; [reflexivity|split]].
  - unfold structural_outline, _extract_headings_from_blocks, mbind, result_bind.
    destruct text_blocks as [|b bs]; [cbn; lia|].
    destruct (_filter_heading_candidates _ _) as [cands|e]; [|cbn; lia].
    destruct (_classify_heading_levels _ _) as [hs|e]; [|cbn; lia].
    cbn [Outline.headings]. rewrite length_map. apply firstn_le_length.
  - intros classified Hc. split.
    + destruct (extract_classified _ _ Hc) as (outline & He & Hh).
      unfold structural_outline. by rewrite He.
    + intros kept dropped Hk Hd. apply classified_of_sorted in Hc.
      rewrite <- (firstn_skipn 20 classified) in Hc.
      apply StronglySorted_app_inv in Hc as [_ Hc]. by apply Hc.
  - intros Hne Hnz. destruct text_blocks as [|b bs]; [done|].
    unfold classified_of, mbind, result_bind.
    pose proof (analyze_body_nonzero b bs Hnz) as Hbody.
    destruct (analyze_stats b bs) as [stats Hstats].
    destruct (filter_defined (b :: bs) _ stats Hstats Hbody) as [out ->].
    apply classify_defined, Hbody.
Qed.

(** ** Evaluations, counterexamples and witnesses *)


(** The one-hop cascade: the demotion of the H1 lets the H3 after it be
    promoted, although it was classified between an H1 and an H2. *)
Lemma refine_cascade_example :
  map Heading.level (_refine_heading_hierarchy cascade_input) = [H3; H2; H2; H2]
  /\ demoted cascade_input 1 /\ promoted cascade_input 2.
Proof. vm_compute. repeat split; reflexivity. Qed.







(** C4, counterexample.  The sizes 14 and 12 occur once each; the body
    size is 14, the first, not 12, the smallest. *)
Lemma body_size_tie_counterexample :
  FontAnalysis.body_font_size (_analyze_font_styles tied_sizes_doc) = 14%Q
  /\ occurrences 12 (map Block.font_size tied_sizes_doc)
     = occurrences 14 (map Block.font_size tied_sizes_doc)
  /\ ~ smallest_mode (map Block.font_size tied_sizes_doc)
         (FontAnalysis.body_font_size (_analyze_font_styles tied_sizes_doc)).
Proof.
  split; [vm_compute; reflexivity|]. split; [vm_compute; reflexivity|].
  intros (_ & _ & Hsmall).
  specialize (Hsmall 12%Q (or_intror (or_introl eq_refl)) eq_refl).
  vm_compute in Hsmall. by apply Hsmall.
Qed.

(** C6, counterexample.  With [max_headings_per_document] set to 1 the
    script pipeline still returns both headings. *)
Lemma outline_cap_counterexample :
  Core.Config.MAX_HEADINGS_PER_DOCUMENT one_heading_config = 1
  /\ length (Outline.headings (structural_outline two_headings_doc)) = 2%nat
  /\ ~ (Z.of_nat (length (Outline.headings (structural_outline two_headings_doc)))
        <= Core.Config.MAX_HEADINGS_PER_DOCUMENT one_heading_config).
Proof. vm_compute. repeat split; try reflexivity. intros H. by apply H. Qed.

(** C7, at the failing input.  The module-style analyzer sorts by page
    and then by decreasing font size: "second section" (18 pt, y = 200)
    comes out before "first section" (14 pt, y = 100) of the same page. *)
Theorem core_outline_order :
  Core._identify_headings Core.Config.default font_order_blocks
  = Ok (lit "Annual Report",
        [(H1, lit "second section", 0); (H2, lit "first section", 0)])
  /\ In (core_span "second section" 0 18 0 200) font_order_blocks
  /\ In (core_span "first section" 0 14 0 100) font_order_blocks
  /\ ~ reading_order (0, 200%Q) (0, 100%Q).
Proof.
  split; [vm_compute; reflexivity|].
  split; [right; right; by left|]. split; [right; by left|].
  intros [H|[_ H]]; vm_compute in H; [discriminate | by apply H].
Qed.

(** C8, at the failing input.  On the empty span sequence the script
    pipeline raises nothing and returns no heading, but its title is the
    empty string, in the outline and in the written JSON; the title
    selector alone and the module-style analyzer return
    ["Untitled Document"]. *)
Theorem empty_input_title :
  _extract_headings_from_blocks [] = Ok (Outline.mk [] [] None)
  /\ Outline.title (structural_outline []) = []
  /\ Outline.title (structural_outline []) <> untitled
  /\ _create_final_json_output (Outline.title (structural_outline []))
       (Outline.headings (structural_outline [])) = ([], [])
  /\ _identify_document_title [] = untitled
  /\ forall config, Core._identify_headings config [] = Ok (Core.untitled, []).
Proof. repeat split; try reflexivity. vm_compute. discriminate. Qed.

(** A Latin text with an Arabic diacritic keeps it in both normalizers
    (the text is already normalized, so the Unicode normal forms are the
    identity on it). *)
Lemma normalize_marked_latin :
  MultilingualSupport.normalize_text id marked_latin = marked_latin
  /\ MultilingualProcessor.normalize_text id id (fun _ => true) marked_latin = marked_latin.
Proof. vm_compute. split; reflexivity. Qed.
(** * Further properties *)

(** ** Errors of a loop *)

Lemma for_each_raise {A B} (f : A -> result B) (l : list A) (e : exn) :
  for_each f l = Raise e <->
  exists l1 a l2, l = l1 ++ a :: l2 /\ f a = Raise e
    /\ forall x, In x l1 -> exists b, f x = Ok b.
Proof.
  split.
  - induction l as [|a l IH]; cbn; [done|].
    unfold mbind, result_bind. destruct (f a) as [b|e'] eqn:Ea.
    + destruct (for_each f l) as [bs|e''] eqn:El; [done|]. intros [= ->].
      destruct (IH eq_refl) as (l1 & a' & l2 & -> & Ha' & Hok).
      exists (a :: l1), a', l2. split; [done|]. split; [done|].
      intros x [<-|Hx]; [eauto | by apply Hok].
    + intros [= ->]. exists [], a, l. split; [done|]. split; [done | intros ? []].
  - intros (l1 & a & l2 & -> & Ha & Hok).
    induction l1 as [|x l1 IH]; cbn; unfold mbind, result_bind.
    + by rewrite Ha.
    + destruct (Hok x (or_introl eq_refl)) as [b ->].
      rewrite IH; [done|]. intros y Hy. apply Hok. by right.
Qed.

Lemma for_each_Forall2 {A B} (f : A -> result B) (l : list A) (bs : list B) :
  for_each f l = Ok bs -> Forall2 (fun a b => f a = Ok b) l bs.
Proof.
  revert bs. induction l as [|a l IH]; intros bs; cbn.
  - intros [= <-]. constructor.
  - unfold mbind, result_bind. destruct (f a) as [b|e] eqn:Ea; [|done].
    destruct (for_each f l) as [bs'|e]; [|done]. intros [= <-].
    constructor; [done|]. by apply IH.
Qed.

(** ** Errors of the script pipeline *)

Lemma filter_block_zero_body body avg block :
  (body == 0)%Q ->
  filter_block body avg block
  = if reaches_scoring body avg block then Raise ZeroDivisionError else Ok None.
Proof.
  intros Hb. unfold filter_block, reaches_scoring, truediv.
  replace (Qeq_bool body 0) with true by (symmetry; by apply Qeq_bool_iff).
  unfold mbind, result_bind.
  destruct (length_ok (strip (Block.text block))); cbn [negb andb]; [|done].
  destruct (has_noise (strip (Block.text block))); cbn [negb andb]; [done|].
  by destruct (is_potential_heading body avg (Block.font_size block) (Block.is_bold block)).
Qed.

Lemma filter_raises_zero_body text_blocks font_analysis stats block :
  FontAnalysis.font_size_stats font_analysis = Some stats ->
  (FontAnalysis.body_font_size font_analysis == 0)%Q ->
  In block text_blocks ->
  reaches_scoring (FontAnalysis.body_font_size font_analysis)
    (Stats.average stats) block = true ->
  _filter_heading_candidates text_blocks font_analysis = Raise ZeroDivisionError.
Proof.
  intros Hs Hz Hin Hr. unfold _filter_heading_candidates. rewrite Hs.
  apply in_split in Hin as (l1 & l2 & ->).
  assert (Hraise : for_each
            (filter_block (FontAnalysis.body_font_size font_analysis)
               (Stats.average stats)) (l1 ++ block :: l2) = Raise ZeroDivisionError).
  { induction l1 as [|x l1 IH]; cbn; unfold mbind, result_bind.
    - by rewrite (filter_block_zero_body _ _ block Hz), Hr.
    - rewrite (filter_block_zero_body _ _ x Hz).
      destruct (reaches_scoring _ _ x); [done|]. by rewrite IH. }
  unfold mbind, result_bind. by rewrite Hraise.
Qed.

Lemma filter_raise_inv text_blocks font_analysis e :
  _filter_heading_candidates text_blocks font_analysis = Raise e ->
  (FontAnalysis.font_size_stats font_analysis = None /\ e = KeyError)
  \/ (exists stats block,
        FontAnalysis.font_size_stats font_analysis = Some stats
        /\ e = ZeroDivisionError
        /\ (FontAnalysis.body_font_size font_analysis == 0)%Q
        /\ In block text_blocks
        /\ reaches_scoring (FontAnalysis.body_font_size font_analysis)
             (Stats.average stats) block = true).
Proof.
  unfold _filter_heading_candidates.
  destruct (FontAnalysis.font_size_stats font_analysis) as [stats|] eqn:Hs.
  - unfold mbind, result_bind.
    destruct (Qeq_dec (FontAnalysis.body_font_size font_analysis) 0) as [Hz|Hnz].
    + destruct (for_each _ text_blocks) as [out|e'] eqn:Ef; [done|].
      apply for_each_raise in Ef as (l1 & a & l2 & -> & Ha & _).
      rewrite (filter_block_zero_body _ _ a Hz) in Ha.
      destruct (reaches_scoring _ _ a) eqn:Hr; [|done]. injection Ha as <-.
      intros [= <-]. right. exists stats, a. repeat split; auto.
      apply in_or_app. right. by left.
    + rewrite (for_each_pure _ (accepted (FontAnalysis.body_font_size font_analysis)
                                  (Stats.average stats)))
        by (intros; by apply filter_block_accepted).
      done.
  - intros [= <-]. by left.
Qed.

(** X1.  The candidate filter fails in two ways only: with [KeyError] on a
    font profile without statistics (the profile of the empty input), and
    with [ZeroDivisionError] when the body size is zero and some block
    passes the length, noise and potential-heading tests. *)
Theorem filter_candidates_errors
  (text_blocks : list Block.t) (font_analysis : FontAnalysis.t) (e : exn) :
  _filter_heading_candidates text_blocks font_analysis = Raise e <->
  (FontAnalysis.font_size_stats font_analysis = None /\ e = KeyError)
  \/ (exists stats block,
        FontAnalysis.font_size_stats font_analysis = Some stats
        /\ e = ZeroDivisionError
        /\ (FontAnalysis.body_font_size font_analysis == 0)%Q
        /\ In block text_blocks
        /\ reaches_scoring (FontAnalysis.body_font_size font_analysis)
             (Stats.average stats) block = true).
Proof.
  split; [apply filter_raise_inv|].
  intros [[Hnone ->]|(stats & block & Hs & -> & Hz & Hin & Hr)].
  - unfold _filter_heading_candidates. by rewrite Hnone.
  - by apply (filter_raises_zero_body _ _ stats block).
Qed.

Lemma filter_zero_body_no_candidates text_blocks font_analysis out :
  (FontAnalysis.body_font_size font_analysis == 0)%Q ->
  _filter_heading_candidates text_blocks font_analysis = Ok out -> out = [].
Proof.
  intros Hz. unfold _filter_heading_candidates.
  destruct (FontAnalysis.font_size_stats font_analysis) as [stats|]; [|done].
  unfold mbind, result_bind.
  destruct (for_each _ text_blocks) as [appended|e] eqn:Ef; [|done].
  intros [= <-]. apply for_each_Forall2 in Ef.
  assert (Hnone : omap id appended = []).
  { induction Ef as [|b o bs os Hb _ IH]; [done|].
    rewrite (filter_block_zero_body _ _ b Hz) in Hb.
    destruct (reaches_scoring _ _ b); [done|]. injection Hb as <-. exact IH. }
  by rewrite Hnone.
Qed.

(** X2.  The script pipeline raises exactly when the body size (the most
    frequent font size) is zero and some block passes the length, noise and
    potential-heading tests; the exception is [ZeroDivisionError].
    [analyze_pdf_structure] then returns the error outline, and in every
    other case the outline of the document. *)
Theorem extract_headings_errors (text_blocks : list Block.t) (e : exn) :
  let font_analysis := _analyze_font_styles text_blocks in
  let failing :=
    (FontAnalysis.body_font_size font_analysis == 0)%Q
    /\ exists stats block,
         FontAnalysis.font_size_stats font_analysis = Some stats
         /\ In block text_blocks
         /\ reaches_scoring (FontAnalysis.body_font_size font_analysis)
              (Stats.average stats) block = true in
  (_extract_headings_from_blocks text_blocks = Raise e <->
     e = ZeroDivisionError /\ failing)
  /\ (failing -> structural_outline text_blocks = Outline.mk error_title [] None)
  /\ (~ failing -> exists outline,
        _extract_headings_from_blocks text_blocks = Ok outline
        /\ structural_outline text_blocks = outline).
Proof.
  intros font_analysis failing.
  assert (Hchar : forall e, _extract_headings_from_blocks text_blocks = Raise e <->
                    e = ZeroDivisionError /\ failing).
  { intros e'. unfold _extract_headings_from_blocks.
    destruct text_blocks as [|b bs].
    { split; [done|]. intros (_ & _ & _ & block & _ & [] & _). }
    fold font_analysis. unfold mbind, result_bind.
    destruct (_filter_heading_candidates (b :: bs) font_analysis) as [cands|e''] eqn:Ef.
    - destruct (Qeq_dec (FontAnalysis.body_font_size font_analysis) 0) as [Hz|Hnz].
      + rewrite (filter_zero_body_no_candidates _ _ _ Hz Ef). cbn.
        split; [done|]. intros (_ & _ & stats & block & Hs & Hin & Hr).
        rewrite (filter_raises_zero_body _ _ stats block Hs Hz Hin Hr) in Ef. done.
      + destruct (classify_defined cands font_analysis Hnz) as [hs ->].
        split; [done|]. intros (_ & Hz & _). done.
    - destruct (filter_raise_inv _ _ _ Ef)
        as [[Hnone _]|(stats & block & Hs & -> & Hz & Hin & Hr)].
      + destruct (analyze_stats b bs) as [stats Hs]. fold font_analysis in Hs. congruence.
      + split.
        * intros [= <-]. split; [done|]. split; [done|]. exists stats, block. auto.
        * intros [-> _]. done. }
  split; [apply Hchar|]. split.
  - intros Hf. unfold structural_outline.
    rewrite (proj2 (Hchar ZeroDivisionError)); [done|]. by split.
  - intros Hnf. unfold structural_outline.
    destruct (_extract_headings_from_blocks text_blocks) as [o|e'] eqn:Ee; [eauto|].
    destruct (proj1 (Hchar e') eq_refl) as [_ Hf]. done.
Qed.

(** ** Rounding *)

Lemma hundredths_le_l (m : Z) (q : Q) :
  (inject_Z m / 100 <= q)%Q -> (inject_Z m <= q * 100)%Q.
Proof.
  intros H.
  assert (E : (inject_Z m == inject_Z m / 100 * 100)%Q) by field.
  rewrite E. apply Qmult_le_compat_r; [exact H|]. discriminate.
Qed.

Lemma hundredths_le_r (m : Z) (q : Q) :
  (q <= inject_Z m / 100)%Q -> (q * 100 <= inject_Z m)%Q.
Proof.
  intros H.
  assert (E : (inject_Z m == inject_Z m / 100 * 100)%Q) by field.
  rewrite E. apply Qmult_le_compat_r; [exact H|]. discriminate.
Qed.

Lemma hundredths_mono (m n : Z) : m <= n -> (inject_Z m / 100 <= inject_Z n / 100)%Q.
Proof.
  intros H. apply Qmult_le_compat_r; [by rewrite <- Zle_Qle|]. discriminate.
Qed.

Lemma round2_lower (m : Z) (q : Q) :
  (inject_Z m / 100 <= q)%Q -> (inject_Z m / 100 <= round2 q)%Q.
Proof.
  intros H. unfold round2. apply hundredths_le_l in H.
  assert (Hf : m <= Qfloor (q * 100)).
  { rewrite <- (Qfloor_Z m). by apply Qfloor_resp_le. }
  set (f := Qfloor (q * 100)) in *.
  apply hundredths_mono.
  destruct (Qlt_bool _ (1 # 2)); [lia|].
  destruct (Qlt_bool (1 # 2) _); [lia|].
  destruct (Z.even f); lia.
Qed.

Lemma round2_upper (m : Z) (q : Q) :
  (q <= inject_Z m / 100)%Q -> (round2 q <= inject_Z m / 100)%Q.
Proof.
  intros H. unfold round2. apply hundredths_le_r in H.
  assert (Hf : Qfloor (q * 100) <= m).
  { rewrite <- (Qfloor_Z m). by apply Qfloor_resp_le. }
  pose proof (Qfloor_le (q * 100)) as Hlo.
  apply hundredths_mono.
  destruct (Z.eq_dec (Qfloor (q * 100)) m) as [Heq|Hne].
  - assert (Hr : (q * 100 - inject_Z (Qfloor (q * 100)) <= 0)%Q) by (rewrite Heq; lra).
    destruct (Qlt_bool (q * 100 - inject_Z (Qfloor (q * 100))) (1 # 2)) eqn:E; [lia|].
    apply Qlt_bool_false in E. lra.
  - destruct (Qlt_bool _ (1 # 2)); [lia|].
    destruct (Qlt_bool (1 # 2) _); [lia|].
    destruct (Z.even _); lia.
Qed.

(** ** The candidates *)

Lemma heading_score_of_upper size_ratio block text :
  (heading_score_of size_ratio block text <= 113)%Q.
Proof.
  rewrite heading_score_of_factors. unfold factor, Qmin_py.
  assert (Hmin : ((if Qlt_bool ((size_ratio - 1) * 20) 40
                   then (size_ratio - 1) * 20 else 40) <= 40)%Q).
  { destruct (Qlt_bool _ 40) eqn:E; [|lra]. apply Qlt_bool_iff in E. lra. }
  assert (Hw : (0 <= inject_Z (Z.of_nat (length (split text))))%Q).
  { rewrite <- (Zle_Qle 0). lia. }
  destruct (Block.is_bold block), (length (split text) <=? 8)%nat,
    (Qlt_bool (Position.y (Block.position block)) 200),
    (negb (existsb (fun e => endswith e text) sentence_endings)),
    (isupper text && (3 <? length text)%nat && (length text <? 50)%nat),
    (isdigit (remove_char 32 (before_first dot text))); lra.
Qed.

(** X3.  When the candidate filter returns, its output is in reading order
    (by page, then by [y]), holds at most one candidate per input block,
    each built on an input block, and every stored score lies between 25 and
    113: rounding to two decimals never takes a score below the threshold. *)
Theorem filter_candidates_sorted
  (text_blocks : list Block.t) (font_analysis : FontAnalysis.t) (out : list Candidate.t) :
  _filter_heading_candidates text_blocks font_analysis = Ok out ->
  StronglySorted (fun a b => reading_order (candidate_key a) (candidate_key b)) out
  /\ (length out <= length text_blocks)%nat
  /\ forall c, In c out ->
       In (Candidate.block c) text_blocks
       /\ (25 <= Candidate.heading_score c <= 113)%Q.
Proof.
  unfold _filter_heading_candidates.
  destruct (FontAnalysis.font_size_stats font_analysis) as [stats|]; [|done].
  unfold mbind, result_bind.
  destruct (for_each _ text_blocks) as [appended|e] eqn:Ef; [|done].
  intros [= <-]. apply for_each_Forall2 in Ef.
  split; [|split].
  - eapply StronglySorted_weaken;
      [|apply (py_sort_sorted (fun a b => key_le (candidate_key a) (candidate_key b)))].
    + intros a b H. by apply key_le_spec.
    + intros a b. apply key_le_total.
    + intros a b c. apply key_le_trans.
  - rewrite py_sort_length. clear -Ef.
    induction Ef as [|b o bs os _ _ IH]; [done|].
    destruct o; cbn; lia.
  - intros c Hc. apply py_sort_In, In_omap_id in Hc.
    assert (Hb : exists block, In block text_blocks
               /\ filter_block (FontAnalysis.body_font_size font_analysis)
                    (Stats.average stats) block = Ok (Some c)).
    { clear -Ef Hc. induction Ef as [|b o bs os Hb _ IH]; [done|].
      destruct Hc as [->|Hc].
      - exists b. split; [by left|done].
      - destruct (IH Hc) as (block & Hin & Hblock). exists block. split; [by right|done]. }
    destruct Hb as (block & Hin & Hblock). unfold filter_block in Hblock.
    destruct (negb (length_ok _)); [done|].
    destruct (has_noise _); [done|].
    destruct (is_potential_heading _ _ _ _); [|done].
    unfold mbind, result_bind in Hblock.
    destruct (truediv _ _) as [size_ratio|]; [|done].
    destruct (Qle_bool 25 _) eqn:Escore; [|done].
    injection Hblock as <-. cbn [Candidate.block Candidate.heading_score].
    split; [done|]. apply Qle_bool_iff in Escore. split.
    + eapply Qle_trans; [|apply (round2_lower 2500)]; [discriminate|].
      eapply Qle_trans; [|exact Escore]. discriminate.
    + eapply Qle_trans; [apply (round2_upper 11300)|discriminate].
      eapply Qle_trans; [apply heading_score_of_upper|discriminate].
Qed.

(** ** The classifier *)

Lemma classify_block_zero_body body c :
  (body == 0)%Q -> classify_block body c = Raise ZeroDivisionError.
Proof.
  intros Hz. unfold classify_block, truediv.
  by replace (Qeq_bool body 0) with true by (symmetry; by apply Qeq_bool_iff).
Qed.

Lemma classify_block_carried body c h :
  classify_block body c = Ok h ->
  carried_of_heading h = carried_of_candidate c
  /\ Scores.final (Heading.classification_scores h) = top_score (Heading.classification_scores h)
  /\ (Heading.size_ratio h == round2 (Heading.font_size h / body))%Q
  /\ exists size_ratio,
       (Heading.classification_scores h).(Scores.h1) =
         (level_scores (Heading.text h) (Heading.is_bold h)
            (Position.y (Heading.position h)) size_ratio).1.1
       /\ (Heading.classification_scores h).(Scores.h2) =
         (level_scores (Heading.text h) (Heading.is_bold h)
            (Position.y (Heading.position h)) size_ratio).1.2
       /\ (Heading.classification_scores h).(Scores.h3) =
         (level_scores (Heading.text h) (Heading.is_bold h)
            (Position.y (Heading.position h)) size_ratio).2.
Proof.
  unfold classify_block, truediv. destruct (Qeq_bool body 0); [done|].
  unfold mbind, result_bind.
  destruct (level_scores _ _ _ _) as [[h1 h2] h3] eqn:Es. intros [= <-].
  cbn [Heading.classification_scores Heading.text Heading.is_bold Heading.position
       Heading.size_ratio Heading.font_size Scores.final Scores.h1 Scores.h2 Scores.h3].
  split; [done|]. split; [done|]. split; [reflexivity|].
  eexists. rewrite Es. done.
Qed.

Lemma add_ok d1 d2 d3 s :
  (0 <= d1 /\ (5 | d1)) -> (0 <= d2 /\ (5 | d2)) -> (0 <= d3 /\ (5 | d3)) ->
  tally_ok s -> tally_ok (add d1 d2 d3 s).
Proof.
  destruct s as [[a b] c]. unfold tally_ok, add.
  intros [? ?] [? ?] [? ?] ([? ?] & [? ?] & [? ?]).
  repeat split; try lia; by apply Z.divide_add_r.
Qed.

Lemma add_matches_ok d1 d2 d3 patterns text_lower s :
  (0 <= d1 /\ (5 | d1)) -> (0 <= d2 /\ (5 | d2)) -> (0 <= d3 /\ (5 | d3)) ->
  tally_ok s -> tally_ok (add_matches d1 d2 d3 patterns text_lower s).
Proof.
  intros H1 H2 H3. unfold add_matches. revert s.
  induction patterns as [|p ps IH]; intros s Hs; cbn [fold_left]; [done|].
  apply IH. destruct (contains p text_lower); [by apply add_ok|done].
Qed.

Lemma points_ok (d : Z) : (0 <=? d) && (d mod 5 =? 0) = true -> 0 <= d /\ (5 | d).
Proof.
  intros H. apply andb_true_iff in H as [H1 H2].
  split; [lia|]. apply Z.mod_divide; lia.
Qed.

Lemma tally_let (v : tally) (k : tally -> tally) :
  tally_ok v -> (forall s, tally_ok s -> tally_ok (k s)) -> tally_ok (let s := v in k s).
Proof. intros Hv Hk. by apply Hk. Qed.

Lemma other_let {A} (v : A) (k : A -> tally) :
  (forall x, tally_ok (k x)) -> tally_ok (let x := v in k x).
Proof. intros Hk. apply Hk. Qed.

Ltac tally_stage :=
  repeat first
    [ assumption
    | apply add_ok; [by apply points_ok|by apply points_ok|by apply points_ok|]
    | apply add_matches_ok; [by apply points_ok|by apply points_ok|by apply points_ok|]
    | match goal with |- tally_ok (if ?b then _ else _) => destruct b end ].

Lemma level_scores_ok text is_bold position_y size_ratio :
  tally_ok (level_scores text is_bold position_y size_ratio).
Proof.
  assert (H0 : tally_ok (0, 0, 0)) by (unfold tally_ok; repeat split; try lia; by exists 0).
  cbv beta delta [level_scores].
  repeat match goal with
  | |- tally_ok (let s := ?v in @?k s) =>
      first [ refine (tally_let v k _ _); [tally_stage|clear; intros ? ?]
            | refine (other_let v k _); intros ? ]
  end.
  assumption.
Qed.

Lemma refine_carried hs :
  map carried_of_heading (_refine_heading_hierarchy hs) = map carried_of_heading hs.
Proof.
  apply same_keys; [apply refine_length|].
  intros i h Hi. eexists. split; [apply (refine_lookup _ _ _ Hi)|].
  by destruct (visit_cases (prev_of (length hs) (_refine_heading_hierarchy hs) i)
                 (next_of (length hs) hs i) h) as [->| ->].
Qed.

Lemma refine_scores hs :
  map Heading.classification_scores (_refine_heading_hierarchy hs)
  = map Heading.classification_scores hs.
Proof.
  apply same_keys; [apply refine_length|].
  intros i h Hi. eexists. split; [apply (refine_lookup _ _ _ Hi)|].
  by destruct (visit_cases (prev_of (length hs) (_refine_heading_hierarchy hs) i)
                 (next_of (length hs) hs i) h) as [->| ->].
Qed.

Lemma Forall2_map_eq {A B C} (f : A -> C) (g : B -> C) (P : A -> B -> Prop) l l' :
  (forall a b, P a b -> g b = f a) -> Forall2 P l l' -> map g l' = map f l.
Proof.
  intros Hfg H. induction H as [|a b l l' Hab _ IH]; [done|].
  cbn. by rewrite (Hfg a b Hab), IH.
Qed.

Lemma classify_levels_perm heading_candidates font_analysis hs :
  _classify_heading_levels heading_candidates font_analysis = Ok hs ->
  Permutation (map carried_of_heading hs) (map carried_of_candidate heading_candidates).
Proof.
  unfold _classify_heading_levels.
  destruct heading_candidates as [|c cs]; [by intros [= <-]|].
  unfold mbind, result_bind.
  destruct (for_each _ (c :: cs)) as [classified|e] eqn:Ef; [|done].
  intros [= <-]. apply for_each_Forall2 in Ef.
  rewrite refine_carried.
  rewrite (Permutation_map carried_of_heading
             (py_sort_perm (fun a b => key_le (heading_key a) (heading_key b)) classified)).
  erewrite (Forall2_map_eq carried_of_candidate carried_of_heading); [done| |exact Ef].
  intros a b Hab. by apply classify_block_carried in Hab as [-> _].
Qed.

(** X4.  When the level classifier returns, it returns one heading per
    candidate: the headings carry the stripped text, page, position, font
    size, boldness and heading score of the candidates, in some order; and
    in every heading the three level scores are non-negative multiples of 5,
    with their maximum recorded as the final score. *)
Theorem classify_levels_carried
  (heading_candidates : list Candidate.t) (font_analysis : FontAnalysis.t)
  (hs : list Heading.t) :
  _classify_heading_levels heading_candidates font_analysis = Ok hs ->
  Permutation (map carried_of_heading hs) (map carried_of_candidate heading_candidates)
  /\ forall h, In h hs ->
       let s := Heading.classification_scores h in
       tally_ok (Scores.h1 s, Scores.h2 s, Scores.h3 s)
       /\ Scores.final s = Z.max (Z.max (Scores.h1 s) (Scores.h2 s)) (Scores.h3 s).
Proof.
  intros Hc. split; [exact (classify_levels_perm _ _ _ Hc)|]. revert Hc.
  unfold _classify_heading_levels.
  destruct heading_candidates as [|c cs]; [intros [= <-] h []|].
  unfold mbind, result_bind.
  destruct (for_each _ (c :: cs)) as [classified|e] eqn:Ef; [|done].
  intros [= <-]. apply for_each_Forall2 in Ef.
  - intros h Hh.
    apply (in_map Heading.classification_scores) in Hh. rewrite refine_scores in Hh.
    apply in_map_iff in Hh as (h0 & <- & Hh0). apply py_sort_In in Hh0.
    assert (Hc : exists c0, classify_block (FontAnalysis.body_font_size font_analysis) c0 = Ok h0).
    { clear -Ef Hh0. induction Ef as [|a b l l' Hab _ IH]; [done|].
      destruct Hh0 as [->|Hh0]; eauto. }
    destruct Hc as [c0 Hc0].
    apply classify_block_carried in Hc0 as (_ & Hfinal & _ & r & E1 & E2 & E3).
    cbv zeta. split; [|exact Hfinal].
    rewrite E1, E2, E3. pose proof (level_scores_ok (Heading.text h0) (Heading.is_bold h0)
      (Position.y (Heading.position h0)) r) as Hok.
    by destruct (level_scores _ _ _ _) as [[a b] c'].
Qed.

(** X5.  The level classifier raises exactly when it is given at least one
    candidate and the body size is zero, and then with [ZeroDivisionError];
    on no candidate it returns the empty list whatever the font profile. *)
Theorem classify_levels_errors
  (heading_candidates : list Candidate.t) (font_analysis : FontAnalysis.t) (e : exn) :
  _classify_heading_levels heading_candidates font_analysis = Raise e <->
  e = ZeroDivisionError /\ heading_candidates <> []
  /\ (FontAnalysis.body_font_size font_analysis == 0)%Q.
Proof.
  destruct (Qeq_dec (FontAnalysis.body_font_size font_analysis) 0) as [Hz|Hnz].
  - unfold _classify_heading_levels. destruct heading_candidates as [|c cs].
    + split; [done|]. by intros (_ & ? & _).
    + cbn [for_each]. rewrite (classify_block_zero_body _ c Hz).
      unfold mbind, result_bind. split; [by intros [= <-]|]. by intros [-> _].
  - destruct (classify_defined heading_candidates font_analysis Hnz) as [hs ->].
    split; [done|]. by intros (_ & _ & ?).
Qed.

(** ** The title and the outline *)

Lemma title_step_inv patterns (large : list Block.t) (st : str * Q) (l : list Block.t) :
  (forall b, In b l -> In b large) ->
  (fst st = [] \/ exists b, In b large /\ fst st = strip (Block.text b) /\ fst st <> []) ->
  let st' := fold_left (title_step patterns) l st in
  fst st' = [] \/ exists b, In b large /\ fst st' = strip (Block.text b) /\ fst st' <> [].
Proof.
  revert st. induction l as [|a l IH]; intros st Hsub Hst; [exact Hst|].
  cbn [fold_left]. apply IH; [intros b Hb; apply Hsub; by right|].
  unfold title_step. destruct st as [best_title best_score].
  destruct (negb (title_length_ok (strip (Block.text a)))) eqn:El; [exact Hst|].
  destruct (existsb _ patterns); [exact Hst|].
  destruct (Qlt_bool best_score _); [|exact Hst].
  right. exists a. split; [apply Hsub; by left|]. split; [done|].
  cbn [fst]. apply negb_false_iff in El. unfold title_length_ok in El.
  destruct (strip (Block.text a)); [done|done].
Qed.

Lemma identify_title_cases (text_blocks : list Block.t) :
  _identify_document_title text_blocks <> []
  /\ (_identify_document_title text_blocks = untitled
      \/ exists block,
           In block text_blocks /\ Block.page_number block <= 2
           /\ _identify_document_title text_blocks = strip (Block.text block)).
Proof.
  assert (Hu : untitled <> []) by done.
  unfold _identify_document_title, identify_title_with.
  destruct text_blocks as [|b0 bs]; [split; [done|by left]|].
  set (text_blocks := b0 :: bs).
  destruct (List.filter _ text_blocks) as [|c cs] eqn:Ec; [split; [done|by left]|].
  set (large := largest_text_blocks (c :: cs)).
  assert (Hlarge : forall b, In b large -> In b text_blocks /\ Block.page_number b <= 2).
  { intros b Hb. apply largest_text_blocks_spec in Hb as [Hb _].
    rewrite <- Ec in Hb. apply filter_In in Hb as [Hb Hp]. split; [done|lia]. }
  pose proof (title_step_inv non_title_patterns large ([], 0%Q) large
                (fun b Hb => Hb) (or_introl eq_refl)) as Hinv.
  cbv zeta in Hinv.
  destruct (fold_left (title_step non_title_patterns) large ([], 0%Q))
    as [best_title best_score].
  cbn [fst] in Hinv. destruct Hinv as [->|(b & Hb & -> & Hne)].
  - destruct large as [|first rest] eqn:El; [split; [done|by left]|].
    destruct (strip (Block.text first)) as [|ch t] eqn:Es; [split; [done|by left]|].
    split; [done|]. right. exists first. rewrite Es.
    destruct (Hlarge first) as [H1 H2]; [by left|]. done.
  - destruct (Hlarge b Hb) as [H1 H2].
    destruct (strip (Block.text b)) as [|ch t] eqn:Es; [done|].
    split; [by destruct large|]. right. exists b. rewrite Es. by destruct large.
Qed.

(** X6.  The title selector never returns the empty string, whatever the
    page numbers and font sizes of the input: its result is ["Untitled
    Document"] or the stripped text of a block of pages up to 2, and that
    text has at least one character. *)
Theorem identify_title_nonempty (text_blocks : list Block.t) :
  (0 < length (_identify_document_title text_blocks))%nat
  /\ (_identify_document_title text_blocks = untitled
      \/ exists block,
           In block text_blocks /\ Block.page_number block <= 2
           /\ _identify_document_title text_blocks = strip (Block.text block)).
Proof.
  destruct (identify_title_cases text_blocks) as [Hne Hcases]. split; [|exact Hcases].
  destruct (_identify_document_title text_blocks); [done|cbn; lia].
Qed.

Lemma In_firstn {A} (n : nat) (l : list A) (x : A) : In x (firstn n l) -> In x l.
Proof.
  intros H. rewrite <- (firstn_skipn n l). apply in_or_app. by left.
Qed.

Lemma filter_block_Some body avg block c :
  filter_block body avg block = Ok (Some c) ->
  Candidate.block c = block /\ reaches_scoring body avg block = true.
Proof.
  unfold filter_block, reaches_scoring.
  destruct (length_ok _); cbn [negb andb]; [|done].
  destruct (has_noise _); cbn [negb andb]; [done|].
  destruct (is_potential_heading _ _ _ _); [|done].
  unfold mbind, result_bind. destruct (truediv _ _); [|done].
  destruct (Qle_bool 25 _); [|done]. by intros [= <-].
Qed.

Lemma filter_candidate_block text_blocks font_analysis out c :
  _filter_heading_candidates text_blocks font_analysis = Ok out ->
  In c out ->
  exists stats,
    FontAnalysis.font_size_stats font_analysis = Some stats
    /\ In (Candidate.block c) text_blocks
    /\ reaches_scoring (FontAnalysis.body_font_size font_analysis)
         (Stats.average stats) (Candidate.block c) = true.
Proof.
  unfold _filter_heading_candidates.
  destruct (FontAnalysis.font_size_stats font_analysis) as [stats|]; [|done].
  unfold mbind, result_bind.
  destruct (for_each _ text_blocks) as [appended|e] eqn:Ef; [|done].
  intros [= <-] Hc. apply for_each_Forall2 in Ef.
  apply py_sort_In, In_omap_id in Hc. exists stats. split; [done|].
  induction Ef as [|b o bs os Hb _ IH]; [done|].
  destruct Hc as [->|Hc].
  - apply filter_block_Some in Hb as [-> Hr]. split; [by left|done].
  - destruct (IH Hc) as [Hin Hr]. split; [by right|done].
Qed.

Lemma reaches_scoring_text body avg block :
  reaches_scoring body avg block = true ->
  (3 <= length (strip (Block.text block)) <= 200)%nat
  /\ has_noise (strip (Block.text block)) = false.
Proof.
  unfold reaches_scoring. intros H.
  apply andb_true_iff in H as [H _]. apply andb_true_iff in H as [Hl Hn].
  apply length_ok_spec in Hl. by apply negb_true_iff in Hn.
Qed.

Lemma outline_entry_block (text_blocks : list Block.t) (entry : Entry.t) :
  In entry (Outline.headings (structural_outline text_blocks)) ->
  exists block,
    In block text_blocks
    /\ Entry.text entry = strip (Block.text block)
    /\ Entry.page entry = Block.page_number block
    /\ Entry.position entry
       = (Position.x (Block.position block), Position.y (Block.position block))
    /\ (3 <= length (Entry.text entry) <= 200)%nat
    /\ has_noise (Entry.text entry) = false.
Proof.
  unfold structural_outline, _extract_headings_from_blocks.
  destruct text_blocks as [|b0 bs]; [intros []|].
  set (text_blocks := b0 :: bs). unfold mbind, result_bind.
  destruct (_filter_heading_candidates _ _) as [cands|e] eqn:Ef; [|intros []].
  destruct (_classify_heading_levels _ _) as [hs|e] eqn:Ec; [|intros []].
  cbn [Outline.headings]. intros Hentry.
  apply in_map_iff in Hentry as (h & <- & Hh). apply In_firstn in Hh.
  pose proof (classify_levels_perm _ _ _ Ec) as Hperm.
  apply (in_map carried_of_heading) in Hh.
  apply (Permutation_in _ Hperm) in Hh. apply in_map_iff in Hh as (c & Hc & Hin).
  destruct (filter_candidate_block _ _ _ _ Ef Hin) as (stats & _ & Hblock & Hr).
  apply reaches_scoring_text in Hr as [Hlen Hnoise].
  exists (Candidate.block c). unfold carried_of_candidate, carried_of_heading in Hc.
  injection Hc as Ht Hp Hpos _ _ _.
  unfold final_heading. cbn [Entry.text Entry.page Entry.position].
  rewrite <- Ht, <- Hp, <- Hpos. done.
Qed.

(** X7.  Every heading of the outline of a document comes from one of its
    text blocks: it has the stripped text of the block, its page and its
    position, and the text has 3 to 200 characters and no noise marker. The
    title of the outline is empty exactly when the document has no text
    block. *)
Theorem outline_from_blocks (text_blocks : list Block.t) :
  let outline := structural_outline text_blocks in
  (forall entry, In entry (Outline.headings outline) ->
     exists block,
       In block text_blocks
       /\ Entry.text entry = strip (Block.text block)
       /\ Entry.page entry = Block.page_number block
       /\ Entry.position entry
          = (Position.x (Block.position block), Position.y (Block.position block))
       /\ (3 <= length (Entry.text entry) <= 200)%nat
       /\ has_noise (Entry.text entry) = false)
  /\ (Outline.title outline = [] <-> text_blocks = []).
Proof.
  cbv zeta. split; [apply outline_entry_block|].
  unfold structural_outline, _extract_headings_from_blocks.
  destruct text_blocks as [|b0 bs]; [done|].
  set (text_blocks := b0 :: bs). unfold mbind, result_bind.
  destruct (_filter_heading_candidates _ _) as [cands|e]; [|done].
  destruct (_classify_heading_levels _ _) as [hs|e]; [|done].
  cbn [Outline.title]. split; [|done]. intros Ht.
  by destruct (identify_title_cases text_blocks) as [Hne _].
Qed.

(** ** Strings *)

Lemma lstrip_head s c t : lstrip s = c :: t -> is_space c = false.
Proof.
  induction s as [|a s IH]; cbn; [done|].
  destruct (is_space a) eqn:E; [exact IH|]. by intros [= <- _].
Qed.

Lemma lstrip_fixed c t : is_space c = false -> lstrip (c :: t) = c :: t.
Proof. intros H. cbn. by rewrite H. Qed.

Lemma lstrip_snoc l c : is_space c = false -> lstrip (l ++ [c]) = lstrip l ++ [c].
Proof.
  intros H. induction l as [|a l IH]; cbn; [by rewrite H|].
  by destruct (is_space a).
Qed.

Lemma rstrip_cons c t : is_space c = false -> rstrip (c :: t) = c :: rstrip t.
Proof.
  intros H. unfold rstrip. cbn [rev]. rewrite (lstrip_snoc _ _ H).
  by rewrite rev_app_distr.
Qed.

Lemma lstrip_idem s : lstrip (lstrip s) = lstrip s.
Proof.
  destruct (lstrip s) as [|c t] eqn:E; [done|].
  apply lstrip_fixed. by apply (lstrip_head s c t).
Qed.

Lemma rstrip_idem s : rstrip (rstrip s) = rstrip s.
Proof. unfold rstrip. by rewrite rev_involutive, lstrip_idem. Qed.

Lemma strip_idem s : strip (strip s) = strip s.
Proof.
  unfold strip. destruct (lstrip s) as [|c t] eqn:E; [done|].
  pose proof (lstrip_head s c t E) as Hc.
  rewrite (rstrip_cons c t Hc), (lstrip_fixed c _ Hc), <- (rstrip_cons c t Hc).
  apply rstrip_idem.
Qed.

(** ** Reading the document *)

Lemma appended_by_app {A B} (f : A -> option (option B)) l1 l2 :
  appended_by f (l1 ++ l2)
  = (x ← appended_by f l1; y ← appended_by f l2; Some (x ++ y)).
Proof.
  unfold appended_by. induction l1 as [|a l1 IH]; cbn.
  - destruct (mapM f l2); done.
  - destruct (f a) as [o|]; cbn; [|done].
    cbn in IH. destruct (mapM f (l1 ++ l2)) as [r|]; cbn in *.
    + destruct (mapM f l1) as [r1|]; cbn in *; [|done].
      destruct (mapM f l2) as [r2|]; cbn in *; [|done].
      injection IH as IH. destruct o; cbn; by rewrite IH.
    + destruct (mapM f l1) as [r1|]; cbn in *; [|done].
      destruct (mapM f l2) as [r2|]; cbn in *; done.
Qed.

Lemma mapM_cons {A B} (f : A -> option B) a l :
  mapM f (a :: l) = (y ← f a; k ← mapM f l; Some (y :: k)).
Proof. done. Qed.

Lemma appended_by_concat {A B C} (f : A -> option (option B)) (h : C -> list A) l :
  (per ← mapM (fun c => appended_by f (h c)) l; Some (concat per))
  = appended_by f (concat (map h l)).
Proof.
  induction l as [|c l IH]; [done|].
  cbn [map concat]. rewrite appended_by_app, <- IH, mapM_cons.
  destruct (appended_by f (h c)) as [x|]; [|done].
  destruct (mapM _ l) as [per|]; done.
Qed.

Lemma mapM_map {A B C} (f : A -> option B) (g : C -> A) l :
  mapM f (map g l) = mapM (fun c => f (g c)) l.
Proof.
  induction l as [|c l IH]; [done|].
  cbn [map]. by rewrite !mapM_cons, IH.
Qed.

Lemma appended_by_map {A B C} (f : A -> option (option B)) (g : C -> A) l :
  appended_by f (map g l) = appended_by (fun c => f (g c)) l.
Proof. unfold appended_by. by rewrite mapM_map. Qed.

Lemma mapM_pointwise {A B} (f g : A -> option B) l :
  (forall a, In a l -> f a = g a) -> mapM f l = mapM g l.
Proof.
  induction l as [|a l IH]; intros H; cbn; [done|].
  rewrite (H a) by (by left). rewrite IH; [done|]. intros; apply H; by right.
Qed.

Lemma line_text_blocks_flat page_num line :
  line_text_blocks page_num line = appended_by (text_block_of page_num) (Line.spans line).
Proof. done. Qed.

Lemma block_text_blocks_flat page_num block :
  block_text_blocks page_num block
  = appended_by (text_block_of page_num) (block_spans block).
Proof.
  unfold block_text_blocks, block_spans.
  destruct (PageBlock.lines block) as [lines|]; [|done].
  by rewrite <- (appended_by_concat (text_block_of page_num) Line.spans).
Qed.

Lemma page_text_blocks_flat page_num page :
  page_text_blocks page_num page = appended_by (text_block_of page_num) (page_spans page).
Proof.
  unfold page_text_blocks, page_spans.
  rewrite <- (appended_by_concat (text_block_of page_num) block_spans).
  rewrite (mapM_pointwise (block_text_blocks page_num)
             (fun c => appended_by (text_block_of page_num) (block_spans c))); [done|].
  intros; apply block_text_blocks_flat.
Qed.

Lemma imap_pair_map {A B} (h : nat * A -> B) (k : nat -> nat) (l : list A) :
  imap (fun i x => h (k i, x)) l = map h (imap (fun i x => (k i, x)) l).
Proof.
  revert k. induction l as [|x l IH]; intros k; [done|].
  cbn [imap map]. f_equal. apply (IH (fun i => k (S i))).
Qed.

Lemma extract_text_blocks_flat doc :
  _extract_text_blocks doc
  = match appended_by (fun '(page_num, span) => text_block_of page_num span)
            (document_spans doc) with
    | Some text_blocks => text_blocks
    | None => []
    end.
Proof.
  unfold _extract_text_blocks, document_spans.
  rewrite (imap_pair_map (fun '(page_num, page) => map (pair page_num) (page_spans page))
             (fun i => i) doc).
  rewrite <- (appended_by_concat (fun '(page_num, span) => text_block_of page_num span)
                (fun '(page_num, page) => map (pair page_num) (page_spans page))).
  rewrite (mapM_pointwise
             (fun c => appended_by (fun '(page_num, span) => text_block_of page_num span)
                         (let '(page_num, page) := c in map (pair page_num) (page_spans page)))
             (fun '(page_num, page) => page_text_blocks page_num page)).
  - by destruct (mapM _ (imap _ doc)).
  - intros [page_num page] _. by rewrite appended_by_map, page_text_blocks_flat.
Qed.

Lemma bold_flag (font_flags : Z) :
  negb (Z.land font_flags 16 =? 0) = Z.testbit font_flags 4.
Proof.
  destruct (Z.testbit font_flags 4) eqn:E.
  - apply negb_true_iff, Z.eqb_neq. intros H.
    assert (Hb : Z.testbit (Z.land font_flags 16) 4 = true).
    { rewrite Z.land_spec, E. done. }
    rewrite H in Hb. done.
  - apply negb_false_iff, Z.eqb_eq. apply Z.bits_inj'. intros n Hn.
    rewrite Z.land_spec, Z.bits_0. change 16 with (2 ^ 4).
    rewrite Z.pow2_bits_eqb by lia.
    destruct (Z.eqb_spec 4 n) as [<-|]; [by rewrite E|apply andb_false_r].
Qed.

Lemma text_block_of_cases page_num span :
  text_block_of page_num span
  = if unreadable span then None
    else if visible span then Some (Some (block_of_span (page_num, span)))
    else Some None.
Proof.
  unfold text_block_of, unreadable, visible, block_of_span, span_position.
  destruct (strip (Span.text span)) as [|c t]; [done|]. cbn [andb].
  rewrite bold_flag.
  destruct (Span.bbox span) as [bbox|]; [|done].
  cbn [default].
  destruct bbox as [|x0 [|y0 [|x1 [|y1 rest]]]]; done.
Qed.

Lemma appended_by_raises {A B} (f : A -> option (option B)) l x :
  In x l -> f x = None -> appended_by f l = None.
Proof.
  intros Hin Hx. apply in_split in Hin as (l1 & l2 & ->).
  rewrite appended_by_app.
  destruct (appended_by f l1); [|done].
  unfold appended_by. by rewrite mapM_cons, Hx.
Qed.

Lemma appended_by_returns {A B} (f : A -> option (option B)) (g : A -> B)
  (keep : A -> bool) l :
  (forall x, In x l -> f x = if keep x then Some (Some (g x)) else Some None) ->
  appended_by f l = Some (map g (List.filter keep l)).
Proof.
  unfold appended_by. induction l as [|x l IH]; intros H; [done|].
  rewrite mapM_cons, (H x) by (by left).
  assert (IH' := IH (fun y Hy => H y (or_intror Hy))).
  destruct (mapM f l) as [r|]; [|done]. injection IH' as IH'.
  cbn [List.filter]. destruct (keep x); cbn; by rewrite IH'.
Qed.

Lemma extract_text_blocks_cases doc :
  (exists item, In item (document_spans doc) /\ unreadable (snd item) = true)
  /\ _extract_text_blocks doc = []
  \/ (forall item, In item (document_spans doc) -> unreadable (snd item) = false)
     /\ _extract_text_blocks doc
        = map block_of_span (List.filter (fun item => visible (snd item)) (document_spans doc)).
Proof.
  rewrite extract_text_blocks_flat.
  destruct (existsb (fun item => unreadable (snd item)) (document_spans doc)) eqn:E.
  - left. apply existsb_exists in E as ([page_num span] & Hin & Hu).
    split; [by exists (page_num, span)|].
    rewrite (appended_by_raises _ _ (page_num, span) Hin); [done|].
    cbn in Hu. by rewrite text_block_of_cases, Hu.
  - right.
    assert (Hall : forall item, In item (document_spans doc) -> unreadable (snd item) = false).
    { intros item Hin. apply not_true_iff_false. intros Hu.
      apply not_true_iff_false in E. apply E. apply existsb_exists. eauto. }
    split; [done|].
    rewrite (appended_by_returns _ block_of_span (fun item => visible (snd item))); [done|].
    intros [page_num span] Hin. rewrite text_block_of_cases.
    pose proof (Hall _ Hin) as Hr. cbn [snd] in *. by rewrite Hr.
Qed.

Lemma imap_spans_bound {A B} (h : A -> list B) (k : nat) (l : list A) n x :
  In (n, x) (concat (imap (fun i a => map (pair (k + i)%nat) (h a)) l)) ->
  (k <= n < k + length l)%nat.
Proof.
  revert k. induction l as [|a l IH]; intros k; [done|].
  cbn [imap concat]. intros Hin. apply in_app_or in Hin as [Hin|Hin].
  - apply in_map_iff in Hin as (y & [= <- <-] & _). cbn. lia.
  - assert (Hin' : In (n, x)
        (concat (imap (fun i a => map (pair (S k + i)%nat) (h a)) l))).
    { erewrite imap_ext; [exact Hin|]. intros i y _. cbn. by rewrite Nat.add_succ_r. }
    apply IH in Hin'. cbn. lia.
Qed.

Lemma imap_spans_sorted {A B} (h : A -> list B) (k : nat) (l : list A) :
  StronglySorted (fun a b => (fst a <= fst b)%nat)
    (concat (imap (fun i a => map (pair (k + i)%nat) (h a)) l)).
Proof.
  revert k. induction l as [|a l IH]; intros k; [constructor|].
  cbn [imap concat].
  assert (Htail : StronglySorted (fun a b => (fst a <= fst b)%nat)
            (concat (imap (fun i a => map (pair (S k + i)%nat) (h a)) l))) by apply IH.
  assert (Hbound : forall n x,
            In (n, x) (concat (imap ((fun i a => map (pair (k + i)%nat) (h a)) ∘ S) l)) ->
            (S k <= n)%nat).
  { intros n x Hin.
    assert (Hin' : In (n, x)
        (concat (imap (fun i a => map (pair (S k + i)%nat) (h a)) l))).
    { erewrite imap_ext; [exact Hin|]. intros i y _. cbn. by rewrite Nat.add_succ_r. }
    apply imap_spans_bound in Hin'. lia. }
  assert (Htail' : StronglySorted (fun a b => (fst a <= fst b)%nat)
            (concat (imap ((fun i a => map (pair (k + i)%nat) (h a)) ∘ S) l))).
  { erewrite imap_ext; [exact Htail|]. intros i y _. cbn. by rewrite Nat.add_succ_r. }
  induction (h a) as [|b bs IHb]; [exact Htail'|].
  cbn [map app]. constructor; [exact IHb|].
  apply List.Forall_forall. intros [n x] Hin. cbn [fst].
  apply in_app_or in Hin as [Hin|Hin].
  - apply in_map_iff in Hin as (y & [= <- <-] & _). lia.
  - apply Hbound in Hin. lia.
Qed.

Lemma document_spans_bound doc n span :
  In (n, span) (document_spans doc) -> (n < length doc)%nat.
Proof.
  intros H. apply (imap_spans_bound page_spans 0 doc n span) in H. lia.
Qed.

Lemma document_spans_sorted doc :
  StronglySorted (fun a b => (fst a <= fst b)%nat) (document_spans doc).
Proof. apply (imap_spans_sorted page_spans 0 doc). Qed.

Lemma StronglySorted_filter {A} (R : A -> A -> Prop) (p : A -> bool) l :
  StronglySorted R l -> StronglySorted R (List.filter p l).
Proof.
  induction 1 as [|a l Hs IH Hall]; cbn; [constructor|].
  destruct (p a); [|exact IH]. constructor; [exact IH|].
  apply List.Forall_forall. intros x Hx. apply filter_In in Hx as [Hx _].
  by apply (proj1 (List.Forall_forall _ _) Hall).
Qed.

(** X8.  [_extract_text_blocks] gives all or nothing. If some span with
    visible text has a bounding box with fewer than four coordinates, the
    result is empty, whatever else the document holds. Otherwise the result
    has one block per span with visible text, in the order of the pages,
    blocks, lines and spans: with the stripped text, the rounded size, the
    font, the page counted from 1, the rounded position, and bold exactly
    when bit 4 of the flags is set. *)
Theorem extract_text_blocks_all_or_nothing (doc : list Page.t) :
  ((exists page_num span,
      In (page_num, span) (document_spans doc) /\ unreadable span = true) ->
   _extract_text_blocks doc = [])
  /\ ((forall page_num span,
         In (page_num, span) (document_spans doc) -> unreadable span = false) ->
      _extract_text_blocks doc
      = map block_of_span
          (List.filter (fun item => visible (snd item)) (document_spans doc))).
Proof.
  destruct (extract_text_blocks_cases doc) as [[(item & Hin & Hu) ->]|[Hall ->]].
  - split; [done|]. intros Hall. destruct item as [page_num span].
    pose proof (Hall _ _ Hin) as Hr. cbn [snd] in Hu. congruence.
  - split; [|done]. intros (page_num & span & Hin & Hu).
    pose proof (Hall _ Hin) as Hr. cbn [snd] in Hr. congruence.
Qed.

(** X9.  Every block that [_extract_text_blocks] returns has a non-empty
    text without leading or trailing white space, so that stripping it again
    changes nothing, and a page number from 1 to the number of pages; and
    the blocks come in non-decreasing page order. *)
Theorem extract_text_blocks_wellformed (doc : list Page.t) :
  (forall block, In block (_extract_text_blocks doc) ->
     Block.text block <> []
     /\ strip (Block.text block) = Block.text block
     /\ 1 <= Block.page_number block <= Z.of_nat (length doc))
  /\ StronglySorted (fun a b => Block.page_number a <= Block.page_number b)
       (_extract_text_blocks doc).
Proof.
  destruct (extract_text_blocks_cases doc) as [[_ ->]|[_ ->]];
    [split; [intros b []|constructor]|].
  split.
  - intros block Hin. apply in_map_iff in Hin as ([n span] & <- & Hin).
    apply filter_In in Hin as [Hin Hv]. cbn [snd] in Hv.
    apply document_spans_bound in Hin.
    cbn [block_of_span Block.text Block.page_number].
    split; [|split; [apply strip_idem|lia]].
    unfold visible in Hv. by destruct (strip (Span.text span)).
  - apply StronglySorted_map.
    eapply StronglySorted_weaken;
      [|apply StronglySorted_filter, document_spans_sorted].
    intros [n1 s1] [n2 s2] H. cbn in *. lia.
Qed.

(** ** The analysis of a file and the batch *)

Lemma filter_none {A} (p : A -> bool) (l : list A) :
  (forall x, In x l -> p x = false) -> List.filter p l = [].
Proof.
  induction l as [|a l IH]; intros H; [done|].
  cbn. rewrite (H a) by (by left). apply IH. intros; apply H; by right.
Qed.

(** X10.  A document in which no span has visible text, or in which some
    visible span has an unreadable bounding box, is analysed without an
    error being reported: the result has the number of pages, no text block,
    and the outline with the empty title and no heading, which is what
    [save_result] writes. *)
Theorem analyze_without_text (doc : list Page.t) :
  (forall page_num span, In (page_num, span) (document_spans doc) -> visible span = false)
  \/ (exists page_num span,
        In (page_num, span) (document_spans doc) /\ unreadable span = true) ->
  analyze_pdf_structure (Some doc)
  = Analysis.mk (length doc) [] (Outline.mk [] [] None) false 0 []
  /\ save_result (analyze_pdf_structure (Some doc)) true = Some ([], []).
Proof.
  intros H.
  assert (He : _extract_text_blocks doc = []).
  { destruct (extract_text_blocks_cases doc) as [[_ ->]|[Hall He]]; [done|].
    destruct H as [Hnone|(page_num & span & Hin & Hu)].
    - rewrite He, filter_none; [done|]. intros [n s] Hin. by apply (Hnone n s).
    - pose proof (Hall _ Hin) as Hr. cbn [snd] in Hr. congruence. }
  unfold analyze_pdf_structure. rewrite He. done.
Qed.

Lemma process_fold (pdf_files : list File.t) processed_count error_count written :
  fold_left process_step pdf_files (processed_count, error_count, written)
  = ((processed_count + length (List.filter File.writable pdf_files))%nat,
     (error_count + length (List.filter (fun f => negb (File.writable f)) pdf_files))%nat,
     written ++ map json_of (List.filter File.writable pdf_files)).
Proof.
  revert processed_count error_count written.
  induction pdf_files as [|f fs IH]; intros p e w.
  - cbn [fold_left List.filter length map]. by rewrite !Nat.add_0_r, app_nil_r.
  - cbn [fold_left List.filter]. unfold process_step at 2, save_result.
    destruct (File.writable f); cbn [negb].
    + rewrite IH. cbn [length map]. by rewrite <- app_assoc, <- Nat.add_succ_comm.
    + rewrite IH. cbn [length]. by rewrite <- Nat.add_succ_comm.
Qed.

(** X11.  [process_all_pdfs] counts a file as processed exactly when its
    JSON file can be written, and as an error otherwise: a file that cannot
    be opened or analysed is processed like any other, with the error
    outline as its JSON. The two counts add up to the number of files, the
    JSON files are those of the writable files in order, the success rate is
    absent exactly on an empty directory, and [main] exits with 0 exactly
    when every JSON file could be written. *)
Theorem process_all_pdfs_counts (pdf_files : list File.t) :
  let summary := fst (process_all_pdfs pdf_files) in
  let written := snd (process_all_pdfs pdf_files) in
  Summary.total_files summary = length pdf_files
  /\ Summary.processed summary = length (List.filter File.writable pdf_files)
  /\ (Summary.processed summary + Summary.errors summary)%nat = length pdf_files
  /\ written = map json_of (List.filter File.writable pdf_files)
  /\ (Summary.success_rate summary = None <-> pdf_files = [])
  /\ (main pdf_files = 0 <-> forall f, In f pdf_files -> File.writable f = true)
  /\ (forall f, In f pdf_files -> File.opened f = None -> json_of f = (error_title, [])).
Proof.
  assert (Hlen : forall l : list File.t,
            (length (List.filter File.writable l)
             + length (List.filter (fun f => negb (File.writable f)) l))%nat = length l).
  { induction l as [|f fs IH]; [done|]. cbn. destruct (File.writable f); cbn; lia. }
  assert (Herr : forall l : list File.t,
            length (List.filter (fun f => negb (File.writable f)) l) = 0%nat
            <-> forall f, In f l -> File.writable f = true).
  { induction l as [|f fs IH]; [done|]. cbn [List.filter]. split.
    - intros H f' [Heq|Hin].
      + subst f'. destruct (File.writable f); [done|]. cbn in H. lia.
      + apply IH; [|done]. destruct (negb (File.writable f)); [cbn in H; lia|done].
    - intros H. rewrite (H f) by (by left). cbn [negb]. apply IH.
      intros; apply H; by right. }
  unfold main. destruct pdf_files as [|f0 fs].
  - cbn. repeat split; try done; intros; done.
  - set (pdf_files := f0 :: fs). unfold process_all_pdfs. fold pdf_files.
    change (match pdf_files with [] => _ | _ :: _ => ?x end) with x.
    rewrite process_fold. cbn [fst snd app Nat.add].
    cbn [Summary.total_files Summary.processed Summary.errors Summary.success_rate].
    split; [done|]. split; [done|]. split; [apply Hlen|]. split; [done|].
    split; [done|]. split.
    + rewrite <- Herr.
      destruct (length (List.filter (fun f => negb (File.writable f)) pdf_files)); done.
    + intros f _ Ho. unfold json_of. by rewrite Ho.
Qed.

(** ** The module-style analyzer *)

Lemma str_eqb_eq (a b : str) : str_eqb a b = true <-> a = b.
Proof.
  unfold str_eqb. revert b. induction a as [|x a IH]; intros [|y b]; cbn; try done.
  rewrite andb_true_iff, Nat.eqb_eq in *. split.
  - intros [Hlen H]. apply andb_true_iff in H as [Hxy H]. apply N.eqb_eq in Hxy as ->.
    f_equal. apply IH. rewrite andb_true_iff, Nat.eqb_eq. done.
  - intros [= -> ->]. split; [done|]. rewrite N.eqb_refl. cbn.
    specialize (IH b). rewrite andb_true_iff in IH. by apply IH.
Qed.

Lemma core_heading_of_zero_body title body block :
  (body == 0)%Q ->
  Core.heading_of title body block
  = if str_eqb (Core.Block.text block) title then Ok None else Raise ZeroDivisionError.
Proof.
  intros Hz. unfold Core.heading_of, truediv.
  by replace (Qeq_bool body 0) with true by (symmetry; by apply Qeq_bool_iff).
Qed.

Lemma core_heading_of_defined title body block :
  ~ (body == 0)%Q -> exists o, Core.heading_of title body block = Ok o.
Proof.
  intros Hnz. unfold Core.heading_of. rewrite (truediv_defined _ _ Hnz).
  unfold mbind, result_bind. repeat case_match; eauto.
Qed.

Lemma core_identify_unfold config b bs :
  Core._identify_headings config (b :: bs)
  = (appended ← for_each (Core.heading_of (core_title (b :: bs))
                            (Core.body_text_size (map Core.Block.font_size (b :: bs))))
                  (b :: bs);
     Ok (core_title (b :: bs),
         map (fun heading =>
                (Core.Candidate.level heading, Core.Candidate.text heading,
                 Core.Candidate.page heading))
           (slice_to (Core.Config.MAX_HEADINGS_PER_DOCUMENT config)
              (py_sort (fun a b => Core.key_le (Core.candidate_key a) (Core.candidate_key b))
                 (omap id appended))))).
Proof. done. Qed.

(** X12.  The module-style analyzer raises exactly when the body size (the
    most frequent font size) is zero and some block has a text other than
    the title, and then with [ZeroDivisionError]: the division by the body
    size comes before every other test. *)
Theorem core_identify_errors
  (config : Core.Config.t) (blocks : list Core.Block.t) (e : exn) :
  Core._identify_headings config blocks = Raise e <->
  e = ZeroDivisionError
  /\ (Core.body_text_size (map Core.Block.font_size blocks) == 0)%Q
  /\ exists block, In block blocks /\ Core.Block.text block <> core_title blocks.
Proof.
  destruct blocks as [|b bs].
  { split; [done|]. intros (_ & _ & block & [] & _). }
  rewrite core_identify_unfold. set (blocks := b :: bs).
  set (body := Core.body_text_size (map Core.Block.font_size blocks)).
  unfold mbind, result_bind.
  destruct (for_each _ blocks) as [appended|e'] eqn:Ef.
  - split; [done|]. intros (_ & Hz & block & Hin & Hne).
    apply in_split in Hin as (l1 & l2 & Hsplit). rewrite Hsplit in Ef.
    assert (Hraise : exists e, for_each (Core.heading_of (core_title blocks) body)
                                 (l1 ++ block :: l2) = Raise e).
    { clear Ef Hsplit.
      induction l1 as [|x l1 IH]; cbn [app for_each]; unfold mbind, result_bind.
      - rewrite (core_heading_of_zero_body _ _ block Hz).
        destruct (str_eqb _ _) eqn:E; [by apply str_eqb_eq in E|eauto].
      - destruct (Core.heading_of _ _ x); [|eauto]. destruct IH as [e' ->]. eauto. }
    destruct Hraise as [e' He']. congruence.
  - apply for_each_raise in Ef as (l1 & a & l2 & Hsplit & Ha & _).
    destruct (Qeq_dec body 0) as [Hz|Hnz].
    + rewrite (core_heading_of_zero_body _ _ a Hz) in Ha.
      destruct (str_eqb _ _) eqn:E; [done|]. injection Ha as <-.
      split; [intros [= <-]|by intros [-> _]].
      split; [done|]. split; [done|]. exists a. split.
      * rewrite Hsplit. apply in_or_app. right. by left.
      * intros Heq. apply str_eqb_eq in Heq. congruence.
    + destruct (core_heading_of_defined (core_title blocks) body a Hnz) as [o Ho].
      congruence.
Qed.

Lemma py_max_from_Q_cases {A} (key : A -> Q) (l : list A) (b r : A) :
  py_max_from Qlt_bool key b l = r ->
  (r = b /\ forall y, In y l -> (key y <= key b)%Q)
  \/ exists l1 l2, l = l1 ++ r :: l2
       /\ (key b < key r)%Q
       /\ (forall y, In y l1 -> (key y < key r)%Q)
       /\ (forall y, In y l2 -> (key y <= key r)%Q).
Proof.
  unfold py_max_from. revert b. induction l as [|a l IH]; intros b; cbn [fold_left].
  - intros <-. left. split; [done | intros ? []].
  - destruct (Qlt_bool (key b) (key a)) eqn:E; intros Hr.
    + apply Qlt_bool_iff in E. right.
      destruct (IH _ Hr) as [[-> Hle]|(l1 & l2 & -> & Hlt & H1 & H2)].
      * exists [], l. split; [done|]. split; [done|]. split; [intros ? [] | done].
      * exists (a :: l1), l2. split; [done|]. split; [by eapply Qlt_trans|]. split; [|done].
        intros y [<-|Hy]; [done | by apply H1].
    + apply Qlt_bool_false in E.
      destruct (IH _ Hr) as [[-> Hle]|(l1 & l2 & -> & Hlt & H1 & H2)].
      * left. split; [done|]. intros y [<-|Hy]; [done | by apply Hle].
      * right. exists (a :: l1), l2. split; [done|]. split; [done|]. split; [|done].
        intros y [<-|Hy]; [by eapply Qle_lt_trans | by apply H1].
Qed.

Lemma py_max_from_Q_first {A} (key : A -> Q) (l : list A) (b r : A) :
  py_max_from Qlt_bool key b l = r ->
  exists l1 l2, b :: l = l1 ++ r :: l2
    /\ (forall y, In y l1 -> (key y < key r)%Q)
    /\ (forall y, In y l2 -> (key y <= key r)%Q).
Proof.
  intros [[-> Hle]|(l1 & l2 & -> & Hlt & H1 & H2)]%py_max_from_Q_cases.
  - exists [], l. split; [done|]. split; [intros ? [] | done].
  - exists (b :: l1), l2. split; [done|]. split; [|done].
    intros y [<-|Hy]; [done | by apply H1].
Qed.

Lemma StronglySorted_firstn {A} (R : A -> A -> Prop) (n : nat) (l : list A) :
  StronglySorted R l -> StronglySorted R (firstn n l).
Proof.
  intros H. rewrite <- (firstn_skipn n l) in H.
  by apply StronglySorted_app_inv in H as [H _].
Qed.

Lemma Forall2_In_right {A B} (P : A -> B -> Prop) l l' y :
  Forall2 P l l' -> In y l' -> exists x, In x l /\ P x y.
Proof.
  induction 1 as [|a b l l' Hab _ IH]; [done|].
  intros [<-|Hy]; [exists a; split; [by left|done]|].
  destruct (IH Hy) as (x & Hx & HP). exists x. split; [by right|done].
Qed.

Lemma core_heading_of_Some title body block c :
  Core.heading_of title body block = Ok (Some c) ->
  Core.Block.text block <> title
  /\ Core.Candidate.text c = strip (Core.Block.text block)
  /\ Core.Candidate.page c = Core.Block.page block.
Proof.
  unfold Core.heading_of.
  destruct (str_eqb _ _) eqn:E; [done|].
  assert (Hne : Core.Block.text block <> title).
  { intros Heq. apply str_eqb_eq in Heq. congruence. }
  unfold mbind, result_bind. destruct (truediv _ _); [|done].
  repeat case_match; intros [= <-]; done.
Qed.

(** X13.  When the module-style analyzer returns on a non-empty input, the
    title is the text of the first of the largest blocks of page 0, or
    ["Untitled Document"] when page 0 has no block; every heading comes from
    a block whose text differs from the title, with the stripped text and
    the page of the block; and the headings come in non-decreasing page
    order. *)
Theorem core_outline_from_blocks
  (config : Core.Config.t) (blocks : list Core.Block.t)
  (title : str) (headings : list (heading_level * str * Z)) :
  blocks <> [] ->
  Core._identify_headings config blocks = Ok (title, headings) ->
  let first_page_blocks := List.filter (fun b => Core.Block.page b =? 0) blocks in
  ((first_page_blocks = [] /\ title = Core.untitled)
   \/ exists before block after,
        first_page_blocks = before ++ block :: after
        /\ title = Core.Block.text block
        /\ (forall b, In b before -> (Core.Block.font_size b < Core.Block.font_size block)%Q)
        /\ (forall b, In b after -> (Core.Block.font_size b <= Core.Block.font_size block)%Q))
  /\ (forall level text page, In (level, text, page) headings ->
        exists block,
          In block blocks /\ Core.Block.text block <> title
          /\ text = strip (Core.Block.text block) /\ page = Core.Block.page block)
  /\ StronglySorted (fun a b => snd a <= snd b) headings.
Proof.
  intros Hne. destruct blocks as [|b0 bs]; [done|]. clear Hne.
  rewrite core_identify_unfold. set (blocks := b0 :: bs).
  unfold mbind, result_bind.
  destruct (for_each _ blocks) as [appended|e] eqn:Ef; [|done].
  intros [= <- <-]. cbv zeta. split; [|split].
  - unfold core_title.
    destruct (List.filter _ blocks) as [|b rest]; [by left|]. right.
    destruct (py_max_from_Q_first Core.Block.font_size rest b _ eq_refl)
      as (l1 & l2 & Hsplit & H1 & H2).
    exists l1, (py_max_from Qlt_bool Core.Block.font_size b rest), l2. done.
  - intros level text page Hin. apply in_map_iff in Hin as (c & [= <- <- <-] & Hc).
    assert (Hc' : In c (omap id appended)).
    { apply (py_sort_In (fun a b => Core.key_le (Core.candidate_key a) (Core.candidate_key b))).
      unfold slice_to in Hc. destruct (0 <=? _); by apply In_firstn in Hc. }
    apply In_omap_id in Hc'. apply for_each_Forall2 in Ef.
    destruct (Forall2_In_right _ _ _ _ Ef Hc') as (block & Hin & Hblock).
    apply core_heading_of_Some in Hblock as (H1 & H2 & H3).
    exists block. done.
  - apply (StronglySorted_map
             (fun heading => (Core.Candidate.level heading, Core.Candidate.text heading,
                              Core.Candidate.page heading))
             (fun a b => snd a <= snd b)).
    assert (Hs : StronglySorted
                   (fun a b => Core.Candidate.page a <= Core.Candidate.page b)
                   (py_sort (fun a b => Core.key_le (Core.candidate_key a) (Core.candidate_key b))
                      (omap id appended))).
    { eapply StronglySorted_weaken;
        [|apply (py_sort_sorted
                   (fun a b => Core.key_le (Core.candidate_key a) (Core.candidate_key b)))].
      - intros a b H. apply key_le_spec in H. cbn in H. lia.
      - intros a b. apply key_le_total.
      - intros a b c. apply key_le_trans. }
    unfold slice_to. destruct (0 <=? _); by apply StronglySorted_firstn.
Qed.

Lemma appended_length {A B} (P : A -> option B -> Prop) l (l' : list (option B)) :
  Forall2 P l l' -> (length (omap id l') <= length l)%nat.
Proof.
  induction 1 as [|a o l l' _ _ IH]; [done|]. destruct o; cbn; lia.
Qed.

Lemma map_slice_to {A B} (f : A -> B) (n : Z) (l : list A) :
  map f (slice_to n l) = slice_to n (map f l).
Proof.
  unfold slice_to. rewrite length_map. destruct (0 <=? n); symmetry; apply firstn_map.
Qed.

(** X14.  The cap of the module-style analyzer is the slice
    [[:max_headings]] of the headings in order: with the cap set to the
    number of blocks every heading is kept, and any other cap [m] keeps the
    first [m] of those when [m] is not negative, and drops the last [-m] of
    them when it is negative. *)
Theorem core_cap_is_slice
  (blocks : list Core.Block.t) (title : str) (all : list (heading_level * str * Z))
  (threshold threshold' m : Z) :
  Core._identify_headings (Core.Config.mk (Z.of_nat (length blocks)) threshold) blocks
  = Ok (title, all) ->
  Core._identify_headings (Core.Config.mk m threshold') blocks
  = Ok (title, slice_to m all)
  /\ (0 <= m -> length (slice_to m all) = Nat.min (Z.to_nat m) (length all))
  /\ (m < 0 -> length (slice_to m all) = (length all - Z.to_nat (- m))%nat).
Proof.
  intros H. split.
  - destruct blocks as [|b0 bs].
    { injection H as <- <-. unfold slice_to. destruct (0 <=? m); by rewrite firstn_nil. }
    revert H. rewrite !core_identify_unfold. set (blocks := b0 :: bs).
    unfold mbind, result_bind.
    destruct (for_each _ blocks) as [appended|e] eqn:Ef; [|done].
    cbn [Core.Config.MAX_HEADINGS_PER_DOCUMENT]. intros [= <- <-].
    do 2 f_equal. rewrite map_slice_to. f_equal.
    unfold slice_to at 1. destruct (Z.leb_spec 0 (Z.of_nat (length blocks))); [|lia].
    rewrite Nat2Z.id, firstn_all2; [done|].
    rewrite py_sort_length. apply for_each_Forall2 in Ef.
    apply (appended_length _ _ _ Ef).
  - unfold slice_to. split; intros Hm.
    + destruct (Z.leb_spec 0 m); [|lia]. apply length_firstn.
    + destruct (Z.leb_spec 0 m); [lia|]. rewrite length_firstn. lia.
Qed.

(** ** Retrying *)


Section RetrySpec.
Context {A E : Type}.
Variable max_attempts : Z.
Variable delay backoff : Q.
Variable exceptions : E -> bool.
Variable func : nat -> Retry.outcome A E.


End RetrySpec.

(** X16.  With the parameters of [_analyze_pdf_with_retry] (3 attempts,
    delay 1, backoff 2, every exception retried), an analysis that fails
    every time is run three times, with waits of 1 and 2 seconds, and the
    exception of the third run is raised. *)
Theorem analyze_with_retry_exhausted {A E} (func : nat -> Retry.outcome A E) (e : E) :
  (forall attempt, exists e', func attempt = Retry.Throws e') ->
  func 2%nat = Retry.Throws e ->
  Retry.with_retry 3 1 2 (fun _ => true) func = Retry.Run.mk (Retry.Raised e) [1%Q; 2%Q] 3.
Proof.
  intros Hall H2. unfold Retry.with_retry.
  change (seq 0 (Z.to_nat 3)) with [0; 1; 2]%nat. cbn [Retry.attempts].
  destruct (Hall 0%nat) as [e0 ->]. destruct (Hall 1%nat) as [e1 ->]. rewrite H2.
  reflexivity.
Qed.

(** X17.  A call through the circuit breaker, on a breaker that is closed or
    has counted as many failures as its threshold. The call is refused
    exactly when the breaker is open and the timeout has not elapsed since
    the last failure, and then nothing changes; a call that returns closes
    the breaker and clears the count; a call that raises counts one more
    failure, opens the breaker when the threshold is reached, and always
    opens it again when the call was the probe of an open breaker. *)
Theorem breaker_call {A E} (cb : Retry.CircuitBreaker.t) (now failed_at : Q)
  (func : Retry.outcome A E) :
  breaker_ok cb ->
  let cb' := fst (Retry.CircuitBreaker.call cb now failed_at func) in
  let r := snd (Retry.CircuitBreaker.call cb now failed_at func) in
  breaker_ok cb'
  /\ (r = Retry.CircuitBreakerOpenError <->
      Retry.CircuitBreaker.state cb = Retry.OPEN
      /\ Retry.CircuitBreaker._should_attempt_reset cb now = false)
  /\ (r = Retry.CircuitBreakerOpenError -> cb' = cb)
  /\ (forall a, r = Retry.Returned a ->
        func = Retry.Returns a
        /\ Retry.CircuitBreaker.state cb' = Retry.CLOSED
        /\ Retry.CircuitBreaker.failure_count cb' = 0)
  /\ (forall e, r = Retry.Raised e ->
        func = Retry.Throws e
        /\ Retry.CircuitBreaker.failure_count cb' = Retry.CircuitBreaker.failure_count cb + 1
        /\ Retry.CircuitBreaker.last_failure_time cb' = Some failed_at
        /\ (Retry.CircuitBreaker.state cb' = Retry.OPEN <->
            Retry.CircuitBreaker.failure_threshold cb
            <= Retry.CircuitBreaker.failure_count cb + 1)).
Proof.
  intros Hok. unfold breaker_ok in *.
  destruct cb as [threshold timeout count last st].
  unfold Retry.CircuitBreaker.call, Retry.CircuitBreaker._on_success,
    Retry.CircuitBreaker._on_failure.
  cbn [Retry.CircuitBreaker.state Retry.CircuitBreaker.failure_threshold
       Retry.CircuitBreaker.failure_count Retry.CircuitBreaker.timeout
       Retry.CircuitBreaker.last_failure_time] in *.
  assert (Hcount : st <> Retry.CLOSED -> threshold <= count) by (by destruct Hok).
  clear Hok.
  destruct st;
    try destruct (Retry.CircuitBreaker._should_attempt_reset _ now) eqn:Er;
    try destruct func as [a|e];
    try destruct (Z.leb_spec threshold (count + 1));
    cbn [fst snd Retry.CircuitBreaker.state Retry.CircuitBreaker.failure_threshold
         Retry.CircuitBreaker.failure_count Retry.CircuitBreaker.last_failure_time].
  all: try (assert (threshold <= count) by (by apply Hcount)).
  all: split; [first [by left | right; lia]|].
  all: split; [split; [try done; by intros _ | try done; intros [? ?]; congruence]|].
  all: split; [done|].
  all: split; [intros ? Eq; try done; by injection Eq as <-|].
  all: intros ? Eq; try done; injection Eq as <-.
  all: repeat split; try done; try lia.
Qed.

(** ** The batch of the module-style analyzer *)

Lemma dict_set_length {V} (k : str) (v : V) (d : list (str * V)) :
  (length d <= length (Core.dict_set k v d) <= S (length d))%nat.
Proof.
  induction d as [|[k' v'] d IH]; cbn; [lia|].
  destruct (str_eqb k' k); cbn; lia.
Qed.

Section BatchSpec.
Context {P R X : Type}.
Variable name : P -> str.
Variable analyze_pdf : P -> R + X.
Variable output_dir : bool.
Variable _save_json_output : P -> R -> option X.

Lemma batch_fold (pdf_paths : list P) (results : Core.BatchResult.t R X) :
  let results' :=
    fold_left (Core.batch_step name analyze_pdf output_dir _save_json_output)
      pdf_paths results in
  Core.BatchResult.total_files results' = Core.BatchResult.total_files results
  /\ (Core.BatchResult.processed results' + Core.BatchResult.errors results'
      = Core.BatchResult.processed results + Core.BatchResult.errors results
        + length pdf_paths)%nat
  /\ (Core.BatchResult.processed results <= Core.BatchResult.processed results')%nat
  /\ (length (Core.BatchResult.error_details results') + Core.BatchResult.errors results
      = length (Core.BatchResult.error_details results) + Core.BatchResult.errors results')%nat
  /\ (length (Core.BatchResult.results results') + Core.BatchResult.processed results
      <= length (Core.BatchResult.results results) + Core.BatchResult.processed results')%nat.
Proof.
  revert results. induction pdf_paths as [|p ps IH]; intros results; cbn [fold_left].
  - cbn. lia.
  - cbv zeta in *.
    destruct (IH (Core.batch_step name analyze_pdf output_dir _save_json_output results p))
      as (H1 & H2 & H3 & H4 & H5).
    rewrite H1, H2. clear IH H1 H2.
    revert H3 H4 H5.
    generalize (fold_left (Core.batch_step name analyze_pdf output_dir _save_json_output) ps
                  (Core.batch_step name analyze_pdf output_dir _save_json_output results p)).
    intros r'. unfold Core.batch_step.
    destruct (analyze_pdf p) as [result|e].
    + destruct (if output_dir then _save_json_output p result else None) as [e|].
      * cbn [Core.BatchResult.total_files Core.BatchResult.processed Core.BatchResult.errors
             Core.BatchResult.results Core.BatchResult.error_details length].
        rewrite length_app. cbn [length]. lia.
      * cbn [Core.BatchResult.total_files Core.BatchResult.processed Core.BatchResult.errors
             Core.BatchResult.results Core.BatchResult.error_details length].
        pose proof (dict_set_length (name p) result (Core.BatchResult.results results)).
        lia.
    + cbn [Core.BatchResult.total_files Core.BatchResult.processed Core.BatchResult.errors
           Core.BatchResult.results Core.BatchResult.error_details length].
      rewrite length_app. cbn [length]. lia.
Qed.

(** X18.  [analyze_multiple_pdfs] raises [ZeroDivisionError] on the empty
    list of files, when it computes the success rate. On a non-empty list it
    returns: every file is counted once, as processed or as an error (also
    when only the saving of its result fails); there is one error detail per
    error; the results, keyed by file name, are at most as many as the
    processed files; and the success rate is the percentage of processed
    files. *)
Theorem analyze_multiple_counts (pdf_paths : list P) :
  let run := Core.analyze_multiple_pdfs name analyze_pdf output_dir _save_json_output in
  run [] = Raise ZeroDivisionError
  /\ (pdf_paths <> [] ->
      exists results,
        run pdf_paths = Ok results
        /\ Core.BatchResult.total_files results = length pdf_paths
        /\ (Core.BatchResult.processed results + Core.BatchResult.errors results
            = length pdf_paths)%nat
        /\ length (Core.BatchResult.error_details results) = Core.BatchResult.errors results
        /\ (length (Core.BatchResult.results results)
            <= Core.BatchResult.processed results)%nat
        /\ (Core.BatchResult.success_rate results
            == inject_Z (Z.of_nat (Core.BatchResult.processed results))
               / inject_Z (Z.of_nat (length pdf_paths)) * 100)%Q
        /\ (0 <= Core.BatchResult.success_rate results <= 100)%Q).
Proof.
  cbv zeta. split; [done|]. intros Hne.
  unfold Core.analyze_multiple_pdfs.
  destruct (batch_fold pdf_paths (Core.BatchResult.mk (length pdf_paths) 0 0 0%Q [] []))
    as (H1 & H2 & _ & H4 & H5). cbv zeta in *.
  revert H1 H2 H4 H5.
  generalize (fold_left (Core.batch_step name analyze_pdf output_dir _save_json_output)
                pdf_paths (Core.BatchResult.mk (length pdf_paths) 0 0 0%Q [] [])).
  intros r.
  cbn [Core.BatchResult.total_files Core.BatchResult.processed Core.BatchResult.errors
       Core.BatchResult.results Core.BatchResult.error_details length].
  intros H1 H2 H4 H5. rewrite H1.
  assert (Hlen : (0 < length pdf_paths)%nat) by (destruct pdf_paths; [done|cbn; lia]).
  assert (Hpos : (0 < inject_Z (Z.of_nat (length pdf_paths)))%Q).
  { rewrite <- (Zlt_Qlt 0). lia. }
  rewrite truediv_defined by (intros Hz; rewrite Hz in Hpos; by apply Qlt_irrefl in Hpos).
  unfold mbind, result_bind. eexists. split; [reflexivity|].
  cbn [Core.BatchResult.total_files Core.BatchResult.processed Core.BatchResult.errors
       Core.BatchResult.results Core.BatchResult.error_details Core.BatchResult.success_rate].
  split; [done|]. split; [lia|]. split; [lia|]. split; [lia|]. split; [reflexivity|].
  assert (Hp : (0 <= inject_Z (Z.of_nat (Core.BatchResult.processed r)))%Q).
  { rewrite <- (Zle_Qle 0). lia. }
  assert (Hle : (inject_Z (Z.of_nat (Core.BatchResult.processed r))
                 <= inject_Z (Z.of_nat (length pdf_paths)))%Q).
  { rewrite <- Zle_Qle. lia. }
  split.
  - apply Qmult_le_0_compat; [|discriminate].
    apply Qle_shift_div_l; [done|]. by rewrite Qmult_0_l.
  - apply (Qle_trans _ (1 * 100)); [|discriminate].
    apply Qmult_le_compat_r; [|discriminate].
    apply Qle_shift_div_r; [done|]. by rewrite Qmult_1_l.
Qed.
End BatchSpec.

(** ** The script detectors *)

Lemma py_max_from_In {A K} (lt : K -> K -> bool) (key : A -> K) x l :
  In (py_max_from lt key x l) (x :: l).
Proof.
  unfold py_max_from. revert x. induction l as [|a l IH]; intros x; cbn [fold_left].
  - by left.
  - destruct (lt (key x) (key a)).
    + right. apply IH.
    + destruct (IH x) as [H|H]; [by left|right; by right].
Qed.



(** X20.  The detector of the script pipeline returns [unknown] exactly when
    no character of the text belongs to any of its scripts; otherwise it
    returns a script with at least one character in the text and with as
    many characters as any other script. *)
Theorem support_detect_script_spec (text : str) :
  let script := MultilingualSupport.detect_script text in
  (script = unknown <->
   forall name pattern c,
     In (name, pattern) MultilingualSupport.script_patterns -> In c text -> pattern c = false)
  /\ (script <> unknown ->
      exists pattern,
        In (script, pattern) MultilingualSupport.script_patterns
        /\ (0 < matches pattern text)%nat
        /\ forall name' pattern',
             In (name', pattern') MultilingualSupport.script_patterns ->
             (matches pattern' text <= matches pattern text)%nat).
Proof.
  cbv zeta. unfold MultilingualSupport.detect_script.
  destruct text as [|c0 t].
  { split; [split; [intros _ ? ? ? _ []|done]|done]. }
  set (text := c0 :: t).
  set (f := fun item : script_name * (N -> bool) =>
         let '(script, pattern) := item in
         if (0 <? length (List.filter pattern text))%nat
         then Some (script, length (List.filter pattern text)) else None).
  fold f.
  assert (Hin : forall name n,
            In (name, n) (omap f MultilingualSupport.script_patterns) <->
            exists pattern, In (name, pattern) MultilingualSupport.script_patterns
              /\ n = matches pattern text /\ (0 < n)%nat).
  { intros name n. rewrite <- list_elem_of_In, list_elem_of_omap. split.
    - intros ([name' pattern] & Hx & Hf). apply list_elem_of_In in Hx.
      unfold f in Hf. destruct (Nat.ltb_spec 0 (length (List.filter pattern text))); [|done].
      injection Hf as <- <-. exists pattern. done.
    - intros (pattern & Hx & -> & Hpos). exists (name, pattern).
      split; [by apply list_elem_of_In|]. unfold f, matches in *.
      destruct (Nat.ltb_spec 0 (length (List.filter pattern text))); [done|lia]. }
  assert (Hzero : forall pattern,
            matches pattern text = 0%nat <-> forall c, In c text -> pattern c = false).
  { intros pattern. unfold matches. split.
    - intros H c Hc. destruct (pattern c) eqn:E; [|done].
      assert (Hf : In c (List.filter pattern text)) by (by apply filter_In).
      destruct (List.filter pattern text); [done|cbn in H; lia].
    - intros H. by rewrite filter_none. }
  destruct (omap f MultilingualSupport.script_patterns) as [|item items] eqn:Ec.
  - split; [|done]. split; [|done]. intros _ name pattern c Hp.
    apply Hzero. destruct (matches pattern text) as [|n] eqn:En; [done|].
    assert (Hi : In (name, S n) (@nil (script_name * nat))).
    { apply Hin. exists pattern. split; [done|]. split; [done|lia]. }
    destruct Hi.
  - pose proof (py_max_from_In Nat.ltb snd item items) as Hmax.
    destruct (py_max_from_first snd items item _ eq_refl) as (l1 & l2 & Hsplit & H1 & H2).
    destruct (py_max_from Nat.ltb snd item items) as [script n].
    cbn [fst snd] in *.
    apply Hin in Hmax as (pattern & Hp & -> & Hpos).
    assert (Hknown : script <> unknown).
    { clear -Hp. unfold MultilingualSupport.script_patterns in Hp.
      repeat (destruct Hp as [Hp|Hp]; [by injection Hp as <- _|]). done. }
    split.
    + split; [done|]. intros Hnone. exfalso.
      assert (Hz : matches pattern text = 0%nat).
      { apply Hzero. intros c Hc. by apply (Hnone script pattern c). }
      lia.
    + intros _. exists pattern. split; [done|]. split; [done|].
      intros name' pattern' Hp'.
      destruct (matches pattern' text) as [|n'] eqn:En; [lia|].
      assert (Hi : In (name', S n') (item :: items)).
      { apply Hin. exists pattern'. split; [done|]. split; [done|lia]. }
      rewrite Hsplit in Hi. apply in_app_or in Hi as [Hi|[Hi|Hi]].
      * specialize (H1 _ Hi). cbn [snd] in H1. lia.
      * injection Hi as _ <-. lia.
      * specialize (H2 _ Hi). cbn [snd] in H2. lia.
Qed.

(** X21.  [_normalize_width] keeps the length of the text and every
    character outside the full-width range; its result has no character in
    the full-width range, so that normalizing twice changes nothing more. *)
Theorem normalize_width_idempotent (text : str) :
  length (MultilingualProcessor._normalize_width text) = length text
  /\ (forall c, In c (MultilingualProcessor._normalize_width text) ->
        between 65281 65374 c = false)
  /\ MultilingualProcessor._normalize_width (MultilingualProcessor._normalize_width text)
     = MultilingualProcessor._normalize_width text
  /\ ((forall c, In c text -> between 65281 65374 c = false) ->
      MultilingualProcessor._normalize_width text = text).
Proof.
  unfold MultilingualProcessor._normalize_width.
  assert (Hout : forall c, between 65281 65374
                   (if between 65281 65374 c then (c - 65248)%N else c) = false).
  { intros c. destruct (between 65281 65374 c) eqn:E; [|done].
    unfold between in *. apply andb_true_iff in E as [H1 H2].
    apply N.leb_le in H1, H2. apply andb_false_iff. left. apply N.leb_gt. lia. }
  split; [apply length_map|]. split; [|split].
  - intros c Hc. apply in_map_iff in Hc as (c' & <- & _). apply Hout.
  - rewrite map_map. apply map_ext. intros c. by rewrite Hout.
  - intros H. rewrite <- (map_id text) at 2. apply map_ext_in. intros c Hc.
    by rewrite (H c Hc).
Qed.

(** X22.  Every heading of the outline of an opened document is the text of
    a visible span of the document, stripped, on the page of that span
    (counted from 1, so between 1 and the number of pages) and at the
    rounded corner of its bounding box. *)
Theorem document_headings_in_document (doc : list Page.t) (entry : Entry.t) :
  In entry (Outline.headings (Analysis.structural_outline (analyze_pdf_structure (Some doc)))) ->
  exists page_num span,
    In (page_num, span) (document_spans doc)
    /\ visible span = true
    /\ Entry.text entry = strip (Span.text span)
    /\ Entry.page entry = Z.of_nat page_num + 1
    /\ 1 <= Entry.page entry <= Z.of_nat (length doc)
    /\ Entry.position entry
       = (Position.x (span_position span), Position.y (span_position span)).
Proof.
  unfold analyze_pdf_structure.
  assert (Hs : forall entry,
            In entry (Outline.headings (structural_outline (_extract_text_blocks doc))) ->
            exists page_num span,
              In (page_num, span) (document_spans doc)
              /\ visible span = true
              /\ Entry.text entry = strip (Span.text span)
              /\ Entry.page entry = Z.of_nat page_num + 1
              /\ 1 <= Entry.page entry <= Z.of_nat (length doc)
              /\ Entry.position entry
                 = (Position.x (span_position span), Position.y (span_position span))).
  { clear entry. intros entry Hentry.
    apply outline_entry_block in Hentry as (block & Hin & Ht & Hp & Hpos & _).
    destruct (extract_text_blocks_cases doc) as [[_ He]|[_ He]]; rewrite He in Hin; [done|].
    apply in_map_iff in Hin as ([page_num span] & <- & Hin).
    apply filter_In in Hin as [Hin Hv]. cbn [snd] in Hv.
    exists page_num, span. split; [done|]. split; [done|].
    cbn [block_of_span Block.text Block.page_number Block.position] in *.
    rewrite strip_idem in Ht. apply document_spans_bound in Hin.
    rewrite Hp. repeat split; try done; lia. }
  unfold structural_outline in Hs.
  destruct (_extract_headings_from_blocks (_extract_text_blocks doc)) as [outline|e];
    [|intros []].
  cbn [Analysis.structural_outline]. apply Hs.
Qed.

(** ** The font profile *)

Lemma py_min_Q (l : list Q) (s m : Q) :
  py_min_from Qlt_bool id s l = m ->
  In m (s :: l) /\ forall y, In y (s :: l) -> (m <= y)%Q.
Proof.
  unfold py_min_from, id. revert s. induction l as [|a l IH]; intros s; cbn [fold_left].
  - intros <-. split; [by left|]. intros y [<-|[]]. apply Qle_refl.
  - destruct (Qlt_bool a s) eqn:E; intros Hm.
    + apply Qlt_bool_iff in E. destruct (IH _ Hm) as [Hin Hmin]. split; [by right|].
      intros y [<-|Hy]; [|by apply Hmin].
      eapply Qle_trans; [|apply Qlt_le_weak, E]. apply Hmin. by left.
    + apply Qlt_bool_false in E. destruct (IH _ Hm) as [Hin Hmin]. split.
      * destruct Hin as [<-|Hin]; [by left | by right; right].
      * intros y [<-|[<-|Hy]].
        -- apply Hmin. by left.
        -- eapply Qle_trans; [|exact E]. apply Hmin. by left.
        -- apply Hmin. by right.
Qed.

(** X23.  The font profile of a non-empty input has its statistics: the
    smallest and the largest size are sizes of the input and bound every
    size, the body size is a size of the input and is repeated as the most
    common one, the median is a size of the input, rounded, and at most five
    common sizes are listed. *)
Theorem font_stats_bounds (b : Block.t) (bs : list Block.t) :
  let sizes := map Block.font_size (b :: bs) in
  let font_analysis := _analyze_font_styles (b :: bs) in
  exists stats,
    FontAnalysis.font_size_stats font_analysis = Some stats
    /\ In (Stats.min stats) sizes /\ In (Stats.max stats) sizes
    /\ (forall s, In s sizes -> (Stats.min stats <= s <= Stats.max stats)%Q)
    /\ Stats.most_common stats = FontAnalysis.body_font_size font_analysis
    /\ In (FontAnalysis.body_font_size font_analysis) sizes
    /\ (exists m, In m sizes /\ Stats.median stats = round2 m)
    /\ (length (FontAnalysis.common_font_sizes font_analysis) <= 5)%nat.
Proof.
  cbv zeta.
  assert (Hbody : In (FontAnalysis.body_font_size (_analyze_font_styles (b :: bs)))
                    (map Block.font_size (b :: bs))).
  { destruct (analyze_body_first_mode b bs) as (pre & post & Hsplit & _).
    rewrite Hsplit. apply in_or_app. right. by left. }
  revert Hbody. unfold _analyze_font_styles.
  cbn [FontAnalysis.font_size_stats FontAnalysis.body_font_size
       FontAnalysis.common_font_sizes].
  intros Hbody. eexists. split; [reflexivity|].
  cbn [Stats.min Stats.max Stats.most_common Stats.median].
  set (sizes := map Block.font_size (b :: bs)) in *.
  assert (Hs : sizes = Block.font_size b :: map Block.font_size bs) by done.
  destruct (py_min_Q (map Block.font_size bs) (Block.font_size b) _ eq_refl) as [Hmin1 Hmin2].
  destruct (py_max_Q (map Block.font_size bs) (Block.font_size b) _ eq_refl) as [Hmax1 Hmax2].
  rewrite Hs at 1 2. cbn [map] in *.
  split; [exact Hmin1|]. split; [exact Hmax1|].
  split; [intros s Hin; split; [by apply Hmin2|by apply Hmax2]|].
  split; [done|]. split; [exact Hbody|]. split.
  - eexists. split; [|reflexivity].
    apply (py_sort_In Qle_bool). apply nth_In. rewrite py_sort_length.
    rewrite Hs. cbn [length]. apply Nat.div_lt; lia.
  - rewrite length_map. unfold most_common, nlargest. apply firstn_le_length.
Qed.

(** ** The title of the metadata and the schema *)

Lemma largest_text_fold (spans : list Span.t) (st : str * Q) :
  (0 <= snd st)%Q ->
  (fst st = [] \/ (0 < snd st)%Q) ->
  let st' := fold_left largest_text_step spans st in
  (0 <= snd st')%Q
  /\ (forall span, In span spans -> title_sized span = true ->
        (default 0%Q (Span.size span) <= snd st')%Q)
  /\ (snd st <= snd st')%Q
  /\ (st' = st
      \/ exists span, In span spans /\ title_sized span = true
           /\ st' = (strip (Span.text span), default 0%Q (Span.size span))
           /\ (0 < snd st')%Q).
Proof.
  revert st. induction spans as [|a spans IH]; intros st Hpos Hst; cbn [fold_left].
  - cbv zeta. split; [done|]. split; [intros ? []|]. split; [apply Qle_refl|by left].
  - cbv zeta.
    assert (Hstep : let st1 := largest_text_step st a in
              (0 <= snd st1)%Q /\ (fst st1 = [] \/ (0 < snd st1)%Q)
              /\ (snd st <= snd st1)%Q
              /\ (title_sized a = true -> (default 0%Q (Span.size a) <= snd st1)%Q)
              /\ (st1 = st
                  \/ title_sized a = true
                     /\ st1 = (strip (Span.text a), default 0%Q (Span.size a))
                     /\ (0 < snd st1)%Q)).
    { unfold largest_text_step, title_sized. destruct st as [largest_text largest_size].
      cbn [fst snd] in *.
      destruct (Qlt_bool largest_size (default 0%Q (Span.size a))) eqn:E1;
        destruct (5 <? length (strip (Span.text a)))%nat;
        destruct (length (strip (Span.text a)) <? 100)%nat;
        cbn [andb fst snd];
        try (split; [done|]; split; [done|]; split; [apply Qle_refl|];
             split; [done|by left]).
      + apply Qlt_bool_iff in E1.
        assert (Hp : (0 < default 0%Q (Span.size a))%Q)
          by (eapply Qle_lt_trans; [exact Hpos|exact E1]).
        split; [by apply Qlt_le_weak|]. split; [by right|].
        split; [by apply Qlt_le_weak|]. split; [intros _; apply Qle_refl|].
        right. done.
      + apply Qlt_bool_false in E1.
        split; [done|]. split; [done|]. split; [apply Qle_refl|].
        split; [done|by left]. }
    cbv zeta in Hstep. destruct Hstep as (H1 & H2 & H3 & H4 & H5).
    destruct (IH (largest_text_step st a) H1 H2) as (I1 & I2 & I3 & I4). cbv zeta in *.
    split; [done|]. split; [|split].
    + intros span [<-|Hin] Hsized.
      * eapply Qle_trans; [apply (H4 Hsized)|exact I3].
      * by apply I2.
    + eapply Qle_trans; [exact H3|exact I3].
    + destruct I4 as [I4|(span & Hin & Hsized & Heq & Hp)].
      * rewrite I4. destruct H5 as [H5|(Hsized & Heq & Hp)]; [by left|].
        right. exists a. split; [by left|]. rewrite Heq in *. done.
      * right. exists span. split; [by right|done].
Qed.

Lemma fold_left_concat {A B} (f : A -> B -> A) (ls : list (list B)) (st : A) :
  fold_left (fun st l => fold_left f l st) ls st = fold_left f (concat ls) st.
Proof.
  revert st. induction ls as [|l ls IH]; intros st; [done|].
  cbn [fold_left concat]. by rewrite fold_left_app, IH.
Qed.

Lemma first_page_fold (first_page : Page.t) (st : str * Q) :
  fold_left
    (fun st block =>
       match PageBlock.lines block with
       | None => st
       | Some lines =>
           fold_left (fun st line => fold_left largest_text_step (Line.spans line) st)
             lines st
       end)
    (Page.blocks first_page) st
  = fold_left largest_text_step (page_spans first_page) st.
Proof.
  unfold page_spans. rewrite <- fold_left_concat.
  generalize (Page.blocks first_page). intros blocks. revert st.
  induction blocks as [|block blocks IH]; intros st; [done|].
  cbn [fold_left map]. rewrite IH. f_equal. unfold block_spans.
  destruct (PageBlock.lines block) as [lines|]; [|done].
  rewrite <- fold_left_concat. clear. revert st.
  induction lines as [|line lines IH]; intros st; [done|].
  cbn [fold_left map]. by rewrite IH.
Qed.

(** X24.  [_extract_document_title] never returns the empty string. A title
    of the metadata that is not blank is returned stripped. Otherwise the
    result is ["Untitled Document"], or the stripped text of a span of the
    first page that has more than 5 and fewer than 100 characters and a
    positive size, at least as large as every other span of that page with
    such a text. *)
Theorem extract_document_title_spec (metadata_title : option str) (doc : list Page.t) :
  let title := _extract_document_title metadata_title doc in
  title <> []
  /\ (forall t, metadata_title = Some t -> strip t <> [] -> title = strip t)
  /\ ((forall t, metadata_title = Some t -> strip t = []) ->
      title = untitled
      \/ exists first_page rest span,
           doc = first_page :: rest
           /\ In span (page_spans first_page)
           /\ title = strip (Span.text span)
           /\ title_sized span = true
           /\ (0 < default 0%Q (Span.size span))%Q
           /\ forall span', In span' (page_spans first_page) -> title_sized span' = true ->
                (default 0%Q (Span.size span') <= default 0%Q (Span.size span))%Q).
Proof.
  assert (Hfirst : first_page_title doc <> []
            /\ (first_page_title doc = untitled
                \/ exists first_page rest span,
                     doc = first_page :: rest
                     /\ In span (page_spans first_page)
                     /\ first_page_title doc = strip (Span.text span)
                     /\ title_sized span = true
                     /\ (0 < default 0%Q (Span.size span))%Q
                     /\ forall span', In span' (page_spans first_page) ->
                          title_sized span' = true ->
                          (default 0%Q (Span.size span') <= default 0%Q (Span.size span))%Q)).
  { unfold first_page_title. destruct doc as [|first_page rest]; [split; [done|by left]|].
    rewrite first_page_fold.
    destruct (largest_text_fold (page_spans first_page) ([], 0%Q) (Qle_refl 0) (or_introl eq_refl))
      as (_ & Hmax & _ & Hcases). cbv zeta in *.
    destruct (fold_left largest_text_step (page_spans first_page) ([], 0%Q))
      as [largest_text largest_size].
    destruct Hcases as [[= -> ->]|(span & Hin & Hsized & [= -> ->] & Hp)];
      [split; [done|by left]|].
    cbn [snd] in *.
    assert (Hne : strip (Span.text span) <> []).
    { unfold title_sized in Hsized. destruct (strip (Span.text span)); [done|done]. }
    destruct (strip (Span.text span)) as [|c t] eqn:Es; [done|].
    split; [done|]. right. exists first_page, rest, span. rewrite Es. done. }
  cbv zeta. unfold _extract_document_title.
  destruct metadata_title as [t|].
  - destruct t as [|c t']; [|destruct (strip (c :: t')) as [|c' s'] eqn:Es].
    + split; [apply Hfirst|]. split; [intros t [= <-] Hs; done|]. intros _. apply Hfirst.
    + split; [apply Hfirst|]. split; [intros t [= <-] Hs; congruence|]. intros _. apply Hfirst.
    + split; [done|]. split; [intros t [= <-] _; done|].
      intros Hblank. specialize (Hblank _ eq_refl). congruence.
  - split; [apply Hfirst|]. split; [done|]. intros _. apply Hfirst.
Qed.

Lemma analysis_pages_positive (opened : option (list Page.t)) (entry : Entry.t) :
  In entry (Outline.headings (Analysis.structural_outline (analyze_pdf_structure opened))) ->
  1 <= Entry.page entry.
Proof.
  unfold analyze_pdf_structure. destruct opened as [doc|]; [|intros []].
  destruct (_extract_headings_from_blocks (_extract_text_blocks doc)) as [outline|e] eqn:E;
    [|intros []].
  cbn [Analysis.structural_outline]. intros Hin.
  assert (Hin' : In entry (Outline.headings (structural_outline (_extract_text_blocks doc))))
    by (unfold structural_outline; by rewrite E).
  apply outline_entry_block in Hin' as (block & Hb & _ & Hp & _).
  destruct (extract_text_blocks_cases doc) as [[_ He]|[_ He]]; rewrite He in Hb; [done|].
  apply in_map_iff in Hb as ([page_num span] & <- & _).
  cbn [block_of_span Block.page_number] in Hp. lia.
Qed.

(** X25.  Every result of [analyze_pdf_structure] passes
    [validate_output_schema], whether the file could be opened and analysed
    or not: the pages of the headings count from 1. *)
Theorem analysis_validates (opened : option (list Page.t)) :
  JsonFormatter.validate_output_schema (analyze_pdf_structure opened) = true.
Proof.
  unfold JsonFormatter.validate_output_schema. apply andb_true_iff. split.
  - apply Z.leb_le. lia.
  - apply forallb_forall. intros entry Hin. apply Z.leb_le.
    by apply (analysis_pages_positive opened).
Qed.

(** X26.  The outline of the script pipeline is in reading order throughout:
    each heading is on an earlier page than every later one, or on the same
    page and no lower; the error outline and the outline of the empty input
    have no heading. *)
Theorem outline_reading_order (text_blocks : list Block.t) :
  StronglySorted (fun a b => reading_order (entry_key a) (entry_key b))
    (Outline.headings (structural_outline text_blocks)).
Proof.
  unfold structural_outline, _extract_headings_from_blocks.
  destruct text_blocks as [|b bs]; [constructor|].
  unfold mbind, result_bind.
  destruct (_filter_heading_candidates _ _) as [cands|e]; [|constructor].
  destruct (_classify_heading_levels _ _) as [hs|e] eqn:Ec; [|constructor].
  cbn [Outline.headings]. apply classify_sorted in Ec.
  apply (proj2 (StronglySorted_map final_heading
                  (fun a b => reading_order (entry_key a) (entry_key b)) _)).
  by apply StronglySorted_firstn.
Qed.

(** ** Witnesses of the further properties *)

(** X2, witness.  A bold heading over text whose size was read as 0: the
    pipeline raises and the error outline is returned. *)
Lemma extract_headings_errors_witness :
  _extract_headings_from_blocks zero_body_doc = Raise ZeroDivisionError
  /\ structural_outline zero_body_doc = Outline.mk error_title [] None.
Proof.
  destruct (extract_headings_errors zero_body_doc ZeroDivisionError) as (Hiff & Herr & _).
  assert (Hf : (FontAnalysis.body_font_size (_analyze_font_styles zero_body_doc) == 0)%Q
               /\ exists stats block,
                    FontAnalysis.font_size_stats (_analyze_font_styles zero_body_doc) = Some stats
                    /\ In block zero_body_doc
                    /\ reaches_scoring
                         (FontAnalysis.body_font_size (_analyze_font_styles zero_body_doc))
                         (Stats.average stats) block = true).
  { split; [vm_compute; reflexivity|]. eexists. eexists.
    split; [vm_compute; reflexivity|]. split; [by left|]. vm_compute. reflexivity. }
  split; [apply Hiff; split; [reflexivity|exact Hf]|exact (Herr Hf)].
Defined.

(** X3, witness.  The candidates of a document with two headings. *)
Lemma filter_candidates_sorted_witness :
  exists out,
    _filter_heading_candidates two_headings_doc (_analyze_font_styles two_headings_doc) = Ok out
    /\ StronglySorted (fun a b => reading_order (candidate_key a) (candidate_key b)) out
    /\ (length out <= length two_headings_doc)%nat
    /\ forall c, In c out ->
         In (Candidate.block c) two_headings_doc
         /\ (25 <= Candidate.heading_score c <= 113)%Q.
Proof.
  destruct (_filter_heading_candidates two_headings_doc (_analyze_font_styles two_headings_doc))
    as [out|e] eqn:E; [|vm_compute in E; discriminate].
  exists out. split; [reflexivity|].
  exact (filter_candidates_sorted two_headings_doc (_analyze_font_styles two_headings_doc) out E).
Defined.

(** X4, witness.  The classifier on one candidate. *)
Lemma classify_levels_carried_witness :
  exists hs,
    _classify_heading_levels [tie_candidate] (_analyze_font_styles tie_doc) = Ok hs
    /\ Permutation (map carried_of_heading hs) (map carried_of_candidate [tie_candidate])
    /\ forall h, In h hs ->
         tally_ok (Scores.h1 (Heading.classification_scores h),
                   Scores.h2 (Heading.classification_scores h),
                   Scores.h3 (Heading.classification_scores h))
         /\ Scores.final (Heading.classification_scores h)
            = Z.max (Z.max (Scores.h1 (Heading.classification_scores h))
                       (Scores.h2 (Heading.classification_scores h)))
                (Scores.h3 (Heading.classification_scores h)).
Proof.
  destruct (_classify_heading_levels [tie_candidate] (_analyze_font_styles tie_doc))
    as [hs|e] eqn:E; [|vm_compute in E; discriminate].
  exists hs. split; [reflexivity|].
  exact (classify_levels_carried [tie_candidate] (_analyze_font_styles tie_doc) hs E).
Defined.

(** X10, witness.  A document with a bounding box of two coordinates. *)
Lemma analyze_without_text_witness :
  (exists page_num span,
     In (page_num, span) (document_spans clipped_doc) /\ unreadable span = true)
  /\ analyze_pdf_structure (Some clipped_doc)
     = Analysis.mk 1 [] (Outline.mk [] [] None) false 0 []
  /\ save_result (analyze_pdf_structure (Some clipped_doc)) true = Some ([], []).
Proof.
  assert (H : exists page_num span,
            In (page_num, span) (document_spans clipped_doc) /\ unreadable span = true).
  { exists 0%nat, (text_span "Some body text." 12 0 [72%Q; 300%Q]).
    split; [right; by left|vm_compute; reflexivity]. }
  split; [exact H|]. exact (analyze_without_text clipped_doc (or_intror H)).
Defined.

(** X22, witness.  The heading of a one-page document and its span. *)
Lemma document_headings_in_document_witness :
  In (Entry.mk H1 (lit "Project Plan") 1 (round2 72, round2 100))
    (Outline.headings
       (Analysis.structural_outline (analyze_pdf_structure (Some readable_doc))))
  /\ exists page_num span,
       In (page_num, span) (document_spans readable_doc)
       /\ visible span = true
       /\ lit "Project Plan" = strip (Span.text span)
       /\ 1 = Z.of_nat page_num + 1
       /\ 1 <= 1 <= Z.of_nat (length readable_doc)
       /\ (round2 72, round2 100)
          = (Position.x (span_position span), Position.y (span_position span)).
Proof.
  assert (Hin : In (Entry.mk H1 (lit "Project Plan") 1 (round2 72, round2 100))
                  (Outline.headings
                     (Analysis.structural_outline
                        (analyze_pdf_structure (Some readable_doc)))))
    by (vm_compute; left; reflexivity).
  split; [exact Hin|].
  exact (document_headings_in_document readable_doc _ Hin).
Defined.

(** X13, witness.  The outline of five blocks of one page. *)
Lemma core_outline_from_blocks_witness :
  font_order_blocks <> []
  /\ Core._identify_headings Core.Config.default font_order_blocks
     = Ok (lit "Annual Report",
           [(H1, lit "second section", 0); (H2, lit "first section", 0)])
  /\ (forall level text page,
        In (level, text, page) [(H1, lit "second section", 0); (H2, lit "first section", 0)] ->
        exists block,
          In block font_order_blocks /\ Core.Block.text block <> lit "Annual Report"
          /\ text = strip (Core.Block.text block) /\ page = Core.Block.page block)
  /\ StronglySorted (fun a b => snd a <= snd b)
       [(H1, lit "second section", 0); (H2, lit "first section", 0)].
Proof.
  assert (Hne : font_order_blocks <> []) by done.
  assert (He : Core._identify_headings Core.Config.default font_order_blocks
               = Ok (lit "Annual Report",
                     [(H1, lit "second section", 0); (H2, lit "first section", 0)]))
    by (vm_compute; reflexivity).
  split; [exact Hne|]. split; [exact He|].
  exact (proj2 (core_outline_from_blocks Core.Config.default font_order_blocks _ _ Hne He)).
Defined.

(** X14, witness.  A cap of -1 drops the last of two headings. *)
Lemma core_cap_is_slice_witness :
  Core._identify_headings
    (Core.Config.mk (Z.of_nat (length font_order_blocks)) 25) font_order_blocks
  = Ok (lit "Annual Report",
        [(H1, lit "second section", 0); (H2, lit "first section", 0)])
  /\ Core._identify_headings (Core.Config.mk (-1) 25) font_order_blocks
     = Ok (lit "Annual Report", [(H1, lit "second section", 0)]).
Proof.
  assert (He : Core._identify_headings
                 (Core.Config.mk (Z.of_nat (length font_order_blocks)) 25) font_order_blocks
               = Ok (lit "Annual Report",
                     [(H1, lit "second section", 0); (H2, lit "first section", 0)]))
    by (vm_compute; reflexivity).
  split; [exact He|].
  exact (proj1 (core_cap_is_slice font_order_blocks _ _ 25 25 (-1) He)).
Defined.

(** X16, witness.  A function that raises the number of the attempt. *)
Lemma analyze_with_retry_exhausted_witness :
  (forall attempt, exists e', always_failing attempt = Retry.Throws e')
  /\ always_failing 2%nat = Retry.Throws 2%nat
  /\ Retry.with_retry 3 1 2 (fun _ => true) always_failing
     = Retry.Run.mk (Retry.Raised 2%nat) [1%Q; 2%Q] 3.
Proof.
  assert (H : forall attempt, exists e', always_failing attempt = Retry.Throws e')
    by (intros attempt; by exists attempt).
  split; [exact H|]. split; [reflexivity|].
  exact (analyze_with_retry_exhausted always_failing 2%nat H eq_refl).
Defined.

(** X17, witness.  A breaker with threshold 1 opens on the first failure. *)
Lemma breaker_call_witness :
  breaker_ok (Retry.CircuitBreaker.init 1 60)
  /\ Retry.CircuitBreaker.state
       (fst (Retry.CircuitBreaker.call (Retry.CircuitBreaker.init 1 60) 0 0
               (always_failing 0)))
     = Retry.OPEN.
Proof.
  assert (H : breaker_ok (Retry.CircuitBreaker.init 1 60)) by (by left).
  split; [exact H|].
  destruct (breaker_call (Retry.CircuitBreaker.init 1 60) 0 0 (always_failing 0) H)
    as (_ & _ & _ & _ & Hraise).
  destruct (Hraise 0%nat eq_refl) as (_ & _ & _ & Hopen).
  apply Hopen. cbn. lia.
Defined.

